(** * mm.c: a segregated-free-list allocator with boundary tags

    Shallow embedding of [src/mm.c] (32-bit build: pointers and [int] are four
    bytes wide, free-list links are stored in [int] cells) and the properties
    of its specification that were checked against it.

    The heap is a map from byte addresses to 32-bit words together with the
    bounds of the region handed out by memlib and the five globals of mm.c.
    Every C function becomes a computation in a state-and-failure monad:
    it can return, call [exit], or fault on an access outside the region or
    outside the 22-entry index array.  Loops take fuel. *)

From Stdlib Require Import ZArith Lia List Bool.
From stdpp Require Import base gmap.

Local Open Scope Z_scope.

(** ** Machine integers *)

Module Int32.

Definition modulus : Z := 2 ^ 32.
Definition half_modulus : Z := 2 ^ 31.

(** The bit pattern of a value: what a [size_t] or a pointer holds. *)
Definition unsigned (z : Z) : Z := z mod modulus.

(** The value of a bit pattern read as [int] (two's complement). *)
Definition signed (z : Z) : Z :=
  let w := z mod modulus in
  if w <? half_modulus then w else w - modulus.

End Int32.

(** ** Constants and macros of mm.c *)

Definition ALIGNMENT : Z := 8.
Definition LISTLENGTH : Z := 22.

(** [sizeof(size_t)] and the size of a pointer in the 32-bit ABI. *)
Definition sizeof_size_t : Z := 4.
Definition sizeof_pointer : Z := 4.

(** [#define ALIGN(size) (((size) + (ALIGNMENT-1)) & ~0x7)] at type [size_t]. *)
Definition ALIGN (size : Z) : Z :=
  Z.land (Int32.unsigned (size + (ALIGNMENT - 1))) (Int32.unsigned (Z.lnot 7)).

Definition SIZE_T_SIZE : Z := ALIGN sizeof_size_t.

Definition SIZE_OF_POINTER : Z := sizeof_pointer.
Definition SIZE_OF_SIZE_T : Z := Int32.signed SIZE_T_SIZE.
Definition SIZE_OF_INFOS : Z := Int32.signed (ALIGN SIZE_T_SIZE * 2).

(** [GET_SIZE_WITH_POS], [GET_ALLOC_WITH_POS], [SET_ALLOC_VAL], [SET_FREE_VAL]
    applied to an [int] already read from memory. *)
Definition GET_SIZE (w : Z) : Z := Z.land w (-2).
Definition GET_ALLOC (w : Z) : Z := Z.land w 1.
Definition SET_ALLOC_VAL (size : Z) : Z := Z.lor size 1.
Definition SET_FREE_VAL (info : Z) : Z := Int32.signed (Z.shiftl (Z.shiftr info 1) 1).

(** Pointer macros: byte offsets of [int *] arithmetic. *)
Definition PREVINT (p : Z) : Z := p - 4.
Definition NEXTINT (p : Z) : Z := p + 4.
Definition PREV2INT (p : Z) : Z := p - 8.
Definition NEXT2INT (p : Z) : Z := p + 8.
Definition PREV3INT (p : Z) : Z := p - 12.
Definition NEXT3INT (p : Z) : Z := p + 12.
Definition PREV4INT (p : Z) : Z := p - 16.
Definition NEXT4INT (p : Z) : Z := p + 16.

Definition DIVUSRPTR (p size : Z) : Z := (p + size + 16) - 4.
Definition BACKWARDINT (start_ptr tempSize : Z) : Z := (start_ptr - tempSize) - 16.
Definition FORWARDINT (last_ptr tempSize : Z) : Z := (last_ptr + tempSize) + 16.
(** Address read or written by [SECONDINFOINTVAL(p, contentsize)]. *)
Definition SECONDINFOINT (p contentsize : Z) : Z := (p + contentsize) + 12.

Definition NULL : Z := 0.
(** [(void * )-1], the failure value of [mem_sbrk]. *)
Definition SBRK_FAILED : Z := Int32.unsigned (-1).

(** An [int] converted to a pointer. *)
Definition ptr_of_int (v : Z) : Z := Int32.unsigned v.

(** ** The heap state *)

(** Lines written to standard output by the [printf] calls of mm.c. *)
Inductive diag : Type :=
| InitFailed
| SbrkFailed
| NotCoalesced (p : Z)
| NotInList (p : Z)
| DifferentHeaderFooter (p : Z)
| AllocBitInFreeList (p : Z)
| Invalid.

Record heap : Type := mkHeap {
  (* the Heap Region *)
  mem : gmap Z Z;
  region_lo : Z;
  region_brk : Z;
  region_max : Z;
  (* the static variables of mm.c *)
  mem_start_brk : Z;
  seg_list : Z;
  mm_start_brk : Z;
  mem_max_addr : Z;
  m_count : Z;
  (* standard output *)
  stdout : list diag
}.

Definition set_mem (f : gmap Z Z -> gmap Z Z) (h : heap) : heap :=
  mkHeap (f (mem h)) (region_lo h) (region_brk h) (region_max h)
         (mem_start_brk h) (seg_list h) (mm_start_brk h) (mem_max_addr h)
         (m_count h) (stdout h).

Definition set_region_brk (b : Z) (h : heap) : heap :=
  mkHeap (mem h) (region_lo h) b (region_max h)
         (mem_start_brk h) (seg_list h) (mm_start_brk h) (mem_max_addr h)
         (m_count h) (stdout h).

Definition set_mem_start_brk (v : Z) (h : heap) : heap :=
  mkHeap (mem h) (region_lo h) (region_brk h) (region_max h)
         v (seg_list h) (mm_start_brk h) (mem_max_addr h)
         (m_count h) (stdout h).

Definition set_seg_list (v : Z) (h : heap) : heap :=
  mkHeap (mem h) (region_lo h) (region_brk h) (region_max h)
         (mem_start_brk h) v (mm_start_brk h) (mem_max_addr h)
         (m_count h) (stdout h).

Definition set_mm_start_brk (v : Z) (h : heap) : heap :=
  mkHeap (mem h) (region_lo h) (region_brk h) (region_max h)
         (mem_start_brk h) (seg_list h) v (mem_max_addr h)
         (m_count h) (stdout h).

Definition set_mem_max_addr (v : Z) (h : heap) : heap :=
  mkHeap (mem h) (region_lo h) (region_brk h) (region_max h)
         (mem_start_brk h) (seg_list h) (mm_start_brk h) v
         (m_count h) (stdout h).

Definition set_m_count (v : Z) (h : heap) : heap :=
  mkHeap (mem h) (region_lo h) (region_brk h) (region_max h)
         (mem_start_brk h) (seg_list h) (mm_start_brk h) (mem_max_addr h)
         v (stdout h).

Definition print (d : diag) (h : heap) : heap :=
  mkHeap (mem h) (region_lo h) (region_brk h) (region_max h)
         (mem_start_brk h) (seg_list h) (mm_start_brk h) (mem_max_addr h)
         (m_count h) (stdout h ++ [d]).

(** An [int] access at [a] is inside the region when the four bytes lie
    between the low bound and the break; mm.c only forms [int]-aligned
    addresses, a misaligned one is treated like an access outside. *)
Definition valid_addr (h : heap) (a : Z) : bool :=
  (region_lo h <=? a) && (a + 4 <=? region_brk h) && (a mod 4 =? 0).

(** Word at [a], whatever the region holds there (0 if never written). *)
Definition peek (h : heap) (a : Z) : Z := default 0 (mem h !! a).

(** ** The monad of allocator calls *)

Inductive outcome (A : Type) : Type :=
| Ret (a : A) (h : heap)      (* the call returned [a] *)
| Exit (status : Z) (h : heap) (* the call ended the process with [exit] *)
| Fault                       (* access outside the region or the index *)
| OutOfFuel.                  (* a loop ran longer than the fuel given *)

Arguments Ret {A} a h.
Arguments Exit {A} status h.
Arguments Fault {A}.
Arguments OutOfFuel {A}.

Definition M (A : Type) : Type := heap -> outcome A.

Definition ret {A} (a : A) : M A := fun h => Ret a h.

Definition bind {A B} (m : M A) (k : A -> M B) : M B :=
  fun h =>
    match m h with
    | Ret a h' => k a h'
    | Exit s h' => Exit s h'
    | Fault => Fault
    | OutOfFuel => OutOfFuel
    end.

Notation "x <- m ;; k" := (bind m (fun x => k))
  (at level 100, m at next level, k at level 200, right associativity).
Notation "m ;; k" := (bind m (fun _ => k))
  (at level 100, k at level 200, right associativity).

Definition gets {A} (f : heap -> A) : M A := fun h => Ret (f h) h.
Definition modify (f : heap -> heap) : M unit := fun h => Ret tt (f h).
Definition fault {A} : M A := fun _ => Fault.
Definition out_of_fuel {A} : M A := fun _ => OutOfFuel.
Definition exit {A} (status : Z) : M A := fun h => Exit status h.
Definition printf (d : diag) : M unit := modify (print d).

(** [*(int * )a] as an rvalue. *)
Definition load (a : Z) : M Z :=
  fun h => if valid_addr h a then Ret (Int32.signed (peek h a)) h else Fault.

(** [*(int * )a = v]. *)
Definition store (a v : Z) : M unit :=
  fun h => if valid_addr h a
           then Ret tt (set_mem (insert a (Int32.signed v)) h)
           else Fault.

(** [((char * )a)[0]] and its assignment, little-endian inside the word. *)
Definition load_byte (a : Z) : M Z :=
  let w := a - a mod 4 in
  fun h => if valid_addr h w
           then Ret (Z.land (Z.shiftr (Int32.unsigned (peek h w)) (8 * (a mod 4))) 255) h
           else Fault.

Definition store_byte (a b : Z) : M unit :=
  let w := a - a mod 4 in
  let sh := 8 * (a mod 4) in
  fun h => if valid_addr h w
           then
             let old := Int32.unsigned (peek h w) in
             let cleared := Z.land old (Z.lnot (Z.shiftl 255 sh)) in
             let new := Z.lor cleared (Z.shiftl (Z.land b 255) sh) in
             Ret tt (set_mem (insert w (Int32.signed new)) h)
           else Fault.

(** ** The Heap Region (memlib) *)

(** Modelled from the spec: memlib.c is not part of the sources.  The Heap
    Region contract of the specification gives [low()], [high()] (the last
    valid byte) and [extend(n)], which returns the base of the new range
    (the previous [high()+1]) or a failure value; failure leaves the region
    as it was.  The region refuses a negative increment and one that would
    pass its capacity [region_max]. *)
Definition mem_heap_lo : M Z := gets region_lo.

(** Modelled from the spec: [high()] of the Heap Region contract. *)
Definition mem_heap_hi : M Z := gets (fun h => region_brk h - 1).

(** Modelled from the spec: [extend(n)] of the Heap Region contract. *)
Definition mem_sbrk (incr : Z) : M Z :=
  fun h =>
    if (incr <? 0) || (region_max h <? region_brk h + incr)
    then Ret SBRK_FAILED h
    else Ret (region_brk h) (set_region_brk (region_brk h + incr) h).

(** ** The index of free lists *)

(** [seg_list[i]] as an rvalue: the index has [LISTLENGTH] cells. *)
Definition seg_list_get (i : Z) : M Z :=
  if (0 <=? i) && (i <? LISTLENGTH)
  then (base <- gets seg_list;;
        v <- load (base + SIZE_OF_POINTER * i);;
        ret (ptr_of_int v))
  else fault.

(** [seg_list[i] = v]. *)
Definition seg_list_set (i v : Z) : M unit :=
  if (0 <=? i) && (i <? LISTLENGTH)
  then (base <- gets seg_list;; store (base + SIZE_OF_POINTER * i) v)
  else fault.

(** [&(seg_list[i])]. *)
Definition seg_list_addr (i : Z) : M Z :=
  base <- gets seg_list;; ret (base + SIZE_OF_POINTER * i).

(** ** mm_init *)

(** [for(i=0;i<LISTLENGTH;i++) seg_list[i] = NULL;] *)
Fixpoint init_lists (fuel : nat) (i : Z) : M unit :=
  match fuel with
  | O => out_of_fuel
  | S f =>
      if i <? LISTLENGTH
      then (seg_list_set i NULL;; init_lists f (i + 1))
      else ret tt
  end.

Definition mm_init (fuel : nat) : M Z :=
  modify (set_m_count 0);;
  lo <- mem_heap_lo;;
  modify (set_mem_start_brk lo);;
  modify (fun h => set_seg_list (mem_start_brk h) h);;
  r <- mem_sbrk (SIZE_OF_POINTER * LISTLENGTH);;
  if r =? SBRK_FAILED
  then (printf InitFailed;; ret (-1))
  else (init_lists fuel 0;;
        hi <- mem_heap_hi;;
        modify (set_mm_start_brk (hi + 1));;
        ret 0).

(** ** remove_entry *)

Definition remove_entry (next_p : Z) : M unit :=
  next <- load next_p;;
  (if negb (ptr_of_int next =? NULL)
   then (a <- load next_p;;
         v <- load (PREVINT next_p);;
         store (PREVINT (ptr_of_int a)) v)
   else ret tt);;
  prev <- load (PREVINT next_p);;
  start <- gets mm_start_brk;;
  if NEXTINT (ptr_of_int prev) >? start
  then (a <- load (PREVINT next_p);;
        v <- load next_p;;
        store (NEXTINT (ptr_of_int a)) v)
  else (a <- load (PREVINT next_p);;
        v <- load next_p;;
        store (ptr_of_int a) v).

(** ** add_to_list_usr *)

(** [while(temp_val != 0) { cnt_bit++; temp_val /= 2; }]: C division
    truncates towards zero. *)
Fixpoint count_loop (fuel : nat) (temp_val cnt_bit : Z) : Z :=
  match fuel with
  | O => cnt_bit
  | S f =>
      if temp_val =? 0 then cnt_bit
      else count_loop f (Z.quot temp_val 2) (cnt_bit + 1)
  end.

(** An [int] is exhausted after at most 32 halvings. *)
Definition count_bits (size : Z) : Z := count_loop 32 size 0.

(** The index computed from a size by [add_to_list_usr], by
    [check_if_in_list_usr] and as the start of the search of [mm_malloc]. *)
Definition bucket_index (size : Z) : Z := count_bits size - 4.

Definition add_to_list_usr (ptr size : Z) : M unit :=
  if size =? 0 then ret tt
  else
    let index := bucket_index size in
    head <- seg_list_get index;;
    store (NEXTINT ptr) head;;
    cell <- seg_list_addr index;;
    store ptr cell;;
    nxt <- load (NEXTINT ptr);;
    (if negb (nxt =? NULL)
     then store (PREVINT (ptr_of_int nxt)) ptr
     else ret tt);;
    seg_list_set index (NEXTINT ptr).

(** ** set_info_free *)

Definition set_info_free (p size : Z) : M unit :=
  store p (SET_FREE_VAL size);;
  store (SECONDINFOINT (PREVINT p) size) (SET_FREE_VAL size).

(** ** coalesce *)

(** The backward loop: [start_ptr] walks over the footers of free
    predecessors. *)
Fixpoint coalesce_backward (fuel : nat) (start_ptr totalSize : Z) : M (Z * Z) :=
  match fuel with
  | O => out_of_fuel
  | S f =>
      start <- gets mm_start_brk;;
      if start_ptr >=? start then
        w <- load start_ptr;;
        if negb (GET_ALLOC w =? 0) then ret (start_ptr, totalSize)
        else
          w' <- load start_ptr;;
          let tempSize := GET_SIZE w' in
          let totalSize := Int32.signed (totalSize + (tempSize + 16)) in
          let start_ptr := BACKWARDINT start_ptr tempSize in
          (if negb (tempSize =? 0)
           then remove_entry (NEXT4INT start_ptr)
           else ret tt);;
          coalesce_backward f start_ptr totalSize
      else ret (start_ptr, totalSize)
  end.

(** The forward loop: [last_ptr] walks over the headers of free successors. *)
Fixpoint coalesce_forward (fuel : nat) (last_ptr totalSize : Z) : M (Z * Z) :=
  match fuel with
  | O => out_of_fuel
  | S f =>
      top <- gets mem_max_addr;;
      if last_ptr <? top then
        w <- load last_ptr;;
        if negb (GET_ALLOC w =? 0) then ret (last_ptr, totalSize)
        else
          w' <- load last_ptr;;
          let tempSize := GET_SIZE w' in
          let totalSize := Int32.signed (totalSize + (tempSize + 16)) in
          (if negb (tempSize =? 0)
           then remove_entry (NEXT2INT last_ptr)
           else ret tt);;
          coalesce_forward f (FORWARDINT last_ptr tempSize) totalSize
      else ret (last_ptr, totalSize)
  end.

Definition coalesce (fuel : nat) (ptr : Z) : M unit :=
  let start_ptr := PREV3INT ptr in
  w <- load (PREVINT ptr);;
  let totalSize := GET_SIZE w in
  let last_ptr := FORWARDINT (PREVINT ptr) totalSize in
  b <- coalesce_backward fuel start_ptr totalSize;;
  let '(start_ptr, totalSize) := b in
  hi <- mem_heap_hi;;
  modify (set_mem_max_addr hi);;
  c <- coalesce_forward fuel last_ptr totalSize;;
  let '(last_ptr, totalSize) := c in
  set_info_free (NEXT2INT start_ptr) totalSize;;
  add_to_list_usr (NEXT3INT start_ptr) totalSize.

(** ** mm_free *)

Definition mm_free (fuel : nat) (ptr : Z) : M unit :=
  w <- load (PREVINT ptr);;
  let size := GET_SIZE w in
  w1 <- load (PREVINT ptr);;
  store (PREVINT ptr) (SET_FREE_VAL w1);;
  w2 <- load (PREVINT ptr);;
  store (SECONDINFOINT (PREV2INT ptr) size) (SET_FREE_VAL w2);;
  coalesce fuel ptr.

(** ** mm_malloc *)

(** The inner [while(next_p != NULL)] of the search: the first entry whose
    size fits exactly or leaves at least 16 bytes is removed from its list
    (and split); the result is the block pointer [p]. *)
Fixpoint scan_bucket (fuel : nat) (contentsize next_p : Z) : M (option Z) :=
  match fuel with
  | O => out_of_fuel
  | S f =>
      if next_p =? NULL then ret None
      else
        w <- load (PREV2INT next_p);;
        let diff := Int32.signed (GET_SIZE w - contentsize) in
        if diff =? 0 then
          let p := PREV3INT next_p in
          remove_entry next_p;;
          ret (Some p)
        else if diff >=? 16 then
          let p := PREV3INT next_p in
          remove_entry next_p;;
          let sizediv := Int32.signed (diff - 16) in
          let temp_ptr := DIVUSRPTR next_p contentsize in
          set_info_free (PREVINT temp_ptr) sizediv;;
          add_to_list_usr temp_ptr sizediv;;
          ret (Some p)
        else
          nxt <- load next_p;;
          scan_bucket f contentsize (ptr_of_int nxt)
  end.

(** The outer [for(i=i-4;i<LISTLENGTH;i++)]. *)
Fixpoint scan_lists (fuel : nat) (contentsize i : Z) : M (option Z) :=
  match fuel with
  | O => out_of_fuel
  | S f =>
      if i <? LISTLENGTH then
        next_p <- seg_list_get i;;
        r <- scan_bucket f contentsize next_p;;
        match r with
        | Some p => ret (Some p)
        | None => scan_lists f contentsize (i + 1)
        end
      else ret None
  end.

(** Lines 239-298: search, grow if nothing was found, write the tags. *)
Definition malloc_place (fuel : nat) (newsize contentsize : Z) : M Z :=
  let i := count_bits contentsize in
  r <- scan_lists fuel contentsize (i - 4);;
  p <- match r with
       | Some p => ret p
       | None => mem_sbrk newsize
       end;;
  if p =? SBRK_FAILED then ret NULL
  else
    store (NEXTINT p) (SET_ALLOC_VAL contentsize);;
    store (SECONDINFOINT p contentsize) (SET_ALLOC_VAL contentsize);;
    ret (p + SIZE_OF_SIZE_T).

Fixpoint mm_malloc (fuel : nat) (size : Z) : M Z :=
  match fuel with
  | O => out_of_fuel
  | S f =>
      let newsize := Int32.signed (ALIGN (Int32.unsigned (size + SIZE_OF_INFOS))) in
      let contentsize := Int32.signed (ALIGN size) in
      (if newsize <=? 32 then
         c <- gets m_count;;
         if (c =? 0) || (c =? 4) then
           q <- mm_malloc f (Int32.unsigned (ALIGN size * 4 + 16 * 3));;
           mm_free f q;;
           modify (set_m_count 1)
         else modify (fun h => set_m_count (Int32.signed (m_count h + 1)) h)
       else if newsize <=? 80 then
         c <- gets m_count;;
         if (c =? 0) || (c =? 6) then
           q <- mm_malloc f (Int32.unsigned (ALIGN size * 6 + 16 * 5));;
           mm_free f q;;
           modify (set_m_count 1)
         else modify (fun h => set_m_count (Int32.signed (m_count h + 1)) h)
       else ret tt);;
      malloc_place f newsize contentsize
  end.

(** ** check_last_usr *)

Definition check_last_usr (ptr : Z) : M Z :=
  w <- load (PREVINT ptr);;
  let next := FORWARDINT (PREVINT ptr) (GET_SIZE w) in
  high <- mem_heap_hi;;
  if next >=? high then ret 1 else ret 0.

(** ** mm_realloc *)

(** The backward walk of lines 472-490; the result is
    [(start_ptr, totalSize, possible)]. *)
Fixpoint realloc_backward (fuel : nat) (start_ptr totalSize newsize : Z)
  : M (Z * Z * bool) :=
  match fuel with
  | O => out_of_fuel
  | S f =>
      start <- gets mm_start_brk;;
      if start_ptr >=? start then
        w <- load start_ptr;;
        if negb (GET_ALLOC w =? 0) then ret (start_ptr, totalSize, false)
        else
          w' <- load start_ptr;;
          let tempSize := GET_SIZE w' in
          let totalSize := Int32.signed (totalSize + (tempSize + 16)) in
          let start_ptr := BACKWARDINT start_ptr tempSize in
          if (totalSize >=? Int32.signed (newsize + 16)) || (totalSize =? newsize)
          then ret (start_ptr, totalSize, true)
          else realloc_backward f start_ptr totalSize newsize
      else ret (start_ptr, totalSize, false)
  end.

(** The forward walk of lines 498-514. *)
Fixpoint realloc_forward (fuel : nat) (last_ptr totalSize newsize : Z)
  : M (Z * Z * bool) :=
  match fuel with
  | O => out_of_fuel
  | S f =>
      top <- gets mem_max_addr;;
      if last_ptr <? top then
        w <- load last_ptr;;
        if negb (GET_ALLOC w =? 0) then ret (last_ptr, totalSize, false)
        else
          w' <- load last_ptr;;
          let tempSize := GET_SIZE w' in
          let totalSize := Int32.signed (totalSize + (tempSize + 16)) in
          let last_ptr := FORWARDINT last_ptr tempSize in
          if (totalSize >=? Int32.signed (newsize + 16)) || (totalSize =? newsize)
          then ret (last_ptr, totalSize, true)
          else realloc_forward f last_ptr totalSize newsize
      else ret (last_ptr, totalSize, false)
  end.

(** Lines 521-527: remove the predecessors that were walked over. *)
Fixpoint realloc_remove_backward (fuel : nat) (itr_ptr tempSize start_ptr : Z)
  : M unit :=
  match fuel with
  | O => out_of_fuel
  | S f =>
      if itr_ptr >? start_ptr then
        let itr_ptr := BACKWARDINT itr_ptr tempSize in
        w <- load itr_ptr;;
        let tempSize := GET_SIZE w in
        remove_entry (NEXT4INT itr_ptr);;
        realloc_remove_backward f itr_ptr tempSize start_ptr
      else ret tt
  end.

(** Lines 533-539: remove the successors that were walked over; the cursor
    is advanced from [last_ptr]. *)
Fixpoint realloc_remove_forward (fuel : nat) (itr_ptr last_ptr : Z) : M unit :=
  match fuel with
  | O => out_of_fuel
  | S f =>
      if itr_ptr <? last_ptr then
        remove_entry (NEXT2INT itr_ptr);;
        w <- load itr_ptr;;
        let tempSize := GET_SIZE w in
        realloc_remove_forward f (FORWARDINT last_ptr tempSize) last_ptr
      else ret tt
  end.

(** [for(i=0;i<copySize;i++) newptr[i] = oldptr[i];], also used for the
    [memcpy] of the fallback, whose ranges do not overlap. *)
Fixpoint copy_bytes (fuel : nat) (newptr oldptr i copySize : Z) : M unit :=
  match fuel with
  | O => out_of_fuel
  | S f =>
      if i <? copySize then
        b <- load_byte (oldptr + i);;
        store_byte (newptr + i) b;;
        copy_bytes f newptr oldptr (i + 1) copySize
      else ret tt
  end.

Definition mm_realloc (fuel : nat) (ptr size : Z) : M Z :=
  let oldptr := ptr in
  w0 <- load (PREVINT ptr);;
  let copySize := Int32.unsigned (GET_SIZE w0) in
  let start_ptr := PREV3INT ptr in
  w1 <- load (PREVINT ptr);;
  let totalSize := GET_SIZE w1 in
  let last_ptr := FORWARDINT (PREVINT ptr) totalSize in
  let itr_ptr := PREV3INT ptr in
  let newsize := Int32.signed (ALIGN size) in
  let copySize :=
    if Int32.unsigned newsize <? copySize then Int32.unsigned newsize else copySize in
  if ptr =? NULL then mm_malloc fuel size
  else if size =? 0 then (mm_free fuel ptr;; ret NULL)
  else if totalSize =? newsize then ret ptr
  else if totalSize >=? Int32.signed (newsize + 16) then
    let start_info_ptr := PREVINT ptr in
    let sizediv := Int32.signed (totalSize - newsize - 16) in
    store start_info_ptr (SET_ALLOC_VAL newsize);;
    store (SECONDINFOINT (PREVINT start_info_ptr) newsize) (SET_ALLOC_VAL newsize);;
    let div_ptr := DIVUSRPTR (NEXT2INT start_info_ptr) newsize in
    set_info_free (PREVINT div_ptr) sizediv;;
    add_to_list_usr div_ptr sizediv;;
    ret ptr
  else
    last <- (if totalSize <? newsize then check_last_usr ptr else ret 0);;
    if (totalSize <? newsize) && negb (last =? 0) then
      let diff := Int32.signed (newsize - totalSize) in
      temp_ptr <- mem_sbrk diff;;
      if temp_ptr =? SBRK_FAILED then (printf SbrkFailed;; exit 1)
      else
        store (PREVINT ptr) (SET_ALLOC_VAL newsize);;
        store (SECONDINFOINT (PREV2INT ptr) newsize) (SET_ALLOC_VAL newsize);;
        ret ptr
    else
      b <- realloc_backward fuel start_ptr totalSize newsize;;
      let '(start_ptr, totalSize, possible) := b in
      c <- (if negb possible then
              hi <- mem_heap_hi;;
              modify (set_mem_max_addr hi);;
              realloc_forward fuel last_ptr totalSize newsize
            else ret (last_ptr, totalSize, possible));;
      let '(last_ptr, totalSize, possible) := c in
      w2 <- load itr_ptr;;
      let tempSize := GET_SIZE w2 in
      newptr <-
        (if possible then
           realloc_remove_backward fuel itr_ptr tempSize start_ptr;;
           w3 <- load (PREVINT ptr);;
           let tempSize := GET_SIZE w3 in
           let itr_ptr := FORWARDINT (PREVINT ptr) tempSize in
           realloc_remove_forward fuel itr_ptr last_ptr;;
           let start_info_ptr := NEXT2INT start_ptr in
           let newptr := NEXTINT start_info_ptr in
           copy_bytes fuel newptr oldptr 0 copySize;;
           (if negb (totalSize =? newsize) then
              let sizediv := Int32.signed (totalSize - newsize - 16) in
              store start_info_ptr (SET_ALLOC_VAL newsize);;
              store (SECONDINFOINT (PREVINT start_info_ptr) newsize)
                    (SET_ALLOC_VAL newsize);;
              let div_ptr := DIVUSRPTR (NEXT2INT start_info_ptr) newsize in
              set_info_free (PREVINT div_ptr) sizediv;;
              add_to_list_usr div_ptr sizediv
            else ret tt);;
           ret newptr
         else mm_malloc fuel size);;
      if newptr =? NULL then ret NULL
      else
        (if negb possible then
           copy_bytes fuel newptr oldptr 0 copySize;;
           mm_free fuel oldptr
         else ret tt);;
        ret newptr.

(** ** check_if_in_list_usr *)

Fixpoint list_traverse (fuel : nat) (traverse compare : Z) : M Z :=
  match fuel with
  | O => out_of_fuel
  | S f =>
      if negb (traverse =? NULL) then
        if traverse =? compare then ret 1
        else (v <- load traverse;; list_traverse f (ptr_of_int v) compare)
      else ret 0
  end.

Definition check_if_in_list_usr (fuel : nat) (ptr size : Z) : M Z :=
  let compare := NEXTINT ptr in
  if size =? 0 then ret 1
  else
    let index := bucket_index size in
    traverse <- seg_list_get index;;
    list_traverse fuel traverse compare.

(** ** mm_check *)

(** The address walk of lines 631-649; [prev] and [valid] are the flags of
    the C function. *)
Fixpoint check_by_address (fuel : nat) (traverse high prev valid : Z) : M Z :=
  match fuel with
  | O => out_of_fuel
  | S f =>
      if traverse <? high then
        w <- load traverse;;
        pv <-
          (if negb (GET_ALLOC w =? 0) then ret (1, valid)
           else
             valid <-
               (if prev =? 0
                then (printf (NotCoalesced (NEXTINT traverse));; ret 0)
                else ret valid);;
             w' <- load traverse;;
             found <- check_if_in_list_usr f (NEXTINT traverse) (GET_SIZE w');;
             valid <-
               (if found =? 0
                then (printf (NotInList (NEXTINT traverse));; ret 0)
                else ret valid);;
             ret (0, valid));;
        let '(prev, valid) := pv in
        let prevptr := traverse in
        w'' <- load traverse;;
        let traverse := FORWARDINT traverse (GET_SIZE w'') in
        hd <- load prevptr;;
        ft <- load (PREV2INT traverse);;
        (if negb (hd =? ft)
         then printf (DifferentHeaderFooter (NEXTINT prevptr))
         else ret tt);;
        check_by_address f traverse high prev valid
      else ret valid
  end.

(** The inner [while(traverse2 != NULL)] of the list walk. *)
Fixpoint check_bucket (fuel : nat) (traverse2 valid : Z) : M Z :=
  match fuel with
  | O => out_of_fuel
  | S f =>
      if negb (traverse2 =? NULL) then
        w <- load (PREV2INT traverse2);;
        valid <-
          (if negb (GET_ALLOC w =? 0)
           then (printf (AllocBitInFreeList (PREVINT traverse2));; ret 0)
           else ret valid);;
        v <- load traverse2;;
        check_bucket f (ptr_of_int v) valid
      else ret valid
  end.

(** The outer [while ( i < LISTLENGTH )]. *)
Fixpoint check_by_list (fuel : nat) (i valid : Z) : M Z :=
  match fuel with
  | O => out_of_fuel
  | S f =>
      if i <? LISTLENGTH then
        head <- seg_list_get i;;
        if head =? NULL then check_by_list f (i + 1) valid
        else
          head' <- seg_list_get i;;
          valid <- check_bucket f head' valid;;
          check_by_list f (i + 1) valid
      else ret valid
  end.

Definition mm_check (fuel : nat) : M Z :=
  start <- gets mm_start_brk;;
  let traverse := NEXTINT start in
  high <- mem_heap_hi;;
  valid <- check_by_address fuel traverse high 1 1;;
  valid <- check_by_list fuel 0 valid;;
  if negb (valid =? 0) then ret 1
  else (printf Invalid;; ret 0).

(** ** Vocabulary of the properties *)

(** A region as memlib hands it over before [mm_init]: nothing allocated,
    the statics of mm.c zero. *)
Definition fresh_region (lo max : Z) : heap :=
  mkHeap ∅ lo lo max 0 0 0 0 0 [].

(** The heap a call returned with ([d] if it did not return). *)
Definition heap_after {A} (o : outcome A) (d : heap) : heap :=
  match o with
  | Ret _ h => h
  | _ => d
  end.

(** [P] holds of the value and heap a call returned with. *)
Definition holds_after {A} (o : outcome A) (P : A -> heap -> Prop) : Prop :=
  match o with
  | Ret a h => P a h
  | _ => False
  end.

(** The bucket selection in the words of the specification: position of the
    highest set bit minus 3, clamped into [0, 21]. *)
Definition spec_bucket_index (s : Z) : Z := Z.max 0 (Z.min 21 (Z.log2 s - 3)).

(** The header tag of the block whose header is at [hdr], and the header of
    the block that follows it in address order. *)
Definition tag_at (h : heap) (a : Z) : Z := Int32.signed (peek h a).
Definition header_of (user_ptr : Z) : Z := PREVINT user_ptr.
Definition footer_of (h : heap) (hdr : Z) : Z :=
  SECONDINFOINT (PREVINT hdr) (GET_SIZE (tag_at h hdr)).
Definition next_header (h : heap) (hdr : Z) : Z :=
  FORWARDINT hdr (GET_SIZE (tag_at h hdr)).
Definition is_free (h : heap) (hdr : Z) : bool := GET_ALLOC (tag_at h hdr) =? 0.

(** The value of head cell [j] of the index. *)
Definition head_cell (h : heap) (j : Z) : Z :=
  ptr_of_int (tag_at h (seg_list h + SIZE_OF_POINTER * j)).

(** Every head cell of the index is null. *)
Definition all_buckets_empty (h : heap) : bool :=
  forallb (fun j => head_cell h (Z.of_nat j) =? NULL) (seq 0 22).

(** What [add_to_list_usr ptr size] needs to run to its end: an index
    inside the array, the two link words of the block and the head cell
    inside the region, the block above the index, and an old head that is
    null or lies in the user zone. *)
Definition can_link (h : heap) (ptr size : Z) : bool :=
  let index := bucket_index size in
  let cell := seg_list h + SIZE_OF_POINTER * index in
  let head := head_cell h index in
  (0 <=? index) && (index <? LISTLENGTH)
  && valid_addr h cell
  && valid_addr h ptr && valid_addr h (NEXTINT ptr)
  && (seg_list h + SIZE_OF_POINTER * LISTLENGTH <=? ptr)
  && ((head =? NULL)
      || (valid_addr h (PREVINT head)
          && (seg_list h + SIZE_OF_POINTER * LISTLENGTH <=? PREVINT head))).

(** The entries of a free list, followed through their next slots for at
    most [n] steps, all lie at addresses congruent to 4 modulo 8. *)
Fixpoint chain_aligned (n : nat) (h : heap) (e : Z) : bool :=
  match n with
  | O => false
  | S n' =>
      (e =? NULL)
      || ((e mod 8 =? 4)
          && match load e h with
             | Ret v _ => chain_aligned n' h (ptr_of_int v)
             | _ => true
             end)
  end.

Definition lists_aligned (n : nat) (h : heap) : bool :=
  forallb (fun j => chain_aligned n h (head_cell h (Z.of_nat j))) (seq 0 22).

(** The small-block primer of [mm_malloc] fires for this request. *)
Definition primer_fires (h : heap) (size : Z) : bool :=
  let newsize := Int32.signed (ALIGN (Int32.unsigned (size + SIZE_OF_INFOS))) in
  if newsize <=? 32 then (m_count h =? 0) || (m_count h =? 4)
  else if newsize <=? 80 then (m_count h =? 0) || (m_count h =? 6)
  else false.

(** ** Scenarios *)

Definition fuel0 : nat := 256.

(** A region of one megabyte at address 0x10000. *)
Definition region0 : heap := fresh_region 65536 (65536 + 2 ^ 20).

(** A region with room for the index and one block of payload 128 only. *)
Definition region_tight : heap := fresh_region 65536 (65536 + 88 + 144).

(** A region of 128 megabytes. *)
Definition region_large : heap := fresh_region 65536 (65536 + 2 ^ 27).

(** init; a = malloc(128); b = malloc(128); free(b); realloc(a, 32). *)
Definition shrink_before_free_block : M (Z * Z) :=
  mm_init fuel0;;
  a <- mm_malloc fuel0 128;;
  b <- mm_malloc fuel0 128;;
  mm_free fuel0 b;;
  r <- mm_realloc fuel0 a 32;;
  ret (r, b).

(** init; a = malloc(48); b = malloc(48); free(a). *)
Definition free_block_before_b : M (Z * Z) :=
  mm_init fuel0;;
  a <- mm_malloc fuel0 48;;
  b <- mm_malloc fuel0 48;;
  mm_free fuel0 a;;
  ret (a, b).

(** init; a = malloc(128). *)
Definition one_block : M Z :=
  mm_init fuel0;;
  mm_malloc fuel0 128.

(** init; a, b, c, d = malloc(128); free(c); realloc(b, 32): block [b] is
    followed by two free blocks, its split-off tail and [c]. *)
Definition two_free_blocks_after_b : M (Z * Z) :=
  mm_init fuel0;;
  a <- mm_malloc fuel0 128;;
  b <- mm_malloc fuel0 128;;
  c <- mm_malloc fuel0 128;;
  d <- mm_malloc fuel0 128;;
  mm_free fuel0 c;;
  r <- mm_realloc fuel0 b 32;;
  ret (r, c).

(** The calls above, then realloc(b, 200) and malloc(128). *)
Definition reuse_of_stale_entry : M (Z * Z) :=
  bc <- two_free_blocks_after_b;;
  r <- mm_realloc fuel0 (fst bc) 200;;
  e <- mm_malloc fuel0 128;;
  ret (r, e).

(** init; a = malloc(128); free(a); b = malloc(112): the split leaves a
    remainder of exactly 16 bytes. *)
Definition split_leaving_16 : M Z :=
  mm_init fuel0;;
  a <- mm_malloc fuel0 128;;
  mm_free fuel0 a;;
  mm_malloc fuel0 112.

(** init; a = malloc(2^25). *)
Definition one_large_block : M Z :=
  mm_init fuel0;;
  mm_malloc fuel0 (2 ^ 25).

(** init; a = malloc(128); free(a): one entry in the index. *)
Definition one_free_block : M Z :=
  mm_init fuel0;;
  a <- mm_malloc fuel0 128;;
  mm_free fuel0 a;;
  ret a.

(** The heap right after [mm_init] in [region0], and the same after one
    more [malloc(128)] in the tight region. *)
Definition heap_init : heap := heap_after (mm_init fuel0 region0) region0.

Definition heap_tight : heap := heap_after (one_block region_tight) region_tight.

(** The heap after init; a = malloc(128); free(a), and after init;
    a = malloc(128). *)
Definition heap_one_free : heap := heap_after (one_free_block region0) region0.

Definition heap_one_block : heap := heap_after (one_block region0) region0.

(** ** Vocabulary of the further properties *)

(** The index zone as [mm_init] leaves it: the 22 head cells start at the
    low bound of the region, which is a positive multiple of 4, the user
    zone starts right after them, and the break, a multiple of 4 inside the
    32-bit address space, is not below the user zone. *)
Definition index_ready (h : heap) : bool :=
  (0 <? region_lo h) && (region_lo h mod 4 =? 0)
  && (seg_list h =? region_lo h)
  && (mm_start_brk h =? seg_list h + SIZE_OF_POINTER * LISTLENGTH)
  && (mm_start_brk h <=? region_brk h)
  && (region_brk h mod 4 =? 0)
  && (region_brk h <? Int32.half_modulus).

(** Two heaps that differ at most in what was printed. *)
Definition same_but_stdout (h h' : heap) : Prop :=
  mem h' = mem h
  /\ region_lo h' = region_lo h
  /\ region_brk h' = region_brk h
  /\ region_max h' = region_max h
  /\ mem_start_brk h' = mem_start_brk h
  /\ seg_list h' = seg_list h
  /\ mm_start_brk h' = mm_start_brk h
  /\ mem_max_addr h' = mem_max_addr h
  /\ m_count h' = m_count h.

(** Two heaps that differ at most in the counter of the primer. *)
Definition same_but_m_count (h h' : heap) : Prop :=
  mem h' = mem h
  /\ region_lo h' = region_lo h
  /\ region_brk h' = region_brk h
  /\ region_max h' = region_max h
  /\ mem_start_brk h' = mem_start_brk h
  /\ seg_list h' = seg_list h
  /\ mm_start_brk h' = mm_start_brk h
  /\ mem_max_addr h' = mem_max_addr h
  /\ stdout h' = stdout h.

(** Neither neighbour of the block at [ptr] can be merged with it: the word
    before it lies below the user zone or carries an alloc bit, and the
    word after it lies at the top of the heap or carries an alloc bit. *)
Definition no_free_neighbour (h : heap) (ptr : Z) : bool :=
  let size := GET_SIZE (tag_at h (PREVINT ptr)) in
  let before := PREV3INT ptr in
  let after := FORWARDINT (PREVINT ptr) size in
  ((before <? mm_start_brk h) || negb (GET_ALLOC (tag_at h before) =? 0))
  && ((region_brk h - 1 <=? after) || negb (GET_ALLOC (tag_at h after) =? 0)).

(** init; a = malloc(128); b = malloc(128); c = malloc(128), and the heap
    these calls end in. *)
Definition three_blocks : M (Z * Z * Z) :=
  mm_init fuel0;;
  a <- mm_malloc fuel0 128;;
  b <- mm_malloc fuel0 128;;
  c <- mm_malloc fuel0 128;;
  ret (a, b, c).

Definition heap_three_blocks : heap := heap_after (three_blocks region0) region0.

(** The calls of [three_blocks], then free(a): the bucket of size 128 holds
    one entry. *)
Definition first_of_three_freed : M (Z * Z * Z) :=
  abc <- three_blocks;;
  mm_free fuel0 (fst (fst abc));;
  ret abc.

Definition heap_first_freed : heap :=
  heap_after (first_of_three_freed region0) region0.

(** The block at [ptr] is the first entry of the bucket selected by [size]:
    the head cell holds the address of its next slot, its prev slot holds
    the address of the head cell, its header and link words lie inside the
    heap, and its successor is null or an entry whose prev slot lies inside
    the heap and is not the block's own next slot. *)
Definition is_first_entry (h : heap) (ptr size : Z) : bool :=
  let index := bucket_index size in
  let cell := seg_list h + SIZE_OF_POINTER * index in
  let n := ptr_of_int (tag_at h (NEXTINT ptr)) in
  (0 <=? index) && (index <? LISTLENGTH)
  && (head_cell h index =? NEXTINT ptr)
  && valid_addr h (PREVINT ptr) && valid_addr h ptr && valid_addr h (NEXTINT ptr)
  && (tag_at h ptr =? cell)
  && ((n =? NULL) || (valid_addr h (PREVINT n) && negb (n =? NEXT2INT ptr))).

(** The byte at address [a], as [load_byte] reads it. *)
Definition byte_at (h : heap) (a : Z) : Z :=
  Z.land (Z.shiftr (Int32.unsigned (peek h (a - a mod 4))) (8 * (a mod 4))) 255.

(** The bytes of the range [a, a + n) lie inside the heap, whose bounds are
    multiples of 4. *)
Definition bytes_inside (h : heap) (a n : Z) : bool :=
  (region_lo h <=? a) && (a + n <=? region_brk h)
  && (region_lo h mod 4 =? 0) && (region_brk h mod 4 =? 0).

(** The block at [ptr] can be merged with its successor only: the word
    before it lies below the user zone or carries an alloc bit, the
    successor is a free block of payload other than 0 whose header lies
    below the top of the heap, and the word after the successor lies at the
    top of the heap or carries an alloc bit. *)
Definition only_successor_free (h : heap) (ptr : Z) : bool :=
  let s := GET_SIZE (tag_at h (PREVINT ptr)) in
  let before := PREV3INT ptr in
  let succ := FORWARDINT (PREVINT ptr) s in
  let t := GET_SIZE (tag_at h succ) in
  let after := FORWARDINT succ t in
  ((before <? mm_start_brk h) || negb (GET_ALLOC (tag_at h before) =? 0))
  && (succ <? region_brk h - 1)
  && (GET_ALLOC (tag_at h succ) =? 0) && negb (t =? 0)
  && ((region_brk h - 1 <=? after) || negb (GET_ALLOC (tag_at h after) =? 0)).


(** The list entry [e] is null, or its prev slot lies inside the heap, in
    the user zone, and outside the words from [lo] to [hi]. *)
Definition entry_clear_of (h : heap) (e lo hi : Z) : bool :=
  (e =? NULL)
  || (valid_addr h (PREVINT e) && (mm_start_brk h <=? PREVINT e)
      && ((PREVINT e <? lo) || (hi <? PREVINT e))).

(** The calls of [three_blocks], then free(c): the last block of the heap is
    the one entry of the bucket of size 128. *)
Definition last_of_three_freed : M (Z * Z * Z) :=
  abc <- three_blocks;;
  mm_free fuel0 (snd abc);;
  ret abc.

Definition heap_last_freed : heap :=
  heap_after (last_of_three_freed region0) region0.

(** Every call of [m] that returns ends in a heap related by [R] to the
    heap it started from. *)
Definition keeps (R : heap -> heap -> Prop) {A : Type} (m : M A) : Prop :=
  forall h a h', m h = Ret a h' -> R h h'.

(** What the calls of the allocator leave alone once [mm_init] has run: the
    bounds of the region, the statics that locate the index and the user
    zone, and the output; the break is not lowered. *)
Definition heap_frame (h h' : heap) : Prop :=
  region_lo h' = region_lo h
  /\ region_max h' = region_max h
  /\ mem_start_brk h' = mem_start_brk h
  /\ seg_list h' = seg_list h
  /\ mm_start_brk h' = mm_start_brk h
  /\ stdout h' = stdout h
  /\ region_brk h <= region_brk h'.

(** In addition the break and the counter of the primer are unchanged. *)
Definition free_frame (h h' : heap) : Prop :=
  heap_frame h h'
  /\ region_brk h' = region_brk h
  /\ m_count h' = m_count h.

(** The call ended the process. *)
Definition is_exit {A : Type} (o : outcome A) : bool :=
  match o with
  | Exit _ _ => true
  | _ => false
  end.

(** No call of [m] ends the process. *)
Definition no_exit {A : Type} (m : M A) : Prop :=
  forall h, is_exit (m h) = false.

(** The line reports a header that differs from the footer. *)
Definition is_tag_mismatch_line (d : diag) : bool :=
  match d with
  | DifferentHeaderFooter _ => true
  | _ => false
  end.

(** The flag [valid] of [mm_check] after the lines [l] were printed: it
    keeps its value while every line reports a header and footer that
    differ, and is 0 otherwise. *)
Definition verdict (l : list diag) (valid : Z) : Z :=
  if forallb is_tag_mismatch_line l then valid else 0.

(** From [h] to [h'] some lines were printed, and the flag went from
    [valid] to [v] accordingly. *)
Definition judged (valid v : Z) (h h' : heap) : Prop :=
  exists l, stdout h' = stdout h ++ l /\ v = verdict l valid.

(** The heads of the buckets from [i] up to, not including, [j] are null. *)
Definition buckets_empty_between (h : heap) (i j : Z) : bool :=
  forallb (fun k => head_cell h (i + Z.of_nat k) =? NULL)
          (seq 0 (Z.to_nat (j - i))).

(** The block at [ptr] can be merged with its predecessor only: the word
    before it, in the user zone, is the footer of a free block of payload
    other than 0, the word before that block lies below the user zone or
    carries an alloc bit, and the word after the block at [ptr] lies at the
    top of the heap or carries an alloc bit. *)
Definition only_predecessor_free (h : heap) (ptr : Z) : bool :=
  let s := GET_SIZE (tag_at h (PREVINT ptr)) in
  let pf := PREV3INT ptr in
  let t := GET_SIZE (tag_at h pf) in
  let before := BACKWARDINT pf t in
  let after := FORWARDINT (PREVINT ptr) s in
  (mm_start_brk h <=? pf)
  && (GET_ALLOC (tag_at h pf) =? 0) && negb (t =? 0)
  && ((before <? mm_start_brk h) || negb (GET_ALLOC (tag_at h before) =? 0))
  && ((region_brk h - 1 <=? after) || negb (GET_ALLOC (tag_at h after) =? 0)).
(** * Properties *)

(** ** Machine integers *)

Lemma unsigned_range z : 0 <= Int32.unsigned z < Int32.modulus.
Proof. unfold Int32.unsigned, Int32.modulus. apply Z.mod_pos_bound. lia. Qed.

Lemma unsigned_small z : 0 <= z < Int32.modulus -> Int32.unsigned z = z.
Proof. intros H. unfold Int32.unsigned. apply Z.mod_small. exact H. Qed.

Lemma signed_small z :
  - Int32.half_modulus <= z < Int32.half_modulus -> Int32.signed z = z.
Proof.
  unfold Int32.signed, Int32.modulus, Int32.half_modulus. intros H.
  destruct (Z_lt_dec z 0) as [Hneg|Hpos].
  - replace (z mod 2 ^ 32) with (z + 2 ^ 32).
    + destruct (Z.ltb_spec (z + 2 ^ 32) (2 ^ 31)); lia.
    + apply Z.mod_unique with (q := -1); lia.
  - rewrite Z.mod_small by lia.
    destruct (Z.ltb_spec z (2 ^ 31)); lia.
Qed.

(** Reading a stored [int] back as a pointer gives the bit pattern. *)
Lemma unsigned_signed z : Int32.unsigned (Int32.signed z) = Int32.unsigned z.
Proof.
  unfold Int32.unsigned, Int32.signed, Int32.modulus, Int32.half_modulus.
  destruct (Z.ltb_spec (z mod 2 ^ 32) (2 ^ 31)).
  - apply Z.mod_mod. lia.
  - replace (z mod 2 ^ 32 - 2 ^ 32) with (z mod 2 ^ 32 + (-1) * 2 ^ 32) by lia.
    rewrite Z_mod_plus_full. apply Z.mod_mod. lia.
Qed.

Lemma signed_signed z : Int32.signed (Int32.signed z) = Int32.signed z.
Proof.
  unfold Int32.signed at 1. fold (Int32.unsigned (Int32.signed z)).
  rewrite unsigned_signed. reflexivity.
Qed.

Lemma signed_range z : - Int32.half_modulus <= Int32.signed z < Int32.half_modulus.
Proof.
  unfold Int32.signed.
  pose proof (unsigned_range z) as H. unfold Int32.unsigned in H.
  unfold Int32.modulus, Int32.half_modulus in *.
  destruct (Z.ltb_spec (z mod 2 ^ 32) (2 ^ 31)); lia.
Qed.

(** ** The monad *)

Lemma bind_Ret {A B} (m : M A) (k : A -> M B) h a h' :
  m h = Ret a h' -> bind m k h = k a h'.
Proof. intros E. unfold bind. rewrite E. reflexivity. Qed.

Lemma bind_Fault {A B} (m : M A) (k : A -> M B) h :
  m h = Fault -> bind m k h = Fault.
Proof. intros E. unfold bind. rewrite E. reflexivity. Qed.

(** A call that returned after a bind went through both halves. *)
Lemma bind_inv {A B} (m : M A) (k : A -> M B) h b h'' :
  bind m k h = Ret b h'' ->
  exists a h', m h = Ret a h' /\ k a h' = Ret b h''.
Proof.
  unfold bind. destruct (m h) as [a h'| | |]; try discriminate.
  intros E. exists a, h'. split; [reflexivity | exact E].
Qed.

(** ** Loads and stores *)

Lemma load_inv a h v h' :
  load a h = Ret v h' -> h' = h /\ v = tag_at h a /\ valid_addr h a = true.
Proof.
  unfold load. destruct (valid_addr h a); [|discriminate].
  intros E. injection E as <- <-. repeat split.
Qed.

Lemma load_Ret a h : valid_addr h a = true -> load a h = Ret (tag_at h a) h.
Proof. intros E. unfold load. rewrite E. reflexivity. Qed.

Lemma store_Ret a v h :
  valid_addr h a = true ->
  store a v h = Ret tt (set_mem (insert a (Int32.signed v)) h).
Proof. intros E. unfold store. rewrite E. reflexivity. Qed.

Lemma tag_at_store_eq a v h :
  tag_at (set_mem (insert a (Int32.signed v)) h) a = Int32.signed v.
Proof.
  unfold tag_at, peek, set_mem. cbn [mem].
  rewrite lookup_insert_eq. cbn [default]. apply signed_signed.
Qed.

Lemma tag_at_store_ne a b v h :
  a <> b -> tag_at (set_mem (insert a v) h) b = tag_at h b.
Proof.
  intros Hne. unfold tag_at, peek, set_mem. cbn [mem].
  rewrite lookup_insert_ne by exact Hne. reflexivity.
Qed.

Lemma ret_inv {A} (a b : A) h h' : ret a h = Ret b h' -> a = b /\ h = h'.
Proof. unfold ret. intros E. injection E as <- <-. split; reflexivity. Qed.

Tactic Notation "inv_bind" hyp(H) "as" ident(a) ident(h) ident(E) :=
  apply bind_inv in H; destruct H as (a & h & E & H).

Tactic Notation "inv_bind" hyp(H) :=
  let a := fresh "a" in
  let h := fresh "h" in
  let E := fresh "E" in
  apply bind_inv in H; destruct H as (a & h & E & H).

(** ** Bucket selection *)

Lemma count_loop_log2 fuel :
  forall v c, 0 < v < 2 ^ Z.of_nat fuel ->
              count_loop fuel v c = c + Z.log2 v + 1.
Proof.
  induction fuel as [|f IH]; intros v c Hv.
  - simpl in Hv. lia.
  - cbn [count_loop].
    destruct (Z.eqb_spec v 0) as [->|Hnz]; [lia|].
    rewrite Z.quot_div_nonneg by lia.
    destruct (Z.eq_dec v 1) as [->|Hone].
    + change (1 / 2) with 0. change (Z.log2 1) with 0.
      destruct f; cbn [count_loop]; [lia|].
      change (0 =? 0) with true. cbn iota. lia.
    + assert (Hhalf : 0 < v / 2).
      { apply Z.div_str_pos. lia. }
      assert (Hlt : v / 2 < 2 ^ Z.of_nat f).
      { apply Z.div_lt_upper_bound; [lia|].
        rewrite Nat2Z.inj_succ, Z.pow_succ_r in Hv by lia. lia. }
      rewrite IH by lia.
      assert (Hlog : Z.log2 v = Z.log2 (v / 2) + 1).
      { apply Z.log2_unique.
        - pose proof (Z.log2_nonneg (v / 2)). lia.
        - pose proof (Z.log2_spec (v / 2) Hhalf) as [Hlo Hhi].
          pose proof (Z.log2_nonneg (v / 2)) as Hnn.
          set (l := Z.log2 (v / 2)) in *.
          assert (E3 : 2 ^ Z.succ l = 2 * 2 ^ l)
            by (rewrite Z.pow_succ_r by lia; lia).
          assert (E1 : 2 ^ (l + 1) = 2 * 2 ^ l)
            by (rewrite <- E3; f_equal; lia).
          assert (E2 : 2 ^ Z.succ (l + 1) = 4 * 2 ^ l)
            by (rewrite Z.pow_succ_r by lia; lia).
          rewrite E1, E2. rewrite E3 in Hhi.
          pose proof (Z.div_mod v 2 ltac:(lia)) as Hdm.
          pose proof (Z.mod_pos_bound v 2 ltac:(lia)) as Hm.
          lia. }
      lia.
Qed.

Lemma bucket_index_log2 s :
  0 < s < Int32.half_modulus -> bucket_index s = Z.log2 s - 3.
Proof.
  intros Hs. unfold bucket_index, count_bits.
  rewrite count_loop_log2.
  - lia.
  - unfold Int32.half_modulus in Hs. change (2 ^ Z.of_nat 32) with (2 ^ 32). lia.
Qed.




(** ** Faults of the first accesses *)

Lemma load_outside h a : valid_addr h a = false -> load a h = Fault.
Proof. intros E. unfold load. rewrite E. reflexivity. Qed.

Lemma seg_list_get_outside i h :
  i < 0 \/ LISTLENGTH <= i -> seg_list_get i h = Fault.
Proof.
  intros Hi. unfold seg_list_get.
  destruct (Z.leb_spec 0 i); destruct (Z.ltb_spec i LISTLENGTH);
    cbn [andb]; try reflexivity; lia.
Qed.

(** C10. A request of size 0 has rounded payload 0, its search starts at
    index -4, and the first lookup [seg_list[-4]] is outside the 22 heads:
    with guarded indexing the search has no value to go on, whatever the
    heap, and [mm_malloc] never returns for this request. *)
Theorem C10_malloc_zero_starts_at_index_minus_4 :
  Int32.signed (ALIGN 0) = 0
  /\ bucket_index (Int32.signed (ALIGN 0)) = -4
  /\ (forall h, seg_list_get (bucket_index (Int32.signed (ALIGN 0))) h = Fault)
  /\ (forall fuel newsize h,
         malloc_place (S fuel) newsize (Int32.signed (ALIGN 0)) h = Fault)
  /\ (forall fuel h p h', mm_malloc fuel 0 h <> Ret p h')
  /\ mm_malloc fuel0 0 (heap_after (mm_init fuel0 region0) region0) = Fault.
Proof.
  assert (HA : Int32.signed (ALIGN 0) = 0) by reflexivity.
  assert (HB : bucket_index 0 = -4) by reflexivity.
  assert (HP : forall fuel newsize h, malloc_place (S fuel) newsize 0 h = Fault).
  { intros fuel newsize h. unfold malloc_place.
    apply bind_Fault. cbn [scan_lists].
    change (count_bits 0 - 4) with (-4).
    change (-4 <? LISTLENGTH) with true. cbv iota.
    apply bind_Fault. apply seg_list_get_outside. lia. }
  rewrite HA, HB.
  split; [reflexivity|]. split; [reflexivity|]. split; [|split; [|split]].
  - intros h. apply seg_list_get_outside. lia.
  - exact HP.
  - intros fuel h p h'. destruct fuel as [|f]; [discriminate|].
    cbn [mm_malloc]. rewrite HA.
    unfold bind at 1.
    match goal with |- context [match ?m h with _ => _ end] => destruct (m h) end;
      try discriminate.
    destruct f as [|f]; [discriminate|].
    rewrite HP. discriminate.
  - vm_compute. reflexivity.
Qed.

(** C5. Where the region does not reach down to address -4, [mm_realloc]
    called with a null pointer faults on its first statement, the read of
    the header at [ptr - 4] that initialises [copySize]: the test for null
    comes after that read, so the call does not behave as [mm_malloc]. *)
Theorem C5_realloc_null_reads_header_first (fuel : nat) (h : heap) (n : Z) :
  0 <= region_lo h -> mm_realloc fuel NULL n h = Fault.
Proof.
  intros Hlo. unfold mm_realloc.
  apply bind_Fault. apply load_outside.
  unfold valid_addr, PREVINT, NULL.
  destruct (Z.leb_spec (region_lo h) (0 - 4)); [lia | reflexivity].
Qed.

Lemma C5_witness :
  0 <= region_lo heap_init
  /\ mm_realloc fuel0 NULL 8 heap_init = Fault
  /\ holds_after (mm_malloc fuel0 8 heap_init) (fun p _ => p = 65632).
Proof.
  split; [vm_compute; discriminate|]. split.
  - apply (C5_realloc_null_reads_header_first fuel0 heap_init 8).
    vm_compute. discriminate.
  - vm_compute. reflexivity.
Defined.

(** ** Growing at the tail *)

Lemma geb_false x y : x < y -> (x >=? y) = false.
Proof.
  intros H. destruct (x >=? y) eqn:E; [|reflexivity].
  apply Z.geb_le in E. lia.
Qed.

(** C3 (amended). For a non-null pointer whose block is the last one of the
    heap and a non-zero request whose rounded size is larger than the
    payload (and leaves room for 16 more in an [int]): if the region
    refuses to grow, [mm_realloc] prints "mem_sbrk failed" and calls
    [exit(1)]; it does not return, and nothing but the printed line
    distinguishes the heap from the one it was called with. *)
Theorem C3_realloc_exits_when_growth_fails
        (fuel : nat) (h : heap) (ptr size w : Z) :
  ptr <> NULL ->
  size <> 0 ->
  load (PREVINT ptr) h = Ret w h ->
  GET_SIZE w < Int32.signed (ALIGN size) ->
  Int32.signed (ALIGN size) + 16 < Int32.half_modulus ->
  check_last_usr ptr h = Ret 1 h ->
  mem_sbrk (Int32.signed (Int32.signed (ALIGN size) - GET_SIZE w)) h
  = Ret SBRK_FAILED h ->
  mm_realloc fuel ptr size h = Exit 1 (print SbrkFailed h).
Proof.
  intros Hptr Hsize Hload Hlt Hroom Hlast Hsbrk.
  unfold mm_realloc.
  rewrite (bind_Ret _ _ _ _ _ Hload). cbv beta zeta.
  rewrite (bind_Ret _ _ _ _ _ Hload). cbv beta zeta.
  destruct (Z.eqb_spec ptr NULL) as [E|_]; [contradiction|].
  destruct (Z.eqb_spec size 0) as [E|_]; [contradiction|].
  destruct (Z.eqb_spec (GET_SIZE w) (Int32.signed (ALIGN size))) as [E|_]; [lia|].
  rewrite geb_false.
  2:{ pose proof (signed_range (ALIGN size)).
      rewrite signed_small; lia. }
  assert (Hb : (GET_SIZE w <? Int32.signed (ALIGN size)) = true)
    by (apply Z.ltb_lt; exact Hlt).
  rewrite Hb.
  rewrite (bind_Ret _ _ _ _ _ Hlast).
  change (true && negb (1 =? 0)) with true. cbv iota.
  rewrite (bind_Ret _ _ _ _ _ Hsbrk).
  rewrite Z.eqb_refl. reflexivity.
Qed.

Lemma C3_witness :
  mm_realloc fuel0 65632 256 heap_tight = Exit 1 (print SbrkFailed heap_tight).
Proof.
  apply (C3_realloc_exits_when_growth_fails fuel0 heap_tight 65632 256 129).
  - discriminate.
  - discriminate.
  - vm_compute. reflexivity.
  - vm_compute. reflexivity.
  - vm_compute. reflexivity.
  - vm_compute. reflexivity.
  - vm_compute. reflexivity.
Defined.

(** C3 as stated fails: in a region with room for one block of payload 128,
    after init and a = malloc(128) the block is the last one, growing by 128
    is refused, and realloc(a, 256) does not return null: it exits. *)
Lemma C3_counterexample :
  holds_after (one_block region_tight)
    (fun a h =>
       a <> NULL
       /\ check_last_usr a h = Ret 1 h
       /\ mem_sbrk (256 - 128) h = Ret SBRK_FAILED h
       /\ mm_realloc fuel0 a 256 h = Exit 1 (print SbrkFailed h)
       /\ forall h', mm_realloc fuel0 a 256 h <> Ret NULL h').
Proof.
  assert (E : one_block region_tight = Ret 65632 heap_tight)
    by (vm_compute; reflexivity).
  rewrite E. cbn [holds_after].
  assert (X : mm_realloc fuel0 65632 256 heap_tight
              = Exit 1 (print SbrkFailed heap_tight))
    by (vm_compute; reflexivity).
  split; [discriminate|]. split; [vm_compute; reflexivity|].
  split; [vm_compute; reflexivity|]. split; [exact X|].
  intros h'. rewrite X. discriminate.
Qed.

(** ** The search of mm_malloc *)

(** A search that finds nothing only reads. *)
Lemma scan_bucket_None fuel :
  forall c e h h', scan_bucket fuel c e h = Ret None h' -> h' = h.
Proof.
  induction fuel as [|f IH]; intros c e h h' H; [discriminate|].
  cbn [scan_bucket] in H.
  destruct (e =? NULL).
  - apply ret_inv in H. symmetry. apply H.
  - inv_bind H. apply load_inv in E as (-> & _ & _).
    destruct (_ =? 0).
    + inv_bind H. apply ret_inv in H; destruct H as [H _]. discriminate.
    + destruct (_ >=? 16).
      * inv_bind H. inv_bind H. inv_bind H.
        apply ret_inv in H; destruct H as [H _]. discriminate.
      * inv_bind H. apply load_inv in E as (-> & _ & _).
        apply IH in H. exact H.
Qed.

Lemma scan_bucket_aligned fuel :
  forall n c e h p h',
    chain_aligned n h e = true ->
    scan_bucket fuel c e h = Ret (Some p) h' ->
    p mod 8 = 0.
Proof.
  induction fuel as [|f IH]; intros n c e h p h' Hal H; [discriminate|].
  cbn [scan_bucket] in H.
  destruct (Z.eqb_spec e NULL) as [He|He].
  - apply ret_inv in H; destruct H as [H _]. discriminate.
  - destruct n as [|n]; [discriminate|].
    cbn [chain_aligned] in Hal.
    destruct (Z.eqb_spec e NULL) as [|_]; [contradiction|].
    cbn [orb] in Hal. apply andb_prop in Hal as [Hmod Hnext].
    apply Z.eqb_eq in Hmod.
    assert (Hp : PREV3INT e mod 8 = 0).
    { unfold PREV3INT. Z.div_mod_to_equations. lia. }
    inv_bind H. apply load_inv in E as (-> & _ & _).
    destruct (_ =? 0).
    + inv_bind H. apply ret_inv in H; destruct H as [H _].
      injection H as <-. exact Hp.
    + destruct (_ >=? 16).
      * inv_bind H. inv_bind H. inv_bind H.
        apply ret_inv in H; destruct H as [H _]. injection H as <-. exact Hp.
      * inv_bind H. rewrite E in Hnext.
        apply load_inv in E as (-> & _ & _).
        exact (IH _ _ _ _ _ _ Hnext H).
Qed.

Lemma seg_list_get_inv i h v h' :
  seg_list_get i h = Ret v h' ->
  h' = h /\ v = head_cell h i /\ 0 <= i < LISTLENGTH.
Proof.
  unfold seg_list_get.
  destruct (Z.leb_spec 0 i) as [Hi0|Hi0];
    destruct (Z.ltb_spec i LISTLENGTH) as [Hi1|Hi1];
    cbn [andb]; try discriminate.
  intros H. inv_bind H as base h1 E. inv_bind H as w h2 E0.
  unfold gets in E. injection E as <- <-.
  apply load_inv in E0 as (-> & -> & _).
  apply ret_inv in H as [<- <-].
  unfold head_cell. repeat split; assumption.
Qed.

Lemma lists_aligned_head n h i :
  lists_aligned n h = true -> 0 <= i < LISTLENGTH ->
  chain_aligned n h (head_cell h i) = true.
Proof.
  unfold lists_aligned, LISTLENGTH. intros Hall Hi.
  rewrite forallb_forall in Hall.
  specialize (Hall (Z.to_nat i)).
  rewrite Z2Nat.id in Hall by lia.
  apply Hall. apply in_seq. lia.
Qed.

Lemma scan_lists_None fuel :
  forall c i h h', scan_lists fuel c i h = Ret None h' -> h' = h.
Proof.
  induction fuel as [|f IH]; intros c i h h' H; [discriminate|].
  cbn [scan_lists] in H.
  destruct (i <? LISTLENGTH).
  - inv_bind H as v h1 E. apply seg_list_get_inv in E as (-> & _ & _).
    inv_bind H as r h2 E. destruct r as [p|].
    + apply ret_inv in H; destruct H as [H _]. discriminate.
    + apply scan_bucket_None in E as ->. apply IH in H. exact H.
  - apply ret_inv in H. symmetry. apply H.
Qed.

Lemma scan_lists_aligned fuel :
  forall n c i h p h',
    lists_aligned n h = true ->
    scan_lists fuel c i h = Ret (Some p) h' ->
    p mod 8 = 0.
Proof.
  induction fuel as [|f IH]; intros n c i h p h' Hal H; [discriminate|].
  cbn [scan_lists] in H.
  destruct (i <? LISTLENGTH).
  - inv_bind H as v h1 E. apply seg_list_get_inv in E as (-> & -> & Hi).
    inv_bind H as r h2 E. destruct r as [q|].
    + apply ret_inv in H; destruct H as [H _]. injection H as <-.
      eapply scan_bucket_aligned; [|exact E].
      apply lists_aligned_head; eassumption.
    + apply scan_bucket_None in E as ->.
      exact (IH _ _ _ _ _ _ Hal H).
  - apply ret_inv in H; destruct H as [H _]. discriminate.
Qed.

Lemma mem_sbrk_inv incr h p h' :
  mem_sbrk incr h = Ret p h' -> p = SBRK_FAILED \/ p = region_brk h.
Proof.
  unfold mem_sbrk. destruct (_ || _); intros E; injection E as <- <-; auto.
Qed.

Lemma malloc_place_aligned fuel n newsize contentsize h p h' :
  region_brk h mod 8 = 0 ->
  lists_aligned n h = true ->
  malloc_place fuel newsize contentsize h = Ret p h' ->
  p <> NULL ->
  p mod 8 = 0.
Proof.
  intros Hbrk Hal H Hp. unfold malloc_place in H.
  inv_bind H as r h1 E. inv_bind H as p0 h2 E2.
  assert (Hp0 : p0 = SBRK_FAILED \/ p0 mod 8 = 0).
  { destruct r as [q|].
    - apply ret_inv in E2 as [<- _]. right.
      exact (scan_lists_aligned _ _ _ _ _ _ _ Hal E).
    - apply scan_lists_None in E as ->.
      apply mem_sbrk_inv in E2 as [->| ->]; auto. }
  destruct (Z.eqb_spec p0 SBRK_FAILED) as [Hf|Hf].
  - apply ret_inv in H as [<- _]. contradiction.
  - destruct Hp0 as [|Hp0]; [contradiction|].
    inv_bind H. inv_bind H. apply ret_inv in H as [<- _].
    change SIZE_OF_SIZE_T with 8. Z.div_mod_to_equations. lia.
Qed.

(** The counter of the primer is not part of what the lists are made of. *)
Lemma chain_aligned_m_count n :
  forall v h e, chain_aligned n (set_m_count v h) e = chain_aligned n h e.
Proof.
  induction n as [|n IH]; intros v h e; [reflexivity|].
  cbn [chain_aligned]. unfold load.
  change (valid_addr (set_m_count v h) e) with (valid_addr h e).
  change (peek (set_m_count v h) e) with (peek h e).
  destruct (valid_addr h e); rewrite ?IH; reflexivity.
Qed.

Lemma lists_aligned_m_count n v h :
  lists_aligned n (set_m_count v h) = lists_aligned n h.
Proof.
  unfold lists_aligned.
  induction (seq 0 22) as [|j l IH]; [reflexivity|].
  cbn [forallb]. rewrite IH. f_equal.
  change (head_cell (set_m_count v h) (Z.of_nat j)) with (head_cell h (Z.of_nat j)).
  apply chain_aligned_m_count.
Qed.




(** ** Insertion into the index *)

Lemma valid_addr_inv h a :
  valid_addr h a = true ->
  region_lo h <= a /\ a + 4 <= region_brk h /\ a mod 4 = 0.
Proof.
  unfold valid_addr. intros H.
  apply andb_prop in H as [H H3]. apply andb_prop in H as [H1 H2].
  apply Z.leb_le in H1. apply Z.leb_le in H2. apply Z.eqb_eq in H3.
  repeat split; assumption.
Qed.

Lemma seg_list_get_Ret i h :
  0 <= i < LISTLENGTH ->
  valid_addr h (seg_list h + SIZE_OF_POINTER * i) = true ->
  seg_list_get i h = Ret (head_cell h i) h.
Proof.
  intros [Hlo Hhi] Hv. unfold seg_list_get.
  apply Z.leb_le in Hlo. apply Z.ltb_lt in Hhi. rewrite Hlo, Hhi. cbn [andb].
  unfold bind, gets. rewrite (load_Ret _ _ Hv). reflexivity.
Qed.

Lemma seg_list_set_Ret i v h :
  0 <= i < LISTLENGTH ->
  valid_addr h (seg_list h + SIZE_OF_POINTER * i) = true ->
  seg_list_set i v h
  = Ret tt (set_mem (insert (seg_list h + SIZE_OF_POINTER * i) (Int32.signed v)) h).
Proof.
  intros [Hlo Hhi] Hv. unfold seg_list_set.
  apply Z.leb_le in Hlo. apply Z.ltb_lt in Hhi. rewrite Hlo, Hhi. cbn [andb].
  unfold bind, gets. rewrite (store_Ret _ _ _ Hv). reflexivity.
Qed.

Lemma ptr_of_int_signed z : 0 <= z < Int32.modulus -> ptr_of_int (Int32.signed z) = z.
Proof.
  intros Hz. unfold ptr_of_int. rewrite unsigned_signed. apply unsigned_small. exact Hz.
Qed.

Lemma signed_eq_0 z : 0 <= z < Int32.modulus -> Int32.signed z = 0 -> z = 0.
Proof.
  intros Hz E. rewrite <- (ptr_of_int_signed z Hz). rewrite E. reflexivity.
Qed.

Lemma head_cell_range h j : 0 <= head_cell h j < Int32.modulus.
Proof. unfold head_cell, ptr_of_int. apply unsigned_range. Qed.

(** The heap [add_to_list_usr ptr size] ends in when [can_link] holds. *)
Lemma add_to_list_usr_Ret h ptr size :
  size <> 0 ->
  can_link h ptr size = true ->
  let index := bucket_index size in
  let cell := seg_list h + SIZE_OF_POINTER * index in
  let head := head_cell h index in
  let h2 := set_mem (insert ptr (Int32.signed cell))
              (set_mem (insert (NEXTINT ptr) (Int32.signed head)) h) in
  let h3 := if head =? NULL then h2
            else set_mem (insert (PREVINT head) (Int32.signed ptr)) h2 in
  add_to_list_usr ptr size h
  = Ret tt (set_mem (insert cell (Int32.signed (NEXTINT ptr))) h3).
Proof.
  intros Hsize Hcan index cell head h2 h3.
  unfold can_link in Hcan. fold index in Hcan. fold cell in Hcan. fold head in Hcan.
  apply andb_prop in Hcan as [Hcan Hhead].
  apply andb_prop in Hcan as [Hcan Habove].
  apply andb_prop in Hcan as [Hcan Hnext].
  apply andb_prop in Hcan as [Hcan Hptr].
  apply andb_prop in Hcan as [Hcan Hcell].
  apply andb_prop in Hcan as [Hi0 Hi1].
  apply Z.leb_le in Hi0. apply Z.ltb_lt in Hi1.
  unfold add_to_list_usr. fold index.
  destruct (Z.eqb_spec size 0) as [|_]; [contradiction|].
  rewrite (bind_Ret _ _ _ _ _ (seg_list_get_Ret index h (conj Hi0 Hi1) Hcell)).
  fold head.
  rewrite (bind_Ret _ _ _ _ _ (store_Ret (NEXTINT ptr) head h Hnext)).
  set (h1 := set_mem (insert (NEXTINT ptr) (Int32.signed head)) h) in *.
  assert (Eaddr : seg_list_addr index h1 = Ret cell h1) by reflexivity.
  rewrite (bind_Ret _ _ _ _ _ Eaddr).
  rewrite (bind_Ret _ _ _ _ _ (store_Ret ptr cell h1 Hptr)).
  fold h2.
  rewrite (bind_Ret _ _ _ _ _ (load_Ret (NEXTINT ptr) h2 Hnext)).
  assert (Etag : tag_at h2 (NEXTINT ptr) = Int32.signed head).
  { unfold h2. rewrite tag_at_store_ne by (unfold NEXTINT; lia).
    unfold h1. apply tag_at_store_eq. }
  rewrite Etag.
  pose proof (head_cell_range h index) as Hrange. fold head in Hrange.
  assert (Eset : seg_list_set index (NEXTINT ptr) h3
                 = Ret tt (set_mem (insert cell (Int32.signed (NEXTINT ptr))) h3)).
  { assert (Hv : valid_addr h3 (seg_list h3 + SIZE_OF_POINTER * index) = true).
    { unfold h3. destruct (head =? NULL); exact Hcell. }
    rewrite (seg_list_set_Ret index (NEXTINT ptr) h3 (conj Hi0 Hi1) Hv).
    unfold h3. destruct (head =? NULL); reflexivity. }
  unfold h3 in *. destruct (Z.eqb_spec head NULL) as [E0|Hnz].
  - rewrite E0. change (negb (Int32.signed NULL =? NULL)) with false. cbv iota.
    rewrite (bind_Ret _ _ _ _ _ (eq_refl : ret tt h2 = Ret tt h2)).
    exact Eset.
  - destruct (Z.eqb_spec (Int32.signed head) NULL) as [E0|_].
    + apply signed_eq_0 in E0; [contradiction | exact Hrange].
    + cbn [negb]. rewrite (ptr_of_int_signed head Hrange).
      cbn [orb] in Hhead. apply andb_prop in Hhead as [Hprev _].
      rewrite (bind_Ret _ _ _ _ _ (store_Ret (PREVINT head) ptr h2 Hprev)).
      exact Eset.
Qed.




(** ** Runs that end in an inconsistent heap *)

(** C1. After init; a = malloc(128); b = malloc(128); free(b);
    realloc(a, 32) the tail split off from [a] is a free block of payload 80
    whose successor in address order is the free block [b]: two adjacent
    free blocks.  The checker of mm.c itself rejects this heap with
    "not coalesced". *)
Theorem C1_shrink_leaves_two_adjacent_free_blocks :
  holds_after (shrink_before_free_block region0)
    (fun rb h =>
       let r := fst rb in
       let b := snd rb in
       let tail := next_header h (header_of r) in
       tag_at h (header_of r) = SET_ALLOC_VAL 32
       /\ is_free h tail = true
       /\ GET_SIZE (tag_at h tail) = 80
       /\ next_header h tail = header_of b
       /\ is_free h (header_of b) = true
       /\ mm_check fuel0 h
          = Ret 0 (print Invalid (print (NotCoalesced b) h))).
Proof. vm_compute. repeat split; reflexivity. Qed.

(** C2. After init; a = malloc(48); b = malloc(48); free(a) the backward
    walk of realloc(b, 112) reaches a total of exactly 112, so the coalesce
    attempt succeeds; the call returns [a], the header of the returned block
    still holds the free tag 48 of [a] and its footer the old tag 49 of [b]:
    neither is the allocated tag of payload 112. *)
Theorem C2_exact_fit_leaves_old_tags :
  holds_after (free_block_before_b region0)
    (fun ab h =>
       let a := fst ab in
       let b := snd ab in
       holds_after
         (realloc_backward fuel0 (PREV3INT b) (GET_SIZE (tag_at h (header_of b))) 112 h)
         (fun w _ => snd (fst w) = 112 /\ snd w = true)
       /\ holds_after (mm_realloc fuel0 b 112 h)
            (fun r h' =>
               r = a
               /\ tag_at h' (header_of r) = 48
               /\ tag_at h' (header_of r) <> SET_ALLOC_VAL 112
               /\ tag_at h' (SECONDINFOINT (PREVINT (header_of r)) 112) = 49
               /\ tag_at h' (SECONDINFOINT (PREVINT (header_of r)) 112)
                  <> SET_ALLOC_VAL 112)).
Proof. vm_compute. repeat split; congruence. Qed.

(** The forward removal loop of [mm_realloc] runs its body once: the cursor
    is moved past [last_ptr], whatever lies between the first free successor
    and the end of the walk. *)
Lemma realloc_remove_forward_once fuel itr_ptr last_ptr h h1 w :
  itr_ptr < last_ptr ->
  remove_entry (NEXT2INT itr_ptr) h = Ret tt h1 ->
  load itr_ptr h1 = Ret w h1 ->
  0 <= GET_SIZE w + 16 ->
  realloc_remove_forward (S (S fuel)) itr_ptr last_ptr h = Ret tt h1.
Proof.
  intros Hlt Hrm Hld Hsz. cbn [realloc_remove_forward].
  apply Z.ltb_lt in Hlt. rewrite Hlt.
  rewrite (bind_Ret _ _ _ _ _ Hrm). rewrite (bind_Ret _ _ _ _ _ Hld).
  destruct (Z.ltb_spec (FORWARDINT last_ptr (GET_SIZE w)) last_ptr) as [Hback|_].
  - unfold FORWARDINT in Hback. lia.
  - reflexivity.
Qed.

(** C4. After init; a, b, c, d = malloc(128); free(c); realloc(b, 32) block
    [b] is followed by two free blocks; the forward walk of realloc(b, 200)
    consumes both (total 272).  The removal loop stops after the first one:
    in the heap the call returns, the entry of [c] is still the head of its
    bucket although [c] lies inside the block handed to the caller. *)
Theorem C4_second_forward_neighbour_stays_linked :
  holds_after (two_free_blocks_after_b region0)
    (fun bc h =>
       let b := fst bc in
       let c := snd bc in
       let tail := next_header h (header_of b) in
       is_free h tail = true
       /\ next_header h tail = header_of c
       /\ is_free h (header_of c) = true
       /\ holds_after
            (realloc_forward fuel0 tail 32 200 (set_mem_max_addr (region_brk h - 1) h))
            (fun w _ => snd (fst w) = 272 /\ snd w = true)
       /\ holds_after (mm_realloc fuel0 b 200 h)
            (fun r h' =>
               r = b
               /\ tag_at h' (header_of r) = SET_ALLOC_VAL 200
               /\ header_of r < header_of c < footer_of h' (header_of r)
               /\ head_cell h' (bucket_index 128) = NEXTINT c
               /\ check_if_in_list_usr fuel0 c 128 h' = Ret 1 h')).
Proof. vm_compute. repeat split; congruence. Qed.

(** C9. After the calls of C4 and one more malloc(128), which takes the
    stale entry, the free block that follows [b] has header tag 56 and
    footer tag 129.  [mm_check] prints "different header/footer" for it and
    returns 1. *)
Theorem C9_check_accepts_header_footer_mismatch :
  holds_after (reuse_of_stale_entry region0)
    (fun re h =>
       let r := fst re in
       let blk := next_header h (header_of r) in
       tag_at h blk = 56
       /\ tag_at h (footer_of h blk) = 129
       /\ tag_at h blk <> tag_at h (footer_of h blk)
       /\ mm_check fuel0 h
          = Ret 1 (print (DifferentHeaderFooter (NEXTINT blk)) h)).
Proof. vm_compute. repeat split; congruence. Qed.

(** * Further properties of the code *)

(** ** Rounding and tags *)

Lemma unsigned_lnot_7 : Int32.unsigned (Z.lnot 7) = Int32.modulus - 8.
Proof. reflexivity. Qed.

(** Masking a 32-bit pattern with [~0x7] clears its three low bits. *)
Lemma land_mask_8 x :
  0 <= x < Int32.modulus -> Z.land x (Int32.modulus - 8) = 8 * (x / 8).
Proof.
  intros Hx.
  assert (E : Int32.modulus - 8 = Z.land (Z.lnot (Z.ones 3)) (Z.ones 32))
    by reflexivity.
  rewrite E, Z.land_assoc.
  rewrite Z.land_ones by lia.
  change (Z.land x (Z.lnot (Z.ones 3))) with (Z.ldiff x (Z.ones 3)).
  rewrite Z.ldiff_ones_r by lia.
  rewrite Z.shiftr_div_pow2, Z.shiftl_mul_pow2 by lia.
  change (2 ^ 3) with 8. change (2 ^ 32) with Int32.modulus.
  rewrite Z.mod_small; [lia|].
  pose proof (Z.div_mod x 8 ltac:(lia)).
  pose proof (Z.mod_pos_bound x 8 ltac:(lia)).
  assert (0 <= x / 8) by (apply Z.div_pos; lia).
  lia.
Qed.

(** X1. [ALIGN] rounds a size up to the next multiple of 8; a size within
    7 of 2^32 wraps around to 0. *)
Theorem X1_ALIGN_rounds_up (n : Z) :
  0 <= n < Int32.modulus ->
  ALIGN n mod 8 = 0
  /\ (n <= Int32.modulus - 8 -> n <= ALIGN n < n + 8)
  /\ (Int32.modulus - 8 < n -> ALIGN n = 0).
Proof.
  intros Hn. unfold ALIGN, ALIGNMENT. rewrite unsigned_lnot_7.
  pose proof (unsigned_range (n + (8 - 1))) as Hu.
  rewrite (land_mask_8 _ Hu).
  split; [|split].
  - rewrite Z.mul_comm. apply Z.mod_mul. lia.
  - intros Hle. rewrite unsigned_small by (unfold Int32.modulus in *; lia).
    pose proof (Z.div_mod (n + (8 - 1)) 8 ltac:(lia)).
    pose proof (Z.mod_pos_bound (n + (8 - 1)) 8 ltac:(lia)).
    lia.
  - intros Hgt. unfold Int32.unsigned.
    replace (n + (8 - 1)) with ((n + 7 - Int32.modulus) + 1 * Int32.modulus) by lia.
    rewrite Z_mod_plus_full.
    rewrite Z.mod_small by (unfold Int32.modulus in *; lia).
    rewrite Z.div_small by (unfold Int32.modulus in *; lia). reflexivity.
Qed.

Lemma X1_witness :
  ALIGN 13 mod 8 = 0
  /\ (13 <= Int32.modulus - 8 -> 13 <= ALIGN 13 < 13 + 8)
  /\ (Int32.modulus - 8 < 13 -> ALIGN 13 = 0).
Proof.
  apply (X1_ALIGN_rounds_up 13). unfold Int32.modulus. lia.
Defined.

Lemma shift_clears_low_bit w : Z.shiftl (Z.shiftr w 1) 1 = Z.land w (-2).
Proof.
  rewrite <- Z.ldiff_ones_r by lia. reflexivity.
Qed.

Lemma land_minus_2 w : Z.land w (-2) = 2 * (w / 2).
Proof.
  rewrite <- shift_clears_low_bit.
  rewrite Z.shiftr_div_pow2, Z.shiftl_mul_pow2 by lia.
  change (2 ^ 1) with 2. lia.
Qed.

Lemma land_1 w : Z.land w 1 = w mod 2.
Proof. change 1 with (Z.ones 1) at 1. rewrite Z.land_ones by lia. reflexivity. Qed.

Lemma lor_1_even s : s mod 2 = 0 -> Z.lor s 1 = s + 1.
Proof.
  intros He.
  assert (Hd : Z.land s 1 = 0) by (rewrite land_1; exact He).
  rewrite <- Z.add_lor_land. rewrite Hd. lia.
Qed.

(** X2. The tag macros: [SET_FREE_VAL] clears the alloc bit of any tag and
    keeps its size; for an even size, [SET_ALLOC_VAL] sets the bit and
    [GET_SIZE_WITH_POS] gives the size back. *)
Theorem X2_tags_round_trip (w size : Z) :
  - Int32.half_modulus <= w < Int32.half_modulus ->
  size mod 2 = 0 ->
  SET_FREE_VAL w = GET_SIZE w
  /\ GET_ALLOC (SET_FREE_VAL w) = 0
  /\ GET_SIZE (SET_FREE_VAL w) = GET_SIZE w
  /\ GET_ALLOC (SET_ALLOC_VAL size) = 1
  /\ GET_SIZE (SET_ALLOC_VAL size) = size
  /\ SET_FREE_VAL (SET_ALLOC_VAL w) = GET_SIZE w.
Proof.
  intros Hw Hs.
  assert (Hfree : SET_FREE_VAL w = GET_SIZE w).
  { unfold SET_FREE_VAL, GET_SIZE. rewrite shift_clears_low_bit.
    apply signed_small. rewrite land_minus_2.
    unfold Int32.half_modulus in *.
    pose proof (Z.div_mod w 2 ltac:(lia)).
    pose proof (Z.mod_pos_bound w 2 ltac:(lia)). lia. }
  assert (Hsz : forall v, GET_SIZE (GET_SIZE v) = GET_SIZE v).
  { intros v. unfold GET_SIZE. rewrite <- Z.land_assoc. reflexivity. }
  assert (Hal : forall v, GET_ALLOC (GET_SIZE v) = 0).
  { intros v. unfold GET_ALLOC, GET_SIZE. rewrite <- Z.land_assoc. apply Z.land_0_r. }
  split; [exact Hfree|]. rewrite Hfree.
  split; [apply Hal|]. split; [apply Hsz|].
  unfold SET_ALLOC_VAL. rewrite (lor_1_even size Hs).
  split; [|split].
  - unfold GET_ALLOC. rewrite land_1.
    rewrite Z.add_mod, Hs by lia. reflexivity.
  - unfold GET_SIZE. rewrite land_minus_2.
    pose proof (Z.div_mod size 2 ltac:(lia)).
    assert ((size + 1) / 2 = size / 2).
    { symmetry. apply Z.div_unique with (r := 1); lia. }
    lia.
  - unfold SET_FREE_VAL, GET_SIZE. rewrite shift_clears_low_bit.
    rewrite Z.land_lor_distr_l. change (Z.land 1 (-2)) with 0. rewrite Z.lor_0_r.
    apply signed_small. rewrite land_minus_2.
    unfold Int32.half_modulus in *.
    pose proof (Z.div_mod w 2 ltac:(lia)).
    pose proof (Z.mod_pos_bound w 2 ltac:(lia)). lia.
Qed.

Lemma X2_witness :
  SET_FREE_VAL 49 = GET_SIZE 49
  /\ GET_ALLOC (SET_FREE_VAL 49) = 0
  /\ GET_SIZE (SET_FREE_VAL 49) = GET_SIZE 49
  /\ GET_ALLOC (SET_ALLOC_VAL 48) = 1
  /\ GET_SIZE (SET_ALLOC_VAL 48) = 48
  /\ SET_FREE_VAL (SET_ALLOC_VAL 49) = GET_SIZE 49.
Proof.
  apply (X2_tags_round_trip 49 48).
  - unfold Int32.half_modulus. lia.
  - reflexivity.
Defined.

(** ** Size classes *)

(** X3. The size class of a bucket: a size s that fits a positive [int] has
    2^(index + 3) <= s < 2^(index + 4), and the index never decreases when
    the size grows, so the search of [mm_malloc], which starts at the index
    of the request, passes over every bucket that can hold a block at
    least as large as the request. *)
Theorem X3_bucket_index_size_class (s t : Z) :
  0 < s <= t ->
  t < Int32.half_modulus ->
  2 ^ (bucket_index s + 3) <= s < 2 ^ (bucket_index s + 4)
  /\ bucket_index s <= bucket_index t.
Proof.
  intros Hs Ht.
  rewrite (bucket_index_log2 s) by lia.
  rewrite (bucket_index_log2 t) by lia.
  split.
  - replace (Z.log2 s - 3 + 3) with (Z.log2 s) by lia.
    replace (Z.log2 s - 3 + 4) with (Z.succ (Z.log2 s)) by lia.
    apply Z.log2_spec. lia.
  - pose proof (Z.log2_le_mono s t ltac:(lia)). lia.
Qed.

Lemma X3_witness :
  2 ^ (bucket_index 48 + 3) <= 48 < 2 ^ (bucket_index 48 + 4)
  /\ bucket_index 48 <= bucket_index 368.
Proof.
  apply (X3_bucket_index_size_class 48 368).
  - lia.
  - unfold Int32.half_modulus. lia.
Defined.

(** ** The index zone *)

Lemma index_ready_inv h :
  index_ready h = true ->
  0 < region_lo h /\ region_lo h mod 4 = 0
  /\ seg_list h = region_lo h
  /\ mm_start_brk h = seg_list h + SIZE_OF_POINTER * LISTLENGTH
  /\ mm_start_brk h <= region_brk h
  /\ region_brk h mod 4 = 0
  /\ region_brk h < Int32.half_modulus.
Proof.
  unfold index_ready. intros H.
  repeat (apply andb_prop in H; destruct H as [H ?]).
  repeat match goal with
         | X : (_ <? _) = true |- _ => apply Z.ltb_lt in X
         | X : (_ <=? _) = true |- _ => apply Z.leb_le in X
         | X : (_ =? _) = true |- _ => apply Z.eqb_eq in X
         end.
  repeat split; assumption.
Qed.

Lemma cell_valid h j :
  index_ready h = true -> 0 <= j < LISTLENGTH ->
  valid_addr h (seg_list h + SIZE_OF_POINTER * j) = true.
Proof.
  intros Hr Hj. apply index_ready_inv in Hr as (H0 & H4 & Hs & Hm & Hb & _).
  unfold valid_addr, SIZE_OF_POINTER, sizeof_pointer, LISTLENGTH in *.
  rewrite Hs in *.
  apply andb_true_intro; split; [apply andb_true_intro; split|].
  - apply Z.leb_le. lia.
  - apply Z.leb_le. lia.
  - apply Z.eqb_eq. rewrite Z.add_mod, H4 by lia.
    rewrite Z.mul_comm, Z.mod_mul by lia. reflexivity.
Qed.

Lemma all_buckets_empty_inv h j :
  all_buckets_empty h = true -> 0 <= j < LISTLENGTH -> head_cell h j = NULL.
Proof.
  unfold all_buckets_empty, LISTLENGTH. intros Hall Hj.
  rewrite forallb_forall in Hall.
  specialize (Hall (Z.to_nat j)). rewrite Z2Nat.id in Hall by lia.
  apply Z.eqb_eq. apply Hall. apply in_seq. lia.
Qed.

Lemma all_buckets_empty_intro h :
  (forall j, 0 <= j < LISTLENGTH -> head_cell h j = NULL) ->
  all_buckets_empty h = true.
Proof.
  intros Hall. unfold all_buckets_empty. apply forallb_forall.
  intros n Hn. apply in_seq in Hn. apply Z.eqb_eq. apply Hall.
  unfold LISTLENGTH. lia.
Qed.

(** ** mm_init *)

Lemma init_lists_run k :
  forall i fuel h,
    0 <= i -> i + Z.of_nat k = LISTLENGTH -> (k < fuel)%nat ->
    (forall j, i <= j < LISTLENGTH ->
               valid_addr h (seg_list h + SIZE_OF_POINTER * j) = true) ->
    exists m',
      init_lists fuel i h = Ret tt (set_mem (fun _ => m') h)
      /\ (forall j, i <= j < LISTLENGTH ->
                    m' !! (seg_list h + SIZE_OF_POINTER * j) = Some 0)
      /\ (forall a, (forall j, i <= j < LISTLENGTH ->
                               a <> seg_list h + SIZE_OF_POINTER * j) ->
                    m' !! a = mem h !! a).
Proof.
  induction k as [|k IH]; intros i fuel h Hi Hk Hf Hv.
  - destruct fuel as [|f]; [lia|]. cbn [init_lists].
    destruct (Z.ltb_spec i LISTLENGTH) as [Hlt|_]; [lia|].
    exists (mem h). split; [destruct h; reflexivity|].
    split; [intros j Hj; lia | reflexivity].
  - destruct fuel as [|f]; [lia|]. cbn [init_lists].
    destruct (Z.ltb_spec i LISTLENGTH) as [_|Hge]; [|lia].
    assert (Hi' : 0 <= i < LISTLENGTH) by lia.
    rewrite (bind_Ret _ _ _ _ _ (seg_list_set_Ret i NULL h Hi' (Hv i ltac:(lia)))).
    set (h1 := set_mem (insert (seg_list h + SIZE_OF_POINTER * i) (Int32.signed NULL)) h).
    destruct (IH (i + 1) f h1) as (m' & Erun & Hzero & Hframe).
    + lia.
    + lia.
    + lia.
    + intros j Hj. exact (Hv j ltac:(lia)).
    + exists m'. split; [exact Erun|]. split.
      * intros j Hj. destruct (Z.eq_dec j i) as [->|Hne].
        -- rewrite Hframe.
           ++ unfold h1, set_mem. cbn [mem]. apply lookup_insert_eq.
           ++ intros j' Hj'. change (seg_list h1) with (seg_list h).
              unfold SIZE_OF_POINTER, sizeof_pointer. lia.
        -- apply Hzero. lia.
      * intros a Ha. rewrite Hframe.
        -- unfold h1, set_mem. cbn [mem]. apply lookup_insert_ne.
           apply not_eq_sym. apply Ha. lia.
        -- intros j Hj. apply Ha. lia.
Qed.

(** X4. Called on a region from which nothing has been handed out, whose
    low bound is a positive multiple of 4 and which has room for 88 bytes,
    [mm_init] returns 0: the break moves up by 88, the user zone is empty
    and starts at the break, every head of the index is null, the counter
    of the primer is 0 and nothing is printed. *)
Theorem X4_mm_init_sets_up_the_index (fuel : nat) (h : heap) :
  (LISTLENGTH < Z.of_nat fuel) ->
  0 < region_lo h ->
  region_lo h mod 4 = 0 ->
  region_brk h = region_lo h ->
  region_lo h + SIZE_OF_POINTER * LISTLENGTH <= region_max h ->
  region_lo h + SIZE_OF_POINTER * LISTLENGTH < Int32.half_modulus ->
  exists h',
    mm_init fuel h = Ret 0 h'
    /\ index_ready h' = true
    /\ all_buckets_empty h' = true
    /\ region_brk h' = region_lo h + SIZE_OF_POINTER * LISTLENGTH
    /\ mm_start_brk h' = region_brk h'
    /\ m_count h' = 0
    /\ stdout h' = stdout h.
Proof.
  intros Hfuel Hpos Hal Hbrk Hroom Hsmall.
  unfold mm_init.
  set (h3 := set_seg_list (mem_start_brk (set_mem_start_brk (region_lo h) (set_m_count 0 h)))
               (set_mem_start_brk (region_lo h) (set_m_count 0 h))).
  set (h4 := set_region_brk (region_brk h + SIZE_OF_POINTER * LISTLENGTH) h3).
  assert (Hsbrk : mem_sbrk (SIZE_OF_POINTER * LISTLENGTH) h3 = Ret (region_brk h) h4).
  { unfold mem_sbrk. change (region_max h3) with (region_max h).
    change (region_brk h3) with (region_brk h).
    destruct (Z.ltb_spec (region_max h) (region_brk h + SIZE_OF_POINTER * LISTLENGTH));
      [lia | reflexivity]. }
  assert (Hv : forall j, 0 <= j < LISTLENGTH ->
                         valid_addr h4 (seg_list h4 + SIZE_OF_POINTER * j) = true).
  { intros j Hj. unfold valid_addr.
    change (seg_list h4) with (region_lo h). change (region_lo h4) with (region_lo h).
    change (region_brk h4) with (region_brk h + SIZE_OF_POINTER * LISTLENGTH).
    unfold SIZE_OF_POINTER, sizeof_pointer, LISTLENGTH in *.
    apply andb_true_intro; split; [apply andb_true_intro; split|].
    - apply Z.leb_le. lia.
    - apply Z.leb_le. lia.
    - apply Z.eqb_eq. rewrite Z.add_mod, Hal by lia.
      rewrite Z.mul_comm, Z.mod_mul by lia. reflexivity. }
  destruct (init_lists_run 22 0 fuel h4) as (m' & Erun & Hzero & _).
  - lia.
  - reflexivity.
  - unfold LISTLENGTH in Hfuel. lia.
  - exact Hv.
  - exists (set_mm_start_brk (region_brk h4 - 1 + 1) (set_mem (fun _ => m') h4)).
    split.
    + unfold bind at 1. unfold modify at 1.
      unfold bind at 1. unfold mem_heap_lo, gets at 1.
      unfold bind at 1. unfold modify at 1.
      unfold bind at 1. unfold modify at 1.
      fold h3. rewrite (bind_Ret _ _ _ _ _ Hsbrk).
      destruct (Z.eqb_spec (region_brk h) SBRK_FAILED) as [E|_].
      { rewrite Hbrk in E. rewrite E in Hal. discriminate. }
      rewrite (bind_Ret _ _ _ _ _ Erun). reflexivity.
    + change (region_brk h4) with (region_brk h + SIZE_OF_POINTER * LISTLENGTH).
      rewrite Hbrk.
      replace (region_lo h + SIZE_OF_POINTER * LISTLENGTH - 1 + 1)
        with (region_lo h + SIZE_OF_POINTER * LISTLENGTH) by lia.
      split.
      { unfold index_ready. cbn.
        rewrite Hbrk.
        repeat (apply andb_true_intro; split);
          try (apply Z.ltb_lt); try (apply Z.leb_le); try (apply Z.eqb_eq);
          unfold SIZE_OF_POINTER, sizeof_pointer, LISTLENGTH in *; try lia.
        rewrite Z.add_mod, Hal by lia. reflexivity. }
      split.
      { apply all_buckets_empty_intro. intros j Hj.
        unfold head_cell, tag_at, peek. cbn [mem set_mm_start_brk set_mem seg_list].
        rewrite (Hzero j Hj). reflexivity. }
      repeat split; cbn; rewrite ?Hbrk; reflexivity.
Qed.

Lemma X4_witness :
  exists h',
    mm_init fuel0 region0 = Ret 0 h'
    /\ index_ready h' = true
    /\ all_buckets_empty h' = true
    /\ region_brk h' = region_lo region0 + SIZE_OF_POINTER * LISTLENGTH
    /\ mm_start_brk h' = region_brk h'
    /\ m_count h' = 0
    /\ stdout h' = stdout region0.
Proof.
  apply (X4_mm_init_sets_up_the_index fuel0 region0);
    vm_compute; try reflexivity; discriminate.
Defined.

(** X5. When the region has no room for the 88 bytes of the index,
    [mm_init] prints "init failed" and returns -1; no word of memory is
    written, and the break and the start of the user zone stay as they
    were. *)
Theorem X5_mm_init_fails_without_room (fuel : nat) (h : heap) :
  region_max h < region_brk h + SIZE_OF_POINTER * LISTLENGTH ->
  exists h',
    mm_init fuel h = Ret (-1) h'
    /\ mem h' = mem h
    /\ region_brk h' = region_brk h
    /\ mm_start_brk h' = mm_start_brk h
    /\ stdout h' = stdout h ++ [InitFailed].
Proof.
  intros Hroom. unfold mm_init.
  set (h3 := set_seg_list (mem_start_brk (set_mem_start_brk (region_lo h) (set_m_count 0 h)))
               (set_mem_start_brk (region_lo h) (set_m_count 0 h))).
  assert (Hsbrk : mem_sbrk (SIZE_OF_POINTER * LISTLENGTH) h3 = Ret SBRK_FAILED h3).
  { unfold mem_sbrk. change (region_max h3) with (region_max h).
    change (region_brk h3) with (region_brk h).
    destruct (Z.ltb_spec (region_max h) (region_brk h + SIZE_OF_POINTER * LISTLENGTH));
      [reflexivity | lia]. }
  exists (print InitFailed h3). split.
  - unfold bind at 1. unfold modify at 1.
    unfold bind at 1. unfold mem_heap_lo, gets at 1.
    unfold bind at 1. unfold modify at 1.
    unfold bind at 1. unfold modify at 1.
    fold h3. rewrite (bind_Ret _ _ _ _ _ Hsbrk).
    rewrite Z.eqb_refl. reflexivity.
  - repeat split.
Qed.

Lemma X5_witness :
  exists h',
    mm_init fuel0 (fresh_region 65536 (65536 + 80)) = Ret (-1) h'
    /\ mem h' = mem (fresh_region 65536 (65536 + 80))
    /\ region_brk h' = region_brk (fresh_region 65536 (65536 + 80))
    /\ mm_start_brk h' = mm_start_brk (fresh_region 65536 (65536 + 80))
    /\ stdout h' = stdout (fresh_region 65536 (65536 + 80)) ++ [InitFailed].
Proof.
  apply (X5_mm_init_fails_without_room fuel0 (fresh_region 65536 (65536 + 80))).
  vm_compute. reflexivity.
Defined.

(** ** The empty index *)

Lemma seg_list_get_empty h j :
  index_ready h = true -> all_buckets_empty h = true ->
  0 <= j < LISTLENGTH -> seg_list_get j h = Ret NULL h.
Proof.
  intros Hr He Hj.
  rewrite (seg_list_get_Ret j h Hj (cell_valid h j Hr Hj)).
  rewrite (all_buckets_empty_inv h j He Hj). reflexivity.
Qed.

Lemma check_by_list_empty k :
  forall i fuel h v,
    0 <= i -> i + Z.of_nat k = LISTLENGTH -> (k < fuel)%nat ->
    index_ready h = true -> all_buckets_empty h = true ->
    check_by_list fuel i v h = Ret v h.
Proof.
  induction k as [|k IH]; intros i fuel h v Hi Hk Hf Hr He;
    (destruct fuel as [|f]; [lia|]); cbn [check_by_list].
  - destruct (Z.ltb_spec i LISTLENGTH); [lia | reflexivity].
  - destruct (Z.ltb_spec i LISTLENGTH); [|lia].
    rewrite (bind_Ret _ _ _ _ _ (seg_list_get_empty h i Hr He ltac:(lia))).
    change (NULL =? NULL) with true. cbv iota.
    apply IH; try assumption; lia.
Qed.

Lemma scan_lists_empty k :
  forall i fuel h c,
    0 <= i -> i + Z.of_nat k = LISTLENGTH -> (k < fuel)%nat ->
    index_ready h = true -> all_buckets_empty h = true ->
    scan_lists fuel c i h = Ret None h.
Proof.
  induction k as [|k IH]; intros i fuel h c Hi Hk Hf Hr He;
    (destruct fuel as [|f]; [lia|]); cbn [scan_lists].
  - destruct (Z.ltb_spec i LISTLENGTH); [lia | reflexivity].
  - destruct (Z.ltb_spec i LISTLENGTH); [|lia].
    rewrite (bind_Ret _ _ _ _ _ (seg_list_get_empty h i Hr He ltac:(lia))).
    destruct f as [|f']; [lia|].
    assert (Eb : scan_bucket (S f') c NULL h = Ret None h) by reflexivity.
    rewrite (bind_Ret _ _ _ _ _ Eb).
    apply IH; try assumption; lia.
Qed.

(** X6. On a heap whose user zone is empty and whose heads are all null,
    as [mm_init] leaves it, [mm_check] returns 1 and prints nothing. *)
Theorem X6_mm_check_accepts_the_empty_heap (fuel : nat) (h : heap) :
  LISTLENGTH < Z.of_nat fuel ->
  index_ready h = true ->
  all_buckets_empty h = true ->
  region_brk h = mm_start_brk h ->
  mm_check fuel h = Ret 1 h.
Proof.
  intros Hfuel Hr He Hempty. unfold mm_check.
  unfold bind at 1. unfold gets at 1.
  unfold bind at 1. unfold mem_heap_hi, gets at 1.
  destruct fuel as [|f]; [unfold LISTLENGTH in Hfuel; lia|].
  assert (Ea : check_by_address (S f) (NEXTINT (mm_start_brk h)) (region_brk h - 1) 1 1 h
               = Ret 1 h).
  { cbn [check_by_address].
    destruct (Z.ltb_spec (NEXTINT (mm_start_brk h)) (region_brk h - 1)) as [Hlt|_];
      [unfold NEXTINT in Hlt; lia | reflexivity]. }
  rewrite (bind_Ret _ _ _ _ _ Ea).
  rewrite (bind_Ret _ _ _ _ _
             (check_by_list_empty 22 0 (S f) h 1 ltac:(lia) eq_refl
                ltac:(unfold LISTLENGTH in Hfuel; lia) Hr He)).
  reflexivity.
Qed.

Lemma X6_witness : mm_check fuel0 heap_init = Ret 1 heap_init.
Proof.
  apply (X6_mm_check_accepts_the_empty_heap fuel0 heap_init);
    vm_compute; reflexivity.
Defined.

(** ** mm_malloc: growing the heap and running out of memory *)

Lemma ALIGN_small n :
  0 <= n <= Int32.modulus - 8 -> ALIGN n = 8 * ((n + 7) / 8).
Proof.
  intros Hn. unfold ALIGN, ALIGNMENT. rewrite unsigned_lnot_7.
  pose proof (unsigned_range (n + (8 - 1))) as Hu.
  rewrite (land_mask_8 _ Hu).
  rewrite unsigned_small by (unfold Int32.modulus in *; lia).
  reflexivity.
Qed.

(** The two sizes [mm_malloc] computes from a request that is not huge. *)
Lemma request_sizes size :
  0 < size < Int32.half_modulus - 32 ->
  Int32.signed (ALIGN size) = ALIGN size
  /\ Int32.signed (ALIGN (Int32.unsigned (size + SIZE_OF_INFOS))) = ALIGN size + 16
  /\ size <= ALIGN size < size + 8
  /\ 8 <= ALIGN size
  /\ ALIGN size mod 8 = 0.
Proof.
  intros Hs. change SIZE_OF_INFOS with 16.
  unfold Int32.half_modulus in Hs.
  rewrite unsigned_small by (unfold Int32.modulus; lia).
  rewrite !ALIGN_small by (unfold Int32.modulus; lia).
  replace (size + 16 + 7) with (size + 7 + 2 * 8) by lia.
  rewrite Z.div_add by lia.
  pose proof (Z.div_mod (size + 7) 8 ltac:(lia)) as Hd.
  pose proof (Z.mod_pos_bound (size + 7) 8 ltac:(lia)) as Hm.
  rewrite !signed_small by (unfold Int32.half_modulus; lia).
  repeat split; try lia.
  rewrite Z.mul_comm. apply Z.mod_mul. lia.
Qed.

Lemma bucket_index_nonneg s :
  8 <= s < Int32.half_modulus -> 0 <= bucket_index s.
Proof.
  intros Hs. rewrite bucket_index_log2 by lia.
  assert (3 <= Z.log2 s).
  { change 3 with (Z.log2 8). apply Z.log2_le_mono. lia. }
  lia.
Qed.

Lemma scan_lists_empty_from i fuel h c :
  0 <= i -> LISTLENGTH < Z.of_nat fuel ->
  index_ready h = true -> all_buckets_empty h = true ->
  scan_lists fuel c i h = Ret None h.
Proof.
  intros Hi Hf Hr He. unfold LISTLENGTH in Hf.
  destruct (Z_lt_dec i LISTLENGTH) as [Hlt|Hge].
  - apply (scan_lists_empty (Z.to_nat (LISTLENGTH - i))); try assumption.
    + rewrite Z2Nat.id; lia.
    + unfold LISTLENGTH in *. lia.
  - destruct fuel as [|f]; [lia|]. cbn [scan_lists].
    destruct (Z.ltb_spec i LISTLENGTH); [lia | reflexivity].
Qed.

(** With the primer idle, [mm_malloc] is its placement step run on a heap
    that differs at most in the counter. *)
Lemma mm_malloc_idle fuel size h :
  primer_fires h size = false ->
  exists h1,
    (h1 = h \/ exists v, h1 = set_m_count v h)
    /\ mm_malloc (S fuel) size h
       = malloc_place fuel
           (Int32.signed (ALIGN (Int32.unsigned (size + SIZE_OF_INFOS))))
           (Int32.signed (ALIGN size)) h1.
Proof.
  intros Hidle. unfold primer_fires in Hidle. cbn [mm_malloc].
  destruct (_ <=? 32).
  - eexists. split; [right; eexists; reflexivity|].
    unfold bind at 1. unfold bind at 1. unfold gets at 1.
    rewrite Hidle. reflexivity.
  - destruct (_ <=? 80).
    + eexists. split; [right; eexists; reflexivity|].
      unfold bind at 1. unfold bind at 1. unfold gets at 1.
      rewrite Hidle. reflexivity.
    + exists h. split; [left; reflexivity | reflexivity].
Qed.

Lemma same_but_m_count_of h h1 :
  (h1 = h \/ exists v, h1 = set_m_count v h) -> same_but_m_count h h1.
Proof. intros [->|[v ->]]; repeat split. Qed.

Lemma malloc_place_grows fuel h cs :
  LISTLENGTH < Z.of_nat fuel ->
  index_ready h = true ->
  all_buckets_empty h = true ->
  8 <= cs < Int32.half_modulus - 16 ->
  cs mod 8 = 0 ->
  region_brk h + (cs + 16) <= region_max h ->
  let hdr := region_brk h + 4 in
  let ftr := region_brk h + cs + 12 in
  malloc_place fuel (cs + 16) cs h
  = Ret (region_brk h + 8)
        (set_mem (insert ftr (Int32.signed (SET_ALLOC_VAL cs)))
           (set_mem (insert hdr (Int32.signed (SET_ALLOC_VAL cs)))
              (set_region_brk (region_brk h + (cs + 16)) h))).
Proof.
  intros Hf Hr He Hcs Hmod Hroom hdr ftr.
  pose proof (index_ready_inv h Hr) as (H0 & H4 & Hs & Hm & Hb & Hb4 & Hbs).
  unfold malloc_place.
  rewrite (bind_Ret _ _ _ _ _
             (scan_lists_empty_from (count_bits cs - 4) fuel h cs
                (bucket_index_nonneg cs ltac:(lia)) Hf Hr He)).
  assert (Hsbrk : mem_sbrk (cs + 16) h
                  = Ret (region_brk h) (set_region_brk (region_brk h + (cs + 16)) h)).
  { unfold mem_sbrk.
    destruct (Z.ltb_spec (cs + 16) 0); [lia|].
    destruct (Z.ltb_spec (region_max h) (region_brk h + (cs + 16))); [lia|].
    reflexivity. }
  rewrite (bind_Ret _ _ _ _ _ Hsbrk).
  destruct (Z.eqb_spec (region_brk h) SBRK_FAILED) as [E|_].
  { unfold Int32.half_modulus in Hbs. rewrite E in Hbs. vm_compute in Hbs. discriminate. }
  set (h2 := set_region_brk (region_brk h + (cs + 16)) h).
  assert (Hcs4 : cs mod 4 = 0).
  { rewrite (Z.div_mod cs 8) by lia. rewrite Hmod.
    replace (8 * (cs / 8) + 0) with ((2 * (cs / 8)) * 4) by lia.
    apply Z.mod_mul. lia. }
  assert (Hv1 : valid_addr h2 (NEXTINT (region_brk h)) = true).
  { unfold valid_addr, NEXTINT. cbn [h2 set_region_brk region_lo region_brk].
    unfold SIZE_OF_POINTER, sizeof_pointer, LISTLENGTH in *.
    apply andb_true_intro; split; [apply andb_true_intro; split|].
    - apply Z.leb_le. lia.
    - apply Z.leb_le. lia.
    - apply Z.eqb_eq. rewrite Z.add_mod, Hb4 by lia. reflexivity. }
  rewrite (bind_Ret _ _ _ _ _ (store_Ret _ (SET_ALLOC_VAL cs) h2 Hv1)).
  assert (Hv2 : valid_addr h2 (SECONDINFOINT (region_brk h) cs) = true).
  { unfold valid_addr, SECONDINFOINT. cbn [h2 set_region_brk region_lo region_brk].
    unfold SIZE_OF_POINTER, sizeof_pointer, LISTLENGTH in *.
    apply andb_true_intro; split; [apply andb_true_intro; split|].
    - apply Z.leb_le. lia.
    - apply Z.leb_le. lia.
    - apply Z.eqb_eq.
      replace (region_brk h + cs + 12) with (region_brk h + (cs + 3 * 4)) by lia.
      rewrite Z.add_mod, Hb4 by lia.
      rewrite Z_mod_plus_full, Hcs4. reflexivity. }
  erewrite bind_Ret; [|apply store_Ret; exact Hv2].
  unfold ret, NEXTINT, SECONDINFOINT, hdr, ftr.
  change SIZE_OF_SIZE_T with 8. reflexivity.
Qed.

(** X7. Growing the heap: when every head of the index is null, the primer
    does not fire and the region can grow by the rounded size plus 16,
    [mm_malloc] returns the old break plus 8; the break has moved up by the
    rounded size plus 16, header and footer of the new block hold the
    allocated tag of the rounded size, which is at least the request, and
    the index is still empty. *)
Theorem X7_mm_malloc_grows_the_heap (fuel : nat) (h : heap) (size : Z) :
  LISTLENGTH + 1 < Z.of_nat fuel ->
  index_ready h = true ->
  all_buckets_empty h = true ->
  primer_fires h size = false ->
  0 < size < Int32.half_modulus - 32 ->
  region_brk h + (ALIGN size + 16) <= region_max h ->
  exists h',
    mm_malloc fuel size h = Ret (region_brk h + 8) h'
    /\ region_brk h' = region_brk h + (ALIGN size + 16)
    /\ size <= ALIGN size
    /\ tag_at h' (region_brk h + 4) = SET_ALLOC_VAL (ALIGN size)
    /\ tag_at h' (region_brk h + ALIGN size + 12) = SET_ALLOC_VAL (ALIGN size)
    /\ all_buckets_empty h' = true.
Proof.
  intros Hf Hr He Hidle Hsize Hroom.
  destruct fuel as [|f]; [unfold LISTLENGTH in Hf; lia|].
  destruct (mm_malloc_idle f size h Hidle) as (h1 & Hh1 & Erun).
  destruct (request_sizes size Hsize) as (Ecs & Ens & Hle & H8 & Hmod).
  rewrite Erun, Ecs, Ens.
  assert (Hr1 : index_ready h1 = true) by (destruct Hh1 as [->|[v ->]]; exact Hr).
  assert (He1 : all_buckets_empty h1 = true) by (destruct Hh1 as [->|[v ->]]; exact He).
  assert (Hb1 : region_brk h1 = region_brk h) by (destruct Hh1 as [->|[v ->]]; reflexivity).
  assert (Hm1 : region_max h1 = region_max h) by (destruct Hh1 as [->|[v ->]]; reflexivity).
  pose proof (index_ready_inv h1 Hr1) as (H0 & H4 & Hs & Hm & Hb & Hb4 & Hbs).
  assert (Hf1 : LISTLENGTH < Z.of_nat f) by (unfold LISTLENGTH in *; lia).
  assert (Hroom1 : region_brk h1 + (ALIGN size + 16) <= region_max h1)
    by (rewrite Hb1, Hm1; exact Hroom).
  pose proof (malloc_place_grows f h1 (ALIGN size) Hf1 Hr1 He1
                ltac:(lia) Hmod Hroom1) as Hplace.
  cbv zeta in Hplace. rewrite Hplace.
  rewrite Hb1.
  assert (Htag : Int32.signed (SET_ALLOC_VAL (ALIGN size)) = SET_ALLOC_VAL (ALIGN size)).
  { unfold SET_ALLOC_VAL. rewrite lor_1_even.
    - apply signed_small. unfold Int32.half_modulus in *. lia.
    - rewrite (Z.div_mod (ALIGN size) 8) by lia. rewrite Hmod.
      replace (8 * (ALIGN size / 8) + 0) with ((4 * (ALIGN size / 8)) * 2) by lia.
      apply Z.mod_mul. lia. }
  eexists. split; [reflexivity|].
  split; [reflexivity|]. split; [lia|].
  split; [|split].
  - rewrite tag_at_store_ne by lia.
    rewrite tag_at_store_eq. exact Htag.
  - rewrite tag_at_store_eq. exact Htag.
  - apply all_buckets_empty_intro. intros j Hj.
    rewrite <- (all_buckets_empty_inv h1 j He1 Hj).
    unfold head_cell. f_equal.
    cbn [seg_list set_mem set_region_brk].
    unfold SIZE_OF_POINTER, sizeof_pointer, LISTLENGTH in *.
    rewrite !tag_at_store_ne by lia.
    reflexivity.
Qed.

Lemma X7_witness :
  exists h',
    mm_malloc fuel0 128 heap_init = Ret (region_brk heap_init + 8) h'
    /\ region_brk h' = region_brk heap_init + (ALIGN 128 + 16)
    /\ 128 <= ALIGN 128
    /\ tag_at h' (region_brk heap_init + 4) = SET_ALLOC_VAL (ALIGN 128)
    /\ tag_at h' (region_brk heap_init + ALIGN 128 + 12) = SET_ALLOC_VAL (ALIGN 128)
    /\ all_buckets_empty h' = true.
Proof.
  apply (X7_mm_malloc_grows_the_heap fuel0 heap_init 128);
    vm_compute; try reflexivity; try discriminate.
  split; reflexivity.
Defined.

(** X8. Out of memory: when every head of the index is null, the primer
    does not fire and the region cannot grow by the rounded size plus 16,
    [mm_malloc] returns NULL, and the heap it leaves differs from the one
    it was called with at most in the counter of the primer. *)
Theorem X8_mm_malloc_returns_null_when_out_of_memory
        (fuel : nat) (h : heap) (size : Z) :
  LISTLENGTH + 1 < Z.of_nat fuel ->
  index_ready h = true ->
  all_buckets_empty h = true ->
  primer_fires h size = false ->
  0 < size < Int32.half_modulus - 32 ->
  region_max h < region_brk h + (ALIGN size + 16) ->
  exists h', mm_malloc fuel size h = Ret NULL h' /\ same_but_m_count h h'.
Proof.
  intros Hf Hr He Hidle Hsize Hroom.
  destruct fuel as [|f]; [unfold LISTLENGTH in Hf; lia|].
  destruct (mm_malloc_idle f size h Hidle) as (h1 & Hh1 & Erun).
  destruct (request_sizes size Hsize) as (Ecs & Ens & Hle & H8 & Hmod).
  rewrite Erun, Ecs, Ens.
  assert (Hr1 : index_ready h1 = true) by (destruct Hh1 as [->|[v ->]]; exact Hr).
  assert (He1 : all_buckets_empty h1 = true) by (destruct Hh1 as [->|[v ->]]; exact He).
  assert (Hb1 : region_brk h1 = region_brk h) by (destruct Hh1 as [->|[v ->]]; reflexivity).
  assert (Hm1 : region_max h1 = region_max h) by (destruct Hh1 as [->|[v ->]]; reflexivity).
  assert (Hf1 : LISTLENGTH < Z.of_nat f) by (unfold LISTLENGTH in *; lia).
  exists h1. split; [|apply same_but_m_count_of; exact Hh1].
  unfold malloc_place.
  rewrite (bind_Ret _ _ _ _ _
             (scan_lists_empty_from (count_bits (ALIGN size) - 4) f h1 (ALIGN size)
                (bucket_index_nonneg (ALIGN size)
                   ltac:(unfold Int32.half_modulus in *; lia)) Hf1 Hr1 He1)).
  assert (Hsbrk : mem_sbrk (ALIGN size + 16) h1 = Ret SBRK_FAILED h1).
  { unfold mem_sbrk. rewrite Hb1, Hm1.
    destruct (Z.ltb_spec (region_max h) (region_brk h + (ALIGN size + 16))); [|lia].
    rewrite orb_true_r. reflexivity. }
  rewrite (bind_Ret _ _ _ _ _ Hsbrk).
  rewrite Z.eqb_refl. reflexivity.
Qed.

Lemma X8_witness :
  exists h',
    mm_malloc fuel0 128 heap_tight = Ret NULL h'
    /\ same_but_m_count heap_tight h'.
Proof.
  apply (X8_mm_malloc_returns_null_when_out_of_memory fuel0 heap_tight 128).
  - vm_compute. reflexivity.
  - vm_compute. reflexivity.
  - vm_compute. reflexivity.
  - vm_compute. reflexivity.
  - vm_compute. split; reflexivity.
  - vm_compute. reflexivity.
Defined.

(** An entry the search hands out was read from the index or from a next
    slot, and its size was read eight bytes below it. *)
Lemma scan_bucket_Some fuel :
  forall c e h p h',
    0 <= e < Int32.modulus ->
    scan_bucket fuel c e h = Ret (Some p) h' ->
    exists e', p = PREV3INT e' /\ 0 <= e' < Int32.modulus
               /\ valid_addr h (PREV2INT e') = true.
Proof.
  induction fuel as [|f IH]; intros c e h p h' He H; [discriminate|].
  cbn [scan_bucket] in H.
  destruct (e =? NULL).
  - apply ret_inv in H; destruct H as [H _]. discriminate.
  - inv_bind H as w h1 E. apply load_inv in E as (-> & _ & Hv).
    destruct (_ =? 0).
    + inv_bind H. apply ret_inv in H; destruct H as [H _].
      injection H as <-. exists e. auto.
    + destruct (_ >=? 16).
      * inv_bind H. inv_bind H. inv_bind H.
        apply ret_inv in H; destruct H as [H _]. injection H as <-.
        exists e. auto.
      * inv_bind H as nxt h2 E. apply load_inv in E as (-> & _ & _).
        apply (IH _ _ _ _ _ (unsigned_range nxt) H).
Qed.

Lemma scan_lists_Some fuel :
  forall c i h p h',
    scan_lists fuel c i h = Ret (Some p) h' ->
    exists e', p = PREV3INT e' /\ 0 <= e' < Int32.modulus
               /\ valid_addr h (PREV2INT e') = true.
Proof.
  induction fuel as [|f IH]; intros c i h p h' H; [discriminate|].
  cbn [scan_lists] in H.
  destruct (i <? LISTLENGTH).
  - inv_bind H as v h1 E. apply seg_list_get_inv in E as (-> & -> & Hi).
    inv_bind H as r h2 E. destruct r as [q|].
    + apply ret_inv in H; destruct H as [H _]. injection H as <-.
      exact (scan_bucket_Some _ _ _ _ _ _ (head_cell_range h i) E).
    + apply scan_bucket_None in E as ->.
      exact (IH _ _ _ _ _ H).
  - apply ret_inv in H; destruct H as [H _]. discriminate.
Qed.

(** X9. A failed allocation changes nothing: when the primer does not fire
    and [mm_malloc] returns NULL, the heap differs from the one it was
    called with at most in the counter of the primer; in particular no
    entry was taken from the index and the break did not move. *)
Theorem X9_mm_malloc_null_leaves_the_heap
        (fuel : nat) (h : heap) (size : Z) (h' : heap) :
  primer_fires h size = false ->
  0 <= region_lo h ->
  0 <= region_brk h < SBRK_FAILED ->
  mm_malloc fuel size h = Ret NULL h' ->
  same_but_m_count h h'.
Proof.
  intros Hidle Hlo Hbrk H.
  destruct fuel as [|f]; [discriminate|].
  destruct (mm_malloc_idle f size h Hidle) as (h1 & Hh1 & Erun).
  rewrite Erun in H. clear Erun.
  assert (Hlo1 : 0 <= region_lo h1) by (destruct Hh1 as [->|[v ->]]; exact Hlo).
  assert (Hbrk1 : 0 <= region_brk h1 < SBRK_FAILED)
    by (destruct Hh1 as [->|[v ->]]; exact Hbrk).
  apply same_but_m_count_of in Hh1.
  unfold malloc_place in H.
  inv_bind H as r h2 E. inv_bind H as p0 h3 E2.
  destruct r as [q|].
  - exfalso.
    apply scan_lists_Some in E as (e & -> & He & Hv).
    apply ret_inv in E2 as [<- _].
    apply valid_addr_inv in Hv as (Hv1 & _ & _).
    unfold PREV2INT, PREV3INT, SBRK_FAILED in *.
    change (Int32.unsigned (-1)) with (Int32.modulus - 1) in *.
    destruct (Z.eqb_spec (e - 12) (Int32.modulus - 1)) as [Ef|_]; [lia|].
    inv_bind H. inv_bind H. apply ret_inv in H; destruct H as [H _].
    change SIZE_OF_SIZE_T with 8 in H. unfold NULL in H. lia.
  - apply scan_lists_None in E as ->.
    unfold mem_sbrk in E2.
    destruct (_ || _).
    + injection E2 as <- <-.
      rewrite Z.eqb_refl in H. apply ret_inv in H as [_ <-]. exact Hh1.
    + exfalso. injection E2 as <- <-.
      destruct (Z.eqb_spec (region_brk h1) SBRK_FAILED) as [Ef|_]; [lia|].
      inv_bind H. inv_bind H. apply ret_inv in H; destruct H as [H _].
      change SIZE_OF_SIZE_T with 8 in H. unfold NULL in H. lia.
Qed.

Lemma X9_witness :
  same_but_m_count heap_tight (heap_after (mm_malloc fuel0 128 heap_tight) heap_tight).
Proof.
  apply (X9_mm_malloc_null_leaves_the_heap fuel0 heap_tight 128).
  - vm_compute. reflexivity.
  - vm_compute. discriminate.
  - vm_compute. split; [discriminate | reflexivity].
  - vm_compute. reflexivity.
Defined.

(** ** mm_check only prints *)

Lemma sbs_refl h : same_but_stdout h h.
Proof. repeat split. Qed.

Lemma sbs_trans h1 h2 h3 :
  same_but_stdout h1 h2 -> same_but_stdout h2 h3 -> same_but_stdout h1 h3.
Proof.
  unfold same_but_stdout.
  intros (A1 & A2 & A3 & A4 & A5 & A6 & A7 & A8 & A9)
         (B1 & B2 & B3 & B4 & B5 & B6 & B7 & B8 & B9).
  repeat split; congruence.
Qed.

Lemma load_sbs a h v h' : load a h = Ret v h' -> same_but_stdout h h'.
Proof. intros H. apply load_inv in H as (-> & _ & _). apply sbs_refl. Qed.

Lemma ret_sbs {A} (a b : A) h h' : ret a h = Ret b h' -> same_but_stdout h h'.
Proof. intros H. apply ret_inv in H as [_ <-]. apply sbs_refl. Qed.

Lemma printf_sbs d h u h' : printf d h = Ret u h' -> same_but_stdout h h'.
Proof. unfold printf, modify. intros H. injection H as _ <-. repeat split. Qed.

Lemma seg_list_get_sbs i h v h' :
  seg_list_get i h = Ret v h' -> same_but_stdout h h'.
Proof. intros H. apply seg_list_get_inv in H as (-> & _ & _). apply sbs_refl. Qed.

(** A diagnostic followed by clearing the flag, or the flag unchanged. *)
Lemma flag_sbs (b : bool) d (valid : Z) h v h' :
  (if b then (printf d;; ret 0) else ret valid) h = Ret v h' ->
  same_but_stdout h h'.
Proof.
  destruct b; intros H.
  - inv_bind H as u h1 E. apply printf_sbs in E. apply ret_sbs in H.
    exact (sbs_trans _ _ _ E H).
  - exact (ret_sbs _ _ _ _ H).
Qed.

Lemma list_traverse_sbs fuel :
  forall t c h v h', list_traverse fuel t c h = Ret v h' -> same_but_stdout h h'.
Proof.
  induction fuel as [|f IH]; intros t c h v h' H; [discriminate|].
  cbn [list_traverse] in H.
  destruct (negb _).
  - destruct (_ =? _).
    + exact (ret_sbs _ _ _ _ H).
    + inv_bind H as w h1 E. apply load_sbs in E. apply IH in H.
      exact (sbs_trans _ _ _ E H).
  - exact (ret_sbs _ _ _ _ H).
Qed.

Lemma check_if_in_list_usr_sbs fuel ptr size h v h' :
  check_if_in_list_usr fuel ptr size h = Ret v h' -> same_but_stdout h h'.
Proof.
  unfold check_if_in_list_usr. destruct (_ =? _); intros H.
  - exact (ret_sbs _ _ _ _ H).
  - inv_bind H as t h1 E. apply seg_list_get_sbs in E.
    apply list_traverse_sbs in H. exact (sbs_trans _ _ _ E H).
Qed.

Lemma check_by_address_sbs fuel :
  forall t high prev valid h v h',
    check_by_address fuel t high prev valid h = Ret v h' ->
    same_but_stdout h h'.
Proof.
  induction fuel as [|f IH]; intros t high prev valid h v h' H; [discriminate|].
  cbn [check_by_address] in H.
  destruct (_ <? _); [|exact (ret_sbs _ _ _ _ H)].
  inv_bind H as w h1 E1. apply load_sbs in E1.
  inv_bind H as pv h2 E2.
  assert (S12 : same_but_stdout h1 h2).
  { destruct (negb (GET_ALLOC w =? 0)).
    - exact (ret_sbs _ _ _ _ E2).
    - inv_bind E2 as v1 k1 F1. apply flag_sbs in F1.
      inv_bind E2 as w' k2 F2. apply load_sbs in F2.
      inv_bind E2 as fd k3 F3. apply check_if_in_list_usr_sbs in F3.
      inv_bind E2 as v2 k4 F4. apply flag_sbs in F4.
      apply ret_sbs in E2.
      exact (sbs_trans _ _ _ F1 (sbs_trans _ _ _ F2
               (sbs_trans _ _ _ F3 (sbs_trans _ _ _ F4 E2)))). }
  destruct pv as [prev' valid'].
  inv_bind H as w2 h3 E3. apply load_sbs in E3.
  inv_bind H as hd h4 E4. apply load_sbs in E4.
  inv_bind H as ft h5 E5. apply load_sbs in E5.
  inv_bind H as u h6 E6.
  assert (S56 : same_but_stdout h5 h6).
  { destruct (negb (hd =? ft)).
    - exact (printf_sbs _ _ _ _ E6).
    - exact (ret_sbs _ _ _ _ E6). }
  apply IH in H.
  exact (sbs_trans _ _ _ E1 (sbs_trans _ _ _ S12 (sbs_trans _ _ _ E3
           (sbs_trans _ _ _ E4 (sbs_trans _ _ _ E5 (sbs_trans _ _ _ S56 H)))))).
Qed.

Lemma check_bucket_sbs fuel :
  forall t valid h v h',
    check_bucket fuel t valid h = Ret v h' -> same_but_stdout h h'.
Proof.
  induction fuel as [|f IH]; intros t valid h v h' H; [discriminate|].
  cbn [check_bucket] in H.
  destruct (negb (t =? NULL)); [|exact (ret_sbs _ _ _ _ H)].
  inv_bind H as w h1 E1. apply load_sbs in E1.
  inv_bind H as v1 h2 E2. apply flag_sbs in E2.
  inv_bind H as nx h3 E3. apply load_sbs in E3.
  apply IH in H.
  exact (sbs_trans _ _ _ E1 (sbs_trans _ _ _ E2 (sbs_trans _ _ _ E3 H))).
Qed.

Lemma check_by_list_sbs fuel :
  forall i valid h v h',
    check_by_list fuel i valid h = Ret v h' -> same_but_stdout h h'.
Proof.
  induction fuel as [|f IH]; intros i valid h v h' H; [discriminate|].
  cbn [check_by_list] in H.
  destruct (_ <? _); [|exact (ret_sbs _ _ _ _ H)].
  inv_bind H as hd h1 E1. apply seg_list_get_sbs in E1.
  destruct (_ =? _).
  - apply IH in H. exact (sbs_trans _ _ _ E1 H).
  - inv_bind H as hd' h2 E2. apply seg_list_get_sbs in E2.
    inv_bind H as v1 h3 E3. apply check_bucket_sbs in E3.
    apply IH in H.
    exact (sbs_trans _ _ _ E1 (sbs_trans _ _ _ E2 (sbs_trans _ _ _ E3 H))).
Qed.

(** X10. [mm_check] does not touch the heap: whenever it returns, memory,
    the bounds of the region and the statics of mm.c are what they were,
    only lines may have been printed, and the value returned is 0 or 1. *)
Theorem X10_mm_check_only_prints (fuel : nat) (h : heap) (v : Z) (h' : heap) :
  mm_check fuel h = Ret v h' ->
  same_but_stdout h h' /\ (v = 0 \/ v = 1).
Proof.
  intros H. unfold mm_check in H.
  inv_bind H as st h1 E1. unfold gets in E1. injection E1 as <- <-.
  inv_bind H as hi h2 E2. unfold mem_heap_hi, gets in E2. injection E2 as <- <-.
  inv_bind H as v1 h3 E3. apply check_by_address_sbs in E3.
  inv_bind H as v2 h4 E4. apply check_by_list_sbs in E4.
  destruct (negb (v2 =? 0)).
  - apply ret_inv in H as [<- <-]. split; [exact (sbs_trans _ _ _ E3 E4) | auto].
  - inv_bind H as u h5 E5. apply printf_sbs in E5.
    apply ret_inv in H as [<- <-].
    split; [exact (sbs_trans _ _ _ E3 (sbs_trans _ _ _ E4 E5)) | auto].
Qed.

Lemma X10_witness :
  same_but_stdout
    (heap_after (shrink_before_free_block region0) region0)
    (heap_after (mm_check fuel0 (heap_after (shrink_before_free_block region0) region0))
                region0)
  /\ (0 = 0 \/ 0 = 1).
Proof.
  apply (X10_mm_check_only_prints fuel0
           (heap_after (shrink_before_free_block region0) region0) 0
           (heap_after
              (mm_check fuel0 (heap_after (shrink_before_free_block region0) region0))
              region0)).
  vm_compute. reflexivity.
Defined.

(** ** mm_realloc: the paths that keep the block in place *)

(** X11. The two special cases of [mm_realloc] on a block whose header can
    be read: a request whose rounded size equals the payload returns the
    pointer and leaves the heap as it was; a request of size 0 behaves as
    [mm_free] of the block followed by returning NULL. *)
Theorem X11_mm_realloc_same_size_and_size_zero
        (fuel : nat) (h : heap) (ptr size w : Z) :
  ptr <> NULL ->
  load (PREVINT ptr) h = Ret w h ->
  (size <> 0 -> GET_SIZE w = Int32.signed (ALIGN size) ->
   mm_realloc fuel ptr size h = Ret ptr h)
  /\ mm_realloc fuel ptr 0 h = (mm_free fuel ptr;; ret NULL) h.
Proof.
  intros Hptr Hload. split.
  - intros Hsize Heq. unfold mm_realloc.
    rewrite (bind_Ret _ _ _ _ _ Hload). cbv beta zeta.
    rewrite (bind_Ret _ _ _ _ _ Hload). cbv beta zeta.
    destruct (Z.eqb_spec ptr NULL) as [E|_]; [contradiction|].
    destruct (Z.eqb_spec size 0) as [E|_]; [contradiction|].
    rewrite Heq, Z.eqb_refl. reflexivity.
  - unfold mm_realloc.
    rewrite (bind_Ret _ _ _ _ _ Hload). cbv beta zeta.
    rewrite (bind_Ret _ _ _ _ _ Hload). cbv beta zeta.
    destruct (Z.eqb_spec ptr NULL) as [E|_]; [contradiction|].
    reflexivity.
Qed.

Lemma X11_witness :
  (128 <> 0 -> GET_SIZE 129 = Int32.signed (ALIGN 128) ->
   mm_realloc fuel0 65632 128 heap_one_block = Ret 65632 heap_one_block)
  /\ mm_realloc fuel0 65632 0 heap_one_block
     = (mm_free fuel0 65632;; ret NULL) heap_one_block.
Proof.
  apply (X11_mm_realloc_same_size_and_size_zero fuel0 heap_one_block 65632 128 129).
  - discriminate.
  - vm_compute. reflexivity.
Defined.

(** X12. Growing the last block in place: for a block whose footer lies
    inside the heap and whose end reaches the break, and a larger request
    the region has room for, [mm_realloc] returns the same pointer; the
    break has moved up by the difference of the rounded size and the old
    payload, header and footer hold the allocated tag of the rounded size,
    and no word of the old payload has changed. *)
Theorem X12_mm_realloc_grows_the_last_block
        (fuel : nat) (h : heap) (ptr size w : Z) :
  ptr <> NULL ->
  0 < size < Int32.half_modulus - 32 ->
  load (PREVINT ptr) h = Ret w h ->
  0 <= GET_SIZE w < ALIGN size ->
  valid_addr h (ptr + GET_SIZE w + 4) = true ->
  check_last_usr ptr h = Ret 1 h ->
  region_brk h < SBRK_FAILED ->
  region_brk h + (ALIGN size - GET_SIZE w) <= region_max h ->
  exists h',
    mm_realloc fuel ptr size h = Ret ptr h'
    /\ region_brk h' = region_brk h + (ALIGN size - GET_SIZE w)
    /\ tag_at h' (ptr - 4) = SET_ALLOC_VAL (ALIGN size)
    /\ tag_at h' (ptr + ALIGN size + 4) = SET_ALLOC_VAL (ALIGN size)
    /\ (forall a, ptr <= a < ptr + GET_SIZE w -> peek h' a = peek h a)
    /\ stdout h' = stdout h.
Proof.
  intros Hptr Hsize Hload Hold Hftr Hlast Hnf Hroom.
  destruct (request_sizes size Hsize) as (Ecs & _ & Hle & H8 & Hmod).
  set (cs := ALIGN size) in *. set (old := GET_SIZE w) in *.
  pose proof Hload as Hhdr. apply load_inv in Hhdr as (_ & _ & Hhdr).
  apply valid_addr_inv in Hhdr as (Hh1 & Hh2 & Hh3).
  apply valid_addr_inv in Hftr as (Hf1 & Hf2 & Hf3).
  unfold PREVINT in *. unfold Int32.half_modulus in *.
  unfold mm_realloc.
  rewrite (bind_Ret _ _ _ _ _ Hload). cbv beta zeta.
  rewrite (bind_Ret _ _ _ _ _ Hload). cbv beta zeta.
  fold cs old. rewrite Ecs.
  destruct (Z.eqb_spec ptr NULL) as [E|_]; [contradiction|].
  destruct (Z.eqb_spec size 0) as [E|_]; [lia|].
  destruct (Z.eqb_spec old cs) as [E|_]; [lia|].
  rewrite geb_false by (rewrite signed_small; unfold Int32.half_modulus; lia).
  assert (Hb : (old <? cs) = true) by (apply Z.ltb_lt; lia).
  rewrite Hb.
  rewrite (bind_Ret _ _ _ _ _ Hlast).
  change (true && negb (1 =? 0)) with true. cbv iota.
  rewrite (signed_small (cs - old)) by (unfold Int32.half_modulus; lia).
  set (h1 := set_region_brk (region_brk h + (cs - old)) h).
  assert (Hsbrk : mem_sbrk (cs - old) h = Ret (region_brk h) h1).
  { unfold mem_sbrk.
    destruct (Z.ltb_spec (cs - old) 0); [lia|].
    destruct (Z.ltb_spec (region_max h) (region_brk h + (cs - old))); [lia|].
    reflexivity. }
  rewrite (bind_Ret _ _ _ _ _ Hsbrk).
  destruct (Z.eqb_spec (region_brk h) SBRK_FAILED) as [E|_]; [lia|].
  assert (Hcs4 : cs mod 4 = 0).
  { rewrite (Z.div_mod cs 8) by lia. rewrite Hmod.
    replace (8 * (cs / 8) + 0) with ((2 * (cs / 8)) * 4) by lia.
    apply Z.mod_mul. lia. }
  assert (Hv1 : valid_addr h1 (ptr - 4) = true).
  { unfold valid_addr. cbn [h1 set_region_brk region_lo region_brk].
    apply andb_true_intro; split; [apply andb_true_intro; split|].
    - apply Z.leb_le. lia.
    - apply Z.leb_le. lia.
    - apply Z.eqb_eq. exact Hh3. }
  rewrite (bind_Ret _ _ _ _ _ (store_Ret _ (SET_ALLOC_VAL cs) h1 Hv1)).
  assert (Hv2 : valid_addr h1 (SECONDINFOINT (PREV2INT ptr) cs) = true).
  { unfold valid_addr, SECONDINFOINT, PREV2INT.
    cbn [h1 set_region_brk region_lo region_brk].
    apply andb_true_intro; split; [apply andb_true_intro; split|].
    - apply Z.leb_le. lia.
    - apply Z.leb_le. lia.
    - apply Z.eqb_eq.
      replace (ptr - 8 + cs + 12) with ((ptr - 4) + (cs + 2 * 4)) by lia.
      rewrite Z.add_mod, Hh3 by lia.
      rewrite Z_mod_plus_full, Hcs4. reflexivity. }
  erewrite bind_Ret; [|apply store_Ret; exact Hv2].
  assert (Htag : Int32.signed (SET_ALLOC_VAL cs) = SET_ALLOC_VAL cs).
  { unfold SET_ALLOC_VAL. rewrite lor_1_even.
    - apply signed_small. unfold Int32.half_modulus in *. lia.
    - rewrite (Z.div_mod cs 8) by lia. rewrite Hmod.
      replace (8 * (cs / 8) + 0) with ((4 * (cs / 8)) * 2) by lia.
      apply Z.mod_mul. lia. }
  eexists. split; [reflexivity|].
  unfold SECONDINFOINT, PREV2INT.
  split; [reflexivity|]. split; [|split; [|split]].
  - rewrite tag_at_store_ne by lia. rewrite tag_at_store_eq. exact Htag.
  - replace (ptr + cs + 4) with (ptr - 8 + cs + 12) by lia.
    rewrite tag_at_store_eq. exact Htag.
  - intros a Ha. unfold peek. cbn [mem set_mem h1 set_region_brk].
    rewrite !lookup_insert_ne by lia. reflexivity.
  - reflexivity.
Qed.

Lemma X12_witness :
  exists h',
    mm_realloc fuel0 65632 256 heap_one_block = Ret 65632 h'
    /\ region_brk h' = region_brk heap_one_block + (ALIGN 256 - GET_SIZE 129)
    /\ tag_at h' (65632 - 4) = SET_ALLOC_VAL (ALIGN 256)
    /\ tag_at h' (65632 + ALIGN 256 + 4) = SET_ALLOC_VAL (ALIGN 256)
    /\ (forall a, 65632 <= a < 65632 + GET_SIZE 129 ->
                  peek h' a = peek heap_one_block a)
    /\ stdout h' = stdout heap_one_block.
Proof.
  apply (X12_mm_realloc_grows_the_last_block fuel0 heap_one_block 65632 256 129).
  - discriminate.
  - vm_compute. split; reflexivity.
  - vm_compute. reflexivity.
  - vm_compute. split; [discriminate | reflexivity].
  - vm_compute. reflexivity.
  - vm_compute. reflexivity.
  - vm_compute. reflexivity.
  - vm_compute. discriminate.
Defined.

(** ** mm_free of a block without free neighbours *)

Lemma SET_FREE_VAL_size w :
  - Int32.half_modulus <= w < Int32.half_modulus -> SET_FREE_VAL w = GET_SIZE w.
Proof.
  intros Hw. unfold SET_FREE_VAL, GET_SIZE. rewrite shift_clears_low_bit.
  apply signed_small. rewrite land_minus_2.
  unfold Int32.half_modulus in *.
  pose proof (Z.div_mod w 2 ltac:(lia)).
  pose proof (Z.mod_pos_bound w 2 ltac:(lia)). lia.
Qed.

Lemma GET_SIZE_idem v : GET_SIZE (GET_SIZE v) = GET_SIZE v.
Proof. unfold GET_SIZE. rewrite <- Z.land_assoc. reflexivity. Qed.

Lemma GET_SIZE_range v :
  - Int32.half_modulus <= v < Int32.half_modulus ->
  - Int32.half_modulus <= GET_SIZE v < Int32.half_modulus.
Proof.
  intros Hv. unfold GET_SIZE. rewrite land_minus_2.
  unfold Int32.half_modulus in *.
  pose proof (Z.div_mod v 2 ltac:(lia)).
  pose proof (Z.mod_pos_bound v 2 ltac:(lia)). lia.
Qed.

Lemma tag_at_range h a :
  - Int32.half_modulus <= tag_at h a < Int32.half_modulus.
Proof. unfold tag_at. apply signed_range. Qed.

Lemma coalesce_backward_stops fuel h start_ptr total :
  start_ptr < mm_start_brk h
  \/ (valid_addr h start_ptr = true /\ GET_ALLOC (tag_at h start_ptr) <> 0) ->
  coalesce_backward (S fuel) start_ptr total h = Ret (start_ptr, total) h.
Proof.
  intros Hstop. cbn [coalesce_backward].
  unfold bind at 1. unfold gets at 1.
  destruct (Z.geb_spec start_ptr (mm_start_brk h)) as [Hge|Hlt].
  - destruct Hstop as [Hlt|[Hv Hal]]; [lia|].
    rewrite (bind_Ret _ _ _ _ _ (load_Ret _ _ Hv)).
    destruct (Z.eqb_spec (GET_ALLOC (tag_at h start_ptr)) 0); [contradiction|].
    reflexivity.
  - reflexivity.
Qed.

Lemma coalesce_forward_stops fuel h last_ptr total :
  mem_max_addr h <= last_ptr
  \/ (valid_addr h last_ptr = true /\ GET_ALLOC (tag_at h last_ptr) <> 0) ->
  coalesce_forward (S fuel) last_ptr total h = Ret (last_ptr, total) h.
Proof.
  intros Hstop. cbn [coalesce_forward].
  unfold bind at 1. unfold gets at 1.
  destruct (Z.ltb_spec last_ptr (mem_max_addr h)) as [Hlt|Hge].
  - destruct Hstop as [Hge|[Hv Hal]]; [lia|].
    rewrite (bind_Ret _ _ _ _ _ (load_Ret _ _ Hv)).
    destruct (Z.eqb_spec (GET_ALLOC (tag_at h last_ptr)) 0); [contradiction|].
    reflexivity.
  - reflexivity.
Qed.

(** Storing two tags and reading them back. *)
Lemma set_info_free_Ret p size h :
  valid_addr h p = true ->
  valid_addr h (SECONDINFOINT (PREVINT p) size) = true ->
  set_info_free p size h
  = Ret tt (set_mem (insert (SECONDINFOINT (PREVINT p) size)
                            (Int32.signed (SET_FREE_VAL size)))
              (set_mem (insert p (Int32.signed (SET_FREE_VAL size))) h)).
Proof.
  intros Hv1 Hv2. unfold set_info_free.
  rewrite (bind_Ret _ _ _ _ _ (store_Ret p (SET_FREE_VAL size) h Hv1)).
  rewrite store_Ret by exact Hv2. reflexivity.
Qed.

(** The heap after the tag writes of [mm_free] and of [coalesce] on a block
    of payload [s] at [ptr]: header and footer hold the free tag. *)
Lemma mm_free_alone_run fuel h ptr :
  let s := GET_SIZE (tag_at h (PREVINT ptr)) in
  let hB := set_mem (insert (ptr + s + 4) (Int32.signed s))
              (set_mem (insert (ptr - 4) (Int32.signed s)) h) in
  let hE := set_mem (insert (ptr + s + 4) (Int32.signed s))
              (set_mem (insert (ptr - 4) (Int32.signed s))
                 (set_mem_max_addr (region_brk h - 1) hB)) in
  index_ready h = true ->
  valid_addr h (PREVINT ptr) = true ->
  8 <= s ->
  valid_addr h (ptr + s + 4) = true ->
  mm_start_brk h + 8 <= ptr ->
  no_free_neighbour h ptr = true ->
  mm_free (S fuel) ptr h = add_to_list_usr ptr s hE.
Proof.
  intros s hB hE Hr Hhdr Hs Hftr Hzone Halone.
  pose proof (index_ready_inv h Hr) as (H0 & H4 & Hsl & Hm & Hb & Hb4 & Hbs).
  pose proof (valid_addr_inv _ _ Hhdr) as (Hh1 & Hh2 & Hh3).
  pose proof (valid_addr_inv _ _ Hftr) as (Hf1 & Hf2 & Hf3).
  pose proof (tag_at_range h (PREVINT ptr)) as Hw.
  pose proof (GET_SIZE_range _ Hw) as Hsr. fold s in Hsr.
  assert (Ess : Int32.signed s = s) by (apply signed_small; exact Hsr).
  assert (Efree : SET_FREE_VAL (tag_at h (PREVINT ptr)) = s)
    by (apply SET_FREE_VAL_size; exact Hw).
  assert (Egs : GET_SIZE s = s) by apply GET_SIZE_idem.
  assert (Efree' : SET_FREE_VAL s = s).
  { rewrite SET_FREE_VAL_size by exact Hsr. exact Egs. }
  unfold no_free_neighbour in Halone. fold s in Halone.
  apply andb_prop in Halone as [Hback Hfwd].
  unfold PREVINT, PREV3INT, FORWARDINT in *.
  unfold mm_free, PREVINT, PREV2INT, SECONDINFOINT.
  rewrite (bind_Ret _ _ _ _ _ (load_Ret _ _ Hhdr)). fold s.
  rewrite (bind_Ret _ _ _ _ _ (load_Ret _ _ Hhdr)).
  rewrite (bind_Ret _ _ _ _ _ (store_Ret _ _ _ Hhdr)).
  rewrite Efree.
  set (hA := set_mem (insert (ptr - 4) (Int32.signed s)) h).
  assert (EA : tag_at hA (ptr - 4) = s).
  { unfold hA. rewrite tag_at_store_eq. exact Ess. }
  rewrite (bind_Ret _ _ _ _ _ (load_Ret (ptr - 4) hA Hhdr)).
  rewrite EA, Efree'.
  replace (ptr - 8 + s + 12) with (ptr + s + 4) by lia.
  rewrite (bind_Ret _ _ _ _ _ (store_Ret (ptr + s + 4) s hA Hftr)).
  fold hB.
  assert (EB : tag_at hB (ptr - 4) = s).
  { unfold hB. rewrite tag_at_store_ne by lia. exact EA. }
  assert (Hother : forall a, a <> ptr - 4 -> a <> ptr + s + 4 ->
                             tag_at hB a = tag_at h a).
  { intros a Ha1 Ha2. unfold hB.
    rewrite !tag_at_store_ne by (apply not_eq_sym; assumption). reflexivity. }
  unfold coalesce, PREVINT, PREV3INT, NEXT2INT, NEXT3INT, FORWARDINT.
  rewrite (bind_Ret _ _ _ _ _ (load_Ret (ptr - 4) hB Hhdr)).
  rewrite EB, Egs.
  assert (Hbk : coalesce_backward (S fuel) (ptr - 12) s hB = Ret (ptr - 12, s) hB).
  { apply coalesce_backward_stops.
    change (mm_start_brk hB) with (mm_start_brk h).
    apply orb_prop in Hback as [Hlt|Hal].
    - left. apply Z.ltb_lt. exact Hlt.
    - destruct (Z_lt_dec (ptr - 12) (mm_start_brk h)) as [Hlt|Hge]; [left; exact Hlt|].
      right. split.
      + unfold valid_addr. change (region_lo hB) with (region_lo h).
        change (region_brk hB) with (region_brk h).
        unfold SIZE_OF_POINTER, sizeof_pointer, LISTLENGTH in *.
        apply andb_true_intro; split; [apply andb_true_intro; split|].
        * apply Z.leb_le. lia.
        * apply Z.leb_le. lia.
        * apply Z.eqb_eq. replace (ptr - 12) with (ptr - 4 + (-2) * 4) by lia.
          rewrite Z_mod_plus_full. exact Hh3.
      + rewrite Hother by lia.
        apply negb_true_iff in Hal. apply Z.eqb_neq in Hal. exact Hal. }
  rewrite (bind_Ret _ _ _ _ _ Hbk). cbv beta iota zeta.
  unfold bind at 1. unfold mem_heap_hi, gets at 1.
  unfold bind at 1. unfold modify at 1.
  change (region_brk hB) with (region_brk h).
  set (hC := set_mem_max_addr (region_brk h - 1) hB).
  assert (Hfw : coalesce_forward (S fuel) (ptr - 4 + s + 16) s hC
                = Ret (ptr - 4 + s + 16, s) hC).
  { apply coalesce_forward_stops.
    change (mem_max_addr hC) with (region_brk h - 1).
    apply orb_prop in Hfwd as [Hle|Hal].
    - left. apply Z.leb_le. exact Hle.
    - destruct (Z_le_dec (region_brk h - 1) (ptr - 4 + s + 16)) as [Hle|Hgt];
        [left; exact Hle|].
      right. split.
      + unfold valid_addr. change (region_lo hC) with (region_lo h).
        change (region_brk hC) with (region_brk h).
        assert (Ha4 : (ptr - 4 + s + 16) mod 4 = 0).
        { replace (ptr - 4 + s + 16) with (ptr + s + 4 + 2 * 4) by lia.
          rewrite Z_mod_plus_full. exact Hf3. }
        apply andb_true_intro; split; [apply andb_true_intro; split|].
        * apply Z.leb_le. lia.
        * apply Z.leb_le.
          pose proof (Z.div_mod (ptr - 4 + s + 16) 4 ltac:(lia)).
          pose proof (Z.div_mod (region_brk h) 4 ltac:(lia)).
          lia.
        * apply Z.eqb_eq. exact Ha4.
      + change (tag_at hC (ptr - 4 + s + 16)) with (tag_at hB (ptr - 4 + s + 16)).
        rewrite Hother by lia.
        apply negb_true_iff in Hal. apply Z.eqb_neq in Hal. exact Hal. }
  rewrite (bind_Ret _ _ _ _ _ Hfw). cbv beta iota zeta.
  replace (ptr - 12 + 8) with (ptr - 4) by lia.
  replace (ptr - 12 + 12) with ptr by lia.
  assert (Hset : set_info_free (ptr - 4) s hC = Ret tt hE).
  { rewrite set_info_free_Ret.
    - unfold SECONDINFOINT, PREVINT. rewrite Efree'.
      replace (ptr - 4 - 4 + s + 12) with (ptr + s + 4) by lia. reflexivity.
    - exact Hhdr.
    - unfold SECONDINFOINT, PREVINT.
      replace (ptr - 4 - 4 + s + 12) with (ptr + s + 4) by lia. exact Hftr. }
  rewrite (bind_Ret _ _ _ _ _ Hset). reflexivity.
Qed.

(** A block that is the head of the bucket of its size is found by the
    lookup of the checker. *)
Lemma head_is_found fuel h ptr size :
  size <> 0 ->
  0 <= bucket_index size < LISTLENGTH ->
  valid_addr h (seg_list h + SIZE_OF_POINTER * bucket_index size) = true ->
  head_cell h (bucket_index size) = NEXTINT ptr ->
  NEXTINT ptr <> NULL ->
  check_if_in_list_usr (S fuel) ptr size h = Ret 1 h.
Proof.
  intros Hsize Hi Hv Hhead Hnz. unfold check_if_in_list_usr.
  destruct (Z.eqb_spec size 0) as [|_]; [contradiction|].
  rewrite (bind_Ret _ _ _ _ _ (seg_list_get_Ret _ h Hi Hv)).
  rewrite Hhead. cbn [list_traverse].
  destruct (Z.eqb_spec (NEXTINT ptr) NULL) as [|_]; [contradiction|].
  cbn [negb]. rewrite Z.eqb_refl. reflexivity.
Qed.

Lemma can_link_inv h ptr size :
  can_link h ptr size = true ->
  let index := bucket_index size in
  let head := head_cell h index in
  0 <= index < LISTLENGTH
  /\ valid_addr h (seg_list h + SIZE_OF_POINTER * index) = true
  /\ valid_addr h ptr = true
  /\ valid_addr h (NEXTINT ptr) = true
  /\ seg_list h + SIZE_OF_POINTER * LISTLENGTH <= ptr
  /\ (head = NULL
      \/ (valid_addr h (PREVINT head) = true
          /\ seg_list h + SIZE_OF_POINTER * LISTLENGTH <= PREVINT head)).
Proof.
  intros Hcan index head. unfold can_link in Hcan.
  fold index in Hcan. fold head in Hcan.
  apply andb_prop in Hcan as [Hcan Hhead].
  apply andb_prop in Hcan as [Hcan Habove].
  apply andb_prop in Hcan as [Hcan Hnext].
  apply andb_prop in Hcan as [Hcan Hptr].
  apply andb_prop in Hcan as [Hcan Hcell].
  apply andb_prop in Hcan as [Hi0 Hi1].
  apply Z.leb_le in Hi0. apply Z.ltb_lt in Hi1. apply Z.leb_le in Habove.
  repeat split; try assumption.
  apply orb_prop in Hhead as [E|E].
  - left. apply Z.eqb_eq. exact E.
  - right. apply andb_prop in E as [E1 E2]. apply Z.leb_le in E2. auto.
Qed.

(** X13. Freeing a block that has no free neighbour: when the block lies
    in the user zone with header and footer inside the heap, the words next
    to it are allocated tags or lie outside the user zone, and the
    insertion into the bucket of its size can run, [mm_free] returns with
    header and footer holding the free tag of the same size, the block at
    the head of the bucket of its size, where the lookup of the checker
    finds it, and the break where it was. *)
Theorem X13_mm_free_links_a_block_without_free_neighbours
        (fuel : nat) (h : heap) (ptr : Z) :
  let s := GET_SIZE (tag_at h (PREVINT ptr)) in
  let head := head_cell h (bucket_index s) in
  (0 < fuel)%nat ->
  index_ready h = true ->
  valid_addr h (PREVINT ptr) = true ->
  8 <= s ->
  valid_addr h (ptr + s + 4) = true ->
  mm_start_brk h + 8 <= ptr ->
  no_free_neighbour h ptr = true ->
  can_link h ptr s = true ->
  head <> ptr ->
  head <> ptr + s + 8 ->
  exists h',
    mm_free fuel ptr h = Ret tt h'
    /\ tag_at h' (PREVINT ptr) = s
    /\ tag_at h' (ptr + s + 4) = s
    /\ is_free h' (PREVINT ptr) = true
    /\ head_cell h' (bucket_index s) = NEXTINT ptr
    /\ (forall fuel', check_if_in_list_usr (S fuel') ptr s h' = Ret 1 h')
    /\ region_brk h' = region_brk h.
Proof.
  intros s head Hfuel Hr Hhdr Hs Hftr Hzone Halone Hcan Hne1 Hne2.
  destruct fuel as [|f]; [lia|].
  pose proof (mm_free_alone_run f h ptr Hr Hhdr Hs Hftr Hzone Halone) as Hrun.
  cbv zeta in Hrun. fold s in Hrun.
  pose proof (index_ready_inv h Hr) as (H0 & H4 & Hsl & Hm & Hb & Hb4 & Hbs).
  pose proof (tag_at_range h (PREVINT ptr)) as Hw.
  pose proof (GET_SIZE_range _ Hw) as Hsr. fold s in Hsr.
  assert (Ess : Int32.signed s = s) by (apply signed_small; exact Hsr).
  assert (Egs : GET_SIZE s = s) by apply GET_SIZE_idem.
  set (hE := set_mem (insert (ptr + s + 4) (Int32.signed s))
               (set_mem (insert (ptr - 4) (Int32.signed s))
                  (set_mem_max_addr (region_brk h - 1)
                     (set_mem (insert (ptr + s + 4) (Int32.signed s))
                        (set_mem (insert (ptr - 4) (Int32.signed s)) h))))) in *.
  pose proof (can_link_inv h ptr s Hcan) as (Hi & Hcell & Hvp & Hvn & Habove & Hhead).
  cbv zeta in Hhead. fold head in Hhead.
  unfold SIZE_OF_POINTER, sizeof_pointer, LISTLENGTH in Hm, Habove, Hhead.
  assert (HtagE : forall a, a <> ptr - 4 -> a <> ptr + s + 4 ->
                            tag_at hE a = tag_at h a).
  { intros a Ha1 Ha2. unfold hE.
    rewrite !tag_at_store_ne by (apply not_eq_sym; assumption).
    change (tag_at (set_mem_max_addr (region_brk h - 1) ?x) a) with (tag_at x a).
    rewrite !tag_at_store_ne by (apply not_eq_sym; assumption). reflexivity. }
  assert (HheadE : head_cell hE (bucket_index s) = head).
  { unfold head_cell. change (seg_list hE) with (seg_list h).
    rewrite HtagE; [reflexivity| |];
      unfold SIZE_OF_POINTER, sizeof_pointer, LISTLENGTH in *; lia. }
  assert (HcanE : can_link hE ptr s = true).
  { rewrite <- Hcan. unfold can_link. rewrite HheadE. reflexivity. }
  pose proof (add_to_list_usr_Ret hE ptr s ltac:(lia) HcanE) as Hadd.
  cbv zeta in Hadd. rewrite HheadE in Hadd.
  change (seg_list hE) with (seg_list h) in Hadd.
  rewrite Hadd in Hrun. clear Hadd.
  pose proof (valid_addr_inv _ _ Hvn) as (Hn1 & Hn2 & _).
  pose proof (valid_addr_inv _ _ Hhdr) as (Hh1 & _ & _).
  unfold NEXTINT, PREVINT in *.
  eexists. split; [exact Hrun|].
  assert (Htag : forall a, a = ptr - 4 \/ a = ptr + s + 4 ->
    tag_at
      (set_mem (insert (seg_list h + SIZE_OF_POINTER * bucket_index s)
                       (Int32.signed (ptr + 4)))
         (if head =? NULL
          then set_mem (insert ptr (Int32.signed
                                      (seg_list h + SIZE_OF_POINTER * bucket_index s)))
                 (set_mem (insert (ptr + 4) (Int32.signed head)) hE)
          else set_mem (insert (head - 4) (Int32.signed ptr))
                 (set_mem (insert ptr (Int32.signed
                                         (seg_list h + SIZE_OF_POINTER * bucket_index s)))
                    (set_mem (insert (ptr + 4) (Int32.signed head)) hE)))) a
    = s).
  { intros a Ha.
    assert (HaE : tag_at hE a = s).
    { unfold hE. destruct Ha as [-> | ->].
      - rewrite tag_at_store_ne by lia. rewrite tag_at_store_eq. exact Ess.
      - rewrite tag_at_store_eq. exact Ess. }
    unfold SIZE_OF_POINTER, sizeof_pointer, LISTLENGTH in *.
    rewrite tag_at_store_ne by (destruct Ha; lia).
    destruct (Z.eqb_spec head NULL) as [E0|Hnz].
    - rewrite !tag_at_store_ne by (destruct Ha; lia). exact HaE.
    - rewrite !tag_at_store_ne by (destruct Ha; lia). exact HaE. }
  split; [apply Htag; left; reflexivity|].
  split; [apply Htag; right; reflexivity|].
  split.
  { unfold is_free. rewrite (Htag (ptr - 4)) by (left; reflexivity).
    unfold GET_ALLOC. rewrite <- Egs. unfold GET_SIZE at 1.
    rewrite <- Z.land_assoc. change (Z.land (-2) 1) with 0.
    rewrite Z.land_0_r. reflexivity. }
  split; [|split].
  - unfold head_cell.
    match goal with
    | |- ptr_of_int (tag_at (set_mem _ ?x) (seg_list (set_mem _ ?x) + _)) = _ =>
        change (seg_list (set_mem (insert (seg_list h + SIZE_OF_POINTER * bucket_index s)
                                          (Int32.signed (ptr + 4))) x))
          with (seg_list x);
        assert (Hsx : seg_list x = seg_list h)
          by (destruct (head =? NULL); reflexivity);
        rewrite Hsx
    end.
    rewrite tag_at_store_eq. apply ptr_of_int_signed.
    unfold Int32.modulus, Int32.half_modulus in *. lia.
  - intros fuel'. apply head_is_found.
    + lia.
    + exact Hi.
    + destruct (head =? NULL); exact Hcell.
    + unfold head_cell.
      match goal with
      | |- ptr_of_int (tag_at (set_mem _ ?x) (seg_list (set_mem _ ?x) + _)) = _ =>
          change (seg_list (set_mem (insert (seg_list h + SIZE_OF_POINTER * bucket_index s)
                                            (Int32.signed (ptr + 4))) x))
            with (seg_list x);
          assert (Hsx : seg_list x = seg_list h)
            by (destruct (head =? NULL); reflexivity);
          rewrite Hsx
      end.
      rewrite tag_at_store_eq. unfold NEXTINT. apply ptr_of_int_signed.
      unfold Int32.modulus, Int32.half_modulus in *. lia.
    + unfold NEXTINT, NULL. lia.
  - destruct (head =? NULL); reflexivity.
Qed.

Lemma X13_witness :
  exists h',
    mm_free fuel0 65776 heap_three_blocks = Ret tt h'
    /\ tag_at h' (PREVINT 65776) = GET_SIZE (tag_at heap_three_blocks (PREVINT 65776))
    /\ tag_at h' (65776 + GET_SIZE (tag_at heap_three_blocks (PREVINT 65776)) + 4)
       = GET_SIZE (tag_at heap_three_blocks (PREVINT 65776))
    /\ is_free h' (PREVINT 65776) = true
    /\ head_cell h' (bucket_index (GET_SIZE (tag_at heap_three_blocks (PREVINT 65776))))
       = NEXTINT 65776
    /\ (forall fuel',
           check_if_in_list_usr (S fuel') 65776
             (GET_SIZE (tag_at heap_three_blocks (PREVINT 65776))) h' = Ret 1 h')
    /\ region_brk h' = region_brk heap_three_blocks.
Proof.
  apply (X13_mm_free_links_a_block_without_free_neighbours fuel0 heap_three_blocks 65776).
  - unfold fuel0. lia.
  - vm_compute. reflexivity.
  - vm_compute. reflexivity.
  - vm_compute. discriminate.
  - vm_compute. reflexivity.
  - vm_compute. discriminate.
  - vm_compute. reflexivity.
  - vm_compute. reflexivity.
  - vm_compute. discriminate.
  - vm_compute. discriminate.
Defined.

(** ** Insertion followed by removal *)

Lemma signed_unsigned z : Int32.signed (Int32.unsigned z) = Int32.signed z.
Proof.
  unfold Int32.signed, Int32.unsigned.
  rewrite Z.mod_mod by (unfold Int32.modulus; lia). reflexivity.
Qed.

Lemma signed_head_cell h j :
  Int32.signed (head_cell h j) = tag_at h (seg_list h + SIZE_OF_POINTER * j).
Proof.
  unfold head_cell, ptr_of_int. rewrite signed_unsigned.
  unfold tag_at. apply signed_signed.
Qed.

(** X14. Inserting a block and removing it again restores the index: after
    [add_to_list_usr ptr size] followed by [remove_entry] of the block's
    next slot, every head cell holds what it held before, the former first
    entry of the bucket has the address of the head cell in its prev slot,
    and every word other than the two link words of the block and that prev
    slot reads as before. *)
Theorem X14_add_then_remove_restores_the_index (h : heap) (ptr size : Z) :
  let index := bucket_index size in
  let cell := seg_list h + SIZE_OF_POINTER * index in
  let head := head_cell h index in
  size <> 0 ->
  index_ready h = true ->
  can_link h ptr size = true ->
  head <> NEXTINT ptr ->
  head <> NEXT2INT ptr ->
  exists h',
    (add_to_list_usr ptr size;; remove_entry (NEXTINT ptr)) h = Ret tt h'
    /\ (forall j, 0 <= j < LISTLENGTH -> head_cell h' j = head_cell h j)
    /\ (head <> NULL -> tag_at h' (PREVINT head) = cell)
    /\ (forall a, a <> ptr -> a <> NEXTINT ptr -> a <> PREVINT head ->
                  tag_at h' a = tag_at h a).
Proof.
  intros index cell head Hsize Hr Hcan Hne1 Hne2.
  pose proof (index_ready_inv h Hr) as (H0 & H4 & Hsl & Hm & Hb & Hb4 & Hbs).
  pose proof (can_link_inv h ptr size Hcan) as (Hi & Hcell & Hvp & Hvn & Habove & Hhead).
  cbv zeta in Hhead. fold index in Hi, Hcell, Hhead. fold cell in Hcell. fold head in Hhead.
  pose proof (add_to_list_usr_Ret h ptr size Hsize Hcan) as Hadd.
  cbv zeta in Hadd. fold index in Hadd. fold cell in Hadd. fold head in Hadd.
  pose proof (head_cell_range h index) as Hrange. fold head in Hrange.
  assert (Hcellr : 0 <= cell < Int32.half_modulus /\ cell + 4 <= mm_start_brk h
                   /\ cell < ptr).
  { unfold cell, SIZE_OF_POINTER, sizeof_pointer, LISTLENGTH in *.
    unfold Int32.half_modulus in *. lia. }
  destruct Hcellr as (Hc1 & Hc2 & Hc3).
  assert (Esc : Int32.signed cell = cell) by (apply signed_small; unfold Int32.half_modulus in *; lia).
  assert (Epc : ptr_of_int cell = cell)
    by (apply unsigned_small; unfold Int32.modulus, Int32.half_modulus in *; lia).
  assert (Esh : Int32.signed head = tag_at h cell) by apply signed_head_cell.
  assert (Eph : ptr_of_int (Int32.signed head) = head)
    by (apply ptr_of_int_signed; exact Hrange).
  unfold NEXTINT, NEXT2INT, PREVINT in *.
  assert (Hzone : seg_list h + SIZE_OF_POINTER * LISTLENGTH = mm_start_brk h)
    by (symmetry; exact Hm).
  rewrite Hzone in *.
  rewrite (bind_Ret _ _ _ _ _ Hadd). clear Hadd.
  destruct (Z.eqb_spec head NULL) as [E0|Hnz].
  - (* the bucket was empty *)
    set (h4 := set_mem (insert cell (Int32.signed (ptr + 4)))
                 (set_mem (insert ptr (Int32.signed cell))
                    (set_mem (insert (ptr + 4) (Int32.signed head)) h))).
    assert (T1 : tag_at h4 (ptr + 4) = Int32.signed head).
    { unfold h4. rewrite !tag_at_store_ne by lia. apply tag_at_store_eq. }
    assert (T2 : tag_at h4 ptr = cell).
    { unfold h4. rewrite tag_at_store_ne by lia. rewrite tag_at_store_eq. exact Esc. }
    assert (Hrun : remove_entry (ptr + 4) h4
                   = Ret tt (set_mem (insert cell (Int32.signed (Int32.signed head))) h4)).
    { unfold remove_entry, NEXTINT, PREVINT.
      replace (ptr + 4 - 4) with ptr by lia.
    rewrite (bind_Ret _ _ _ _ _ (load_Ret (ptr + 4) h4 Hvn)). rewrite T1, Eph.
    destruct (Z.eqb_spec head NULL) as [_|]; [|contradiction]. cbn [negb].
    rewrite (bind_Ret _ _ _ _ _ (eq_refl : ret tt h4 = Ret tt h4)).
    rewrite (bind_Ret _ _ _ _ _ (load_Ret ptr h4 Hvp)). rewrite T2, Epc.
    unfold bind at 1. unfold gets at 1. change (mm_start_brk h4) with (mm_start_brk h).
    destruct (Z.gtb_spec (cell + 4) (mm_start_brk h)) as [Hgt|_]; [lia|].
    rewrite (bind_Ret _ _ _ _ _ (load_Ret ptr h4 Hvp)). rewrite T2, Epc.
    rewrite (bind_Ret _ _ _ _ _ (load_Ret (ptr + 4) h4 Hvn)). rewrite T1.
    rewrite (store_Ret cell _ h4 Hcell). reflexivity. }
    eexists. split; [exact Hrun|].
    assert (Hframe : forall a, a <> ptr -> a <> ptr + 4 -> a <> head - 4 ->
              tag_at (set_mem (insert cell (Int32.signed (Int32.signed head))) h4) a
              = tag_at h a).
    { intros a Ha1 Ha2 _. destruct (Z.eq_dec a cell) as [->|Hac].
      - rewrite tag_at_store_eq, signed_signed. exact Esh.
      - unfold h4. rewrite !tag_at_store_ne by lia. reflexivity. }
    split; [|split].
    + intros j Hj. unfold head_cell. f_equal.
      change (seg_list (set_mem _ h4)) with (seg_list h).
      unfold SIZE_OF_POINTER, sizeof_pointer, LISTLENGTH in *.
      apply Hframe; unfold NULL in *; lia.
    + intros Hn. contradiction.
    + exact Hframe.
  - (* the bucket had a first entry *)
    destruct Hhead as [|[Hvh Hzh]]; [contradiction|].
    set (h4 := set_mem (insert cell (Int32.signed (ptr + 4)))
                 (set_mem (insert (head - 4) (Int32.signed ptr))
                    (set_mem (insert ptr (Int32.signed cell))
                       (set_mem (insert (ptr + 4) (Int32.signed head)) h)))).
    assert (T1 : tag_at h4 (ptr + 4) = Int32.signed head).
    { unfold h4. rewrite !tag_at_store_ne by lia. apply tag_at_store_eq. }
    assert (T2 : tag_at h4 ptr = cell).
    { unfold h4. rewrite !tag_at_store_ne by lia. rewrite tag_at_store_eq. exact Esc. }
    set (h5 := set_mem (insert (head - 4) (Int32.signed cell)) h4).
    assert (T3 : tag_at h5 (ptr + 4) = Int32.signed head).
    { unfold h5. rewrite tag_at_store_ne by lia. exact T1. }
    assert (T4 : tag_at h5 ptr = cell).
    { unfold h5. rewrite tag_at_store_ne by lia. exact T2. }
    assert (Hrun : remove_entry (ptr + 4) h4
                   = Ret tt (set_mem (insert cell (Int32.signed (Int32.signed head))) h5)).
    { unfold remove_entry, NEXTINT, PREVINT.
      replace (ptr + 4 - 4) with ptr by lia.
    rewrite (bind_Ret _ _ _ _ _ (load_Ret (ptr + 4) h4 Hvn)). rewrite T1, Eph.
    destruct (Z.eqb_spec head NULL) as [|_]; [contradiction|]. cbn [negb].
    assert (Hin : (a <- load (ptr + 4);; v <- load ptr;; store (ptr_of_int a - 4) v) h4
                  = Ret tt h5).
    { rewrite (bind_Ret _ _ _ _ _ (load_Ret (ptr + 4) h4 Hvn)). rewrite T1, Eph.
      rewrite (bind_Ret _ _ _ _ _ (load_Ret ptr h4 Hvp)). rewrite T2.
      rewrite (store_Ret (head - 4) cell h4 Hvh). reflexivity. }
    rewrite (bind_Ret _ _ _ _ _ Hin).
    rewrite (bind_Ret _ _ _ _ _ (load_Ret ptr h5 Hvp)). rewrite T4, Epc.
    unfold bind at 1. unfold gets at 1. change (mm_start_brk h5) with (mm_start_brk h).
    destruct (Z.gtb_spec (cell + 4) (mm_start_brk h)) as [Hgt|_]; [lia|].
    rewrite (bind_Ret _ _ _ _ _ (load_Ret ptr h5 Hvp)). rewrite T4, Epc.
    rewrite (bind_Ret _ _ _ _ _ (load_Ret (ptr + 4) h5 Hvn)). rewrite T3.
    rewrite (store_Ret cell _ h5 Hcell). reflexivity. }
    eexists. split; [exact Hrun|].
    assert (Hframe : forall a, a <> ptr -> a <> ptr + 4 -> a <> head - 4 ->
              tag_at (set_mem (insert cell (Int32.signed (Int32.signed head))) h5) a
              = tag_at h a).
    { intros a Ha1 Ha2 Ha3. destruct (Z.eq_dec a cell) as [->|Hac].
      - rewrite tag_at_store_eq, signed_signed. exact Esh.
      - unfold h5, h4. rewrite !tag_at_store_ne by lia. reflexivity. }
    split; [|split].
    + intros j Hj. unfold head_cell. f_equal.
      change (seg_list (set_mem _ h5)) with (seg_list h).
      unfold SIZE_OF_POINTER, sizeof_pointer, LISTLENGTH in *.
      apply Hframe; lia.
    + intros _. rewrite tag_at_store_ne by lia.
      unfold h5. rewrite tag_at_store_eq. exact Esc.
    + exact Hframe.
Qed.

Lemma X14_witness :
  exists h',
    (add_to_list_usr 65920 128;; remove_entry (NEXTINT 65920)) heap_first_freed
    = Ret tt h'
    /\ (forall j, 0 <= j < LISTLENGTH -> head_cell h' j = head_cell heap_first_freed j)
    /\ (head_cell heap_first_freed (bucket_index 128) <> NULL ->
        tag_at h' (PREVINT (head_cell heap_first_freed (bucket_index 128)))
        = seg_list heap_first_freed + SIZE_OF_POINTER * bucket_index 128)
    /\ (forall a, a <> 65920 -> a <> NEXTINT 65920 ->
                  a <> PREVINT (head_cell heap_first_freed (bucket_index 128)) ->
                  tag_at h' a = tag_at heap_first_freed a).
Proof.
  apply (X14_add_then_remove_restores_the_index heap_first_freed 65920 128).
  - discriminate.
  - vm_compute. reflexivity.
  - vm_compute. reflexivity.
  - vm_compute. discriminate.
  - vm_compute. discriminate.
Defined.

(** ** Taking the first entry of a bucket *)

(** [remove_entry] on the first entry of a list: the head cell receives the
    entry's successor, and the successor's prev slot the address of the
    head cell. *)
Lemma remove_entry_head h e cell :
  let n := ptr_of_int (tag_at h e) in
  valid_addr h e = true ->
  valid_addr h (e - 4) = true ->
  tag_at h (e - 4) = cell ->
  0 <= cell < Int32.half_modulus ->
  cell + 4 <= mm_start_brk h ->
  valid_addr h cell = true ->
  n = NULL \/ valid_addr h (n - 4) = true ->
  n - 4 <> e ->
  remove_entry e h
  = Ret tt (set_mem (insert cell (Int32.signed (tag_at h e)))
              (if n =? NULL then h
               else set_mem (insert (n - 4) (Int32.signed cell)) h)).
Proof.
  intros n Hve Hvp Hprev Hc Hzone Hvc Hn Hne.
  assert (Esc : Int32.signed cell = cell) by (apply signed_small; unfold Int32.half_modulus in *; lia).
  assert (Epc : ptr_of_int cell = cell)
    by (apply unsigned_small; unfold Int32.modulus, Int32.half_modulus in *; lia).
  unfold remove_entry, PREVINT, NEXTINT.
  rewrite (bind_Ret _ _ _ _ _ (load_Ret e h Hve)). fold n.
  set (hA := if n =? NULL then h else set_mem (insert (n - 4) (Int32.signed cell)) h).
  assert (Hin : (if negb (n =? NULL)
                 then a <- load e;; v <- load (e - 4);; store (ptr_of_int a - 4) v
                 else ret tt) h = Ret tt hA).
  { unfold hA. destruct (Z.eqb_spec n NULL) as [E0|Hnz]; cbn [negb]; [reflexivity|].
    destruct Hn as [|Hvn]; [contradiction|].
    rewrite (bind_Ret _ _ _ _ _ (load_Ret e h Hve)). fold n.
    rewrite (bind_Ret _ _ _ _ _ (load_Ret (e - 4) h Hvp)). rewrite Hprev.
    rewrite (store_Ret (n - 4) cell h Hvn). reflexivity. }
  rewrite (bind_Ret _ _ _ _ _ Hin).
  assert (Hva : forall a, valid_addr hA a = valid_addr h a).
  { intros a. unfold hA. destruct (n =? NULL); reflexivity. }
  assert (TA1 : tag_at hA (e - 4) = cell).
  { unfold hA. destruct (n =? NULL); [exact Hprev|].
    destruct (Z.eq_dec (n - 4) (e - 4)) as [->|Hd].
    - rewrite tag_at_store_eq. exact Esc.
    - rewrite tag_at_store_ne by exact Hd. exact Hprev. }
  assert (TA2 : tag_at hA e = tag_at h e).
  { unfold hA. destruct (n =? NULL); [reflexivity|].
    rewrite tag_at_store_ne by exact Hne. reflexivity. }
  assert (Hvp' : valid_addr hA (e - 4) = true) by (rewrite Hva; exact Hvp).
  assert (Hve' : valid_addr hA e = true) by (rewrite Hva; exact Hve).
  assert (Hvc' : valid_addr hA cell = true) by (rewrite Hva; exact Hvc).
  rewrite (bind_Ret _ _ _ _ _ (load_Ret (e - 4) hA Hvp')). rewrite TA1, Epc.
  unfold bind at 1. unfold gets at 1.
  assert (Hst : mm_start_brk hA = mm_start_brk h)
    by (unfold hA; destruct (n =? NULL); reflexivity).
  rewrite Hst.
  destruct (Z.gtb_spec (cell + 4) (mm_start_brk h)) as [Hgt|_]; [lia|].
  rewrite (bind_Ret _ _ _ _ _ (load_Ret (e - 4) hA Hvp')). rewrite TA1, Epc.
  rewrite (bind_Ret _ _ _ _ _ (load_Ret e hA Hve')). rewrite TA2.
  rewrite (store_Ret cell _ hA Hvc'). reflexivity.
Qed.

Lemma is_first_entry_inv h ptr size :
  is_first_entry h ptr size = true ->
  let index := bucket_index size in
  let cell := seg_list h + SIZE_OF_POINTER * index in
  let n := ptr_of_int (tag_at h (NEXTINT ptr)) in
  0 <= index < LISTLENGTH
  /\ head_cell h index = NEXTINT ptr
  /\ valid_addr h (PREVINT ptr) = true
  /\ valid_addr h ptr = true
  /\ valid_addr h (NEXTINT ptr) = true
  /\ tag_at h ptr = cell
  /\ (n = NULL \/ (valid_addr h (PREVINT n) = true /\ n <> NEXT2INT ptr)).
Proof.
  intros H index cell n. unfold is_first_entry in H.
  fold index in H. fold cell in H. fold n in H.
  apply andb_prop in H as [H Hn].
  apply andb_prop in H as [H Hprev].
  apply andb_prop in H as [H Hvn].
  apply andb_prop in H as [H Hvp].
  apply andb_prop in H as [H Hvh].
  apply andb_prop in H as [H Hhead].
  apply andb_prop in H as [Hi0 Hi1].
  apply Z.leb_le in Hi0. apply Z.ltb_lt in Hi1.
  apply Z.eqb_eq in Hhead. apply Z.eqb_eq in Hprev.
  repeat split; try assumption.
  apply orb_prop in Hn as [E|E].
  - left. apply Z.eqb_eq. exact E.
  - right. apply andb_prop in E as [E1 E2].
    apply negb_true_iff in E2. apply Z.eqb_neq in E2. auto.
Qed.

(** The placement step on a heap whose start bucket begins with a block of
    exactly the size asked for. *)
Lemma malloc_place_exact_hit fuel h ptr cs newsize :
  let index := bucket_index cs in
  let cell := seg_list h + SIZE_OF_POINTER * index in
  let n := ptr_of_int (tag_at h (NEXTINT ptr)) in
  let hB := set_mem (insert cell (Int32.signed (tag_at h (NEXTINT ptr))))
              (if n =? NULL then h
               else set_mem (insert (PREVINT n) (Int32.signed cell)) h) in
  index_ready h = true ->
  is_first_entry h ptr cs = true ->
  GET_SIZE (tag_at h (PREVINT ptr)) = cs ->
  8 <= cs ->
  valid_addr h (ptr + cs + 4) = true ->
  mm_start_brk h + 8 <= ptr ->
  malloc_place (S (S (S fuel))) newsize cs h
  = Ret ptr
        (set_mem (insert (ptr + cs + 4) (Int32.signed (SET_ALLOC_VAL cs)))
           (set_mem (insert (PREVINT ptr) (Int32.signed (SET_ALLOC_VAL cs))) hB)).
Proof.
  intros index cell n hB Hr Hfirst Hsize Hcs Hftr Hzone.
  pose proof (index_ready_inv h Hr) as (H0 & H4 & Hsl & Hm & Hb & Hb4 & Hbs).
  pose proof (is_first_entry_inv h ptr cs Hfirst)
    as (Hi & Hhead & Hvh & Hvp & Hvn & Hprev & Hn).
  cbv zeta in Hprev, Hn. fold index in Hi, Hhead, Hprev. fold cell in Hprev. fold n in Hn.
  pose proof (cell_valid h index Hr Hi) as Hvc. fold cell in Hvc.
  pose proof (valid_addr_inv _ _ Hvn) as (Hn1 & Hn2 & Hn3).
  assert (Hcellr : 0 <= cell < Int32.half_modulus /\ cell + 4 <= mm_start_brk h).
  { unfold cell, SIZE_OF_POINTER, sizeof_pointer, LISTLENGTH in *.
    unfold Int32.half_modulus in *. lia. }
  destruct Hcellr as (Hc1 & Hc2).
  unfold NEXTINT, PREVINT, NEXT2INT in *.
  unfold malloc_place. change (count_bits cs - 4) with index.
  assert (Hrm : remove_entry (ptr + 4) h = Ret tt hB).
  { pose proof (remove_entry_head h (ptr + 4) cell) as Hre. cbv zeta in Hre.
    replace (ptr + 4 - 4) with ptr in Hre by lia. fold n in Hre.
    apply Hre; try assumption.
    - destruct Hn as [E|[Hv _]]; [left; exact E | right; exact Hv].
    - destruct Hn as [E|[_ Hd]]; [rewrite E; unfold NULL; lia | lia]. }
  assert (Hscan : scan_lists (S (S (S fuel))) cs index h = Ret (Some (ptr - 8)) hB).
  { cbn [scan_lists].
    destruct (Z.ltb_spec index LISTLENGTH) as [_|]; [|lia].
    rewrite (bind_Ret _ _ _ _ _ (seg_list_get_Ret index h Hi Hvc)).
    rewrite Hhead.
    assert (Hb2 : scan_bucket (S (S fuel)) cs (ptr + 4) h = Ret (Some (ptr - 8)) hB).
    { cbn [scan_bucket].
      destruct (Z.eqb_spec (ptr + 4) NULL) as [E|_]; [unfold NULL in E; lia|].
      unfold PREV2INT, PREV3INT.
      replace (ptr + 4 - 8) with (ptr - 4) by lia.
      rewrite (bind_Ret _ _ _ _ _ (load_Ret (ptr - 4) h Hvh)).
      rewrite Hsize. rewrite Z.sub_diag. change (Int32.signed 0 =? 0) with true.
      cbv iota.
      rewrite (bind_Ret _ _ _ _ _ Hrm).
      replace (ptr + 4 - 12) with (ptr - 8) by lia. reflexivity. }
    rewrite (bind_Ret _ _ _ _ _ Hb2). reflexivity. }
  rewrite (bind_Ret _ _ _ _ _ Hscan).
  rewrite (bind_Ret _ _ _ _ _ (eq_refl : ret (ptr - 8) hB = Ret (ptr - 8) hB)).
  destruct (Z.eqb_spec (ptr - 8) SBRK_FAILED) as [E|_].
  { pose proof (valid_addr_inv _ _ Hvp) as (_ & Hp2 & _).
    unfold Int32.half_modulus in Hbs.
    change SBRK_FAILED with 4294967295 in E. lia. }
  assert (HvB : forall a, valid_addr hB a = valid_addr h a).
  { intros a. unfold hB. destruct (n =? NULL); reflexivity. }
  unfold NEXTINT, SECONDINFOINT.
  replace (ptr - 8 + 4) with (ptr - 4) by lia.
  replace (ptr - 8 + cs + 12) with (ptr + cs + 4) by lia.
  assert (Hv1 : valid_addr hB (ptr - 4) = true) by (rewrite HvB; exact Hvh).
  rewrite (bind_Ret _ _ _ _ _ (store_Ret (ptr - 4) (SET_ALLOC_VAL cs) hB Hv1)).
  erewrite bind_Ret; [|apply store_Ret; rewrite <- Hftr; apply HvB].
  unfold ret. change SIZE_OF_SIZE_T with 8.
  replace (ptr - 8 + 8) with ptr by lia. reflexivity.
Qed.

(** X15. Exact-fit reuse: when the primer does not fire and the bucket
    selected by the rounded size begins with a free block of exactly that
    payload, [mm_malloc] returns that block without moving the break; its
    header and footer hold the allocated tag, and the head cell of the
    bucket holds the block's former successor. *)
Theorem X15_mm_malloc_reuses_an_exact_fit
        (fuel : nat) (h : heap) (size ptr : Z) :
  let cs := ALIGN size in
  (3 < fuel)%nat ->
  index_ready h = true ->
  primer_fires h size = false ->
  0 < size < Int32.half_modulus - 32 ->
  is_first_entry h ptr cs = true ->
  GET_SIZE (tag_at h (PREVINT ptr)) = cs ->
  valid_addr h (ptr + cs + 4) = true ->
  mm_start_brk h + 8 <= ptr ->
  exists h',
    mm_malloc fuel size h = Ret ptr h'
    /\ tag_at h' (PREVINT ptr) = SET_ALLOC_VAL cs
    /\ tag_at h' (ptr + cs + 4) = SET_ALLOC_VAL cs
    /\ head_cell h' (bucket_index cs) = ptr_of_int (tag_at h (NEXTINT ptr))
    /\ region_brk h' = region_brk h.
Proof.
  intros cs Hfuel Hr Hidle Hsize Hfirst Hexact Hftr Hzone.
  destruct fuel as [|[|[|[|f]]]]; try lia.
  destruct (mm_malloc_idle (S (S (S f))) size h Hidle) as (h1 & Hh1 & Erun).
  destruct (request_sizes size Hsize) as (Ecs & Ens & Hle & H8 & Hmod).
  fold cs in Ecs, Ens, Hle, H8, Hmod.
  rewrite Erun. fold cs. rewrite Ecs.
  assert (Hr1 : index_ready h1 = true) by (destruct Hh1 as [->|[v ->]]; exact Hr).
  assert (Hf1 : is_first_entry h1 ptr cs = true)
    by (destruct Hh1 as [->|[v ->]]; exact Hfirst).
  assert (Hx1 : GET_SIZE (tag_at h1 (PREVINT ptr)) = cs)
    by (destruct Hh1 as [->|[v ->]]; exact Hexact).
  assert (Hv1 : valid_addr h1 (ptr + cs + 4) = true)
    by (destruct Hh1 as [->|[v ->]]; exact Hftr).
  assert (Hz1 : mm_start_brk h1 + 8 <= ptr)
    by (destruct Hh1 as [->|[v ->]]; exact Hzone).
  assert (Ht1 : forall a, tag_at h1 a = tag_at h a)
    by (destruct Hh1 as [->|[v ->]]; reflexivity).
  assert (Hs1 : seg_list h1 = seg_list h)
    by (destruct Hh1 as [->|[v ->]]; reflexivity).
  assert (Hb1 : region_brk h1 = region_brk h)
    by (destruct Hh1 as [->|[v ->]]; reflexivity).
  pose proof (malloc_place_exact_hit f h1 ptr cs
                (Int32.signed (ALIGN (Int32.unsigned (size + SIZE_OF_INFOS))))
                Hr1 Hf1 Hx1 H8 Hv1 Hz1) as Hplace.
  cbv zeta in Hplace. rewrite Hplace. clear Hplace Erun.
  pose proof (index_ready_inv h1 Hr1) as (H0 & H4 & Hsl & Hm & Hb & Hb4 & Hbs).
  pose proof (is_first_entry_inv h1 ptr cs Hf1)
    as (Hi & Hhead & Hvh & Hvp & Hvn & Hprev & Hn).
  cbv zeta in Hn.
  assert (Htag : Int32.signed (SET_ALLOC_VAL cs) = SET_ALLOC_VAL cs).
  { unfold SET_ALLOC_VAL. rewrite lor_1_even.
    - apply signed_small. unfold Int32.half_modulus in *. lia.
    - rewrite (Z.div_mod cs 8) by lia. rewrite Hmod.
      replace (8 * (cs / 8) + 0) with ((4 * (cs / 8)) * 2) by lia.
      apply Z.mod_mul. lia. }
  unfold PREVINT, NEXTINT in *.
  eexists. split; [reflexivity|].
  split; [|split; [|split]].
  - rewrite tag_at_store_ne by lia. rewrite tag_at_store_eq. exact Htag.
  - rewrite tag_at_store_eq. exact Htag.
  - unfold head_cell.
    match goal with
    | |- ptr_of_int (tag_at ?hx (seg_list ?hx + _)) = _ =>
        assert (Hsx : seg_list hx = seg_list h1)
          by (cbn [seg_list set_mem];
              destruct (ptr_of_int (tag_at h1 (ptr + 4)) =? NULL); reflexivity);
        rewrite Hsx
    end.
    unfold SIZE_OF_POINTER, sizeof_pointer, LISTLENGTH in *.
    rewrite !tag_at_store_ne by lia.
    rewrite tag_at_store_eq.
    unfold ptr_of_int. rewrite unsigned_signed, Ht1.
    unfold tag_at. rewrite unsigned_signed. reflexivity.
  - cbn [region_brk set_mem]. rewrite <- Hb1.
    destruct (ptr_of_int (tag_at h1 (ptr + 4)) =? NULL); reflexivity.
Qed.

Lemma X15_witness :
  exists h',
    mm_malloc fuel0 128 heap_one_free = Ret 65632 h'
    /\ tag_at h' (PREVINT 65632) = SET_ALLOC_VAL (ALIGN 128)
    /\ tag_at h' (65632 + ALIGN 128 + 4) = SET_ALLOC_VAL (ALIGN 128)
    /\ head_cell h' (bucket_index (ALIGN 128))
       = ptr_of_int (tag_at heap_one_free (NEXTINT 65632))
    /\ region_brk h' = region_brk heap_one_free.
Proof.
  apply (X15_mm_malloc_reuses_an_exact_fit fuel0 heap_one_free 128 65632).
  - unfold fuel0. lia.
  - vm_compute. reflexivity.
  - vm_compute. reflexivity.
  - vm_compute. split; reflexivity.
  - vm_compute. reflexivity.
  - vm_compute. reflexivity.
  - vm_compute. reflexivity.
  - vm_compute. discriminate.
Defined.

(** ** mm_realloc: shrinking in place *)

Lemma GET_SIZE_even v : v mod 2 = 0 -> GET_SIZE v = v.
Proof.
  intros He. unfold GET_SIZE. rewrite land_minus_2.
  pose proof (Z.div_mod v 2 ltac:(lia)). lia.
Qed.

Lemma GET_SIZE_mod_2 v : GET_SIZE v mod 2 = 0.
Proof.
  unfold GET_SIZE. rewrite land_minus_2. rewrite Z.mul_comm. apply Z.mod_mul. lia.
Qed.

(** X16. Shrinking in place: for a block in the user zone whose payload
    exceeds the rounded request by at least 16, [mm_realloc] returns the
    same pointer and leaves the break where it was; header and footer of
    the kept part hold the allocated tag of the rounded size, the rest is
    tagged as a free block of payload old - new - 16 and, unless that is 0,
    put at the head of the bucket of its size; the first new bytes of the
    payload are unchanged. *)
Theorem X16_mm_realloc_shrinks_in_place
        (fuel : nat) (h : heap) (ptr size w : Z) :
  let cs := ALIGN size in
  let old := GET_SIZE w in
  let rest := old - cs - 16 in
  let tail := ptr + cs + 16 in
  let head := head_cell h (bucket_index rest) in
  ptr <> NULL ->
  0 < size < Int32.half_modulus - 32 ->
  index_ready h = true ->
  mm_start_brk h + 8 <= ptr ->
  load (PREVINT ptr) h = Ret w h ->
  cs + 16 <= old ->
  valid_addr h (ptr + old + 4) = true ->
  (rest = 0
   \/ (can_link h tail rest = true
       /\ (head = NULL \/ PREVINT head < PREVINT ptr \/ ptr + old + 4 < PREVINT head))) ->
  exists h',
    mm_realloc fuel ptr size h = Ret ptr h'
    /\ tag_at h' (PREVINT ptr) = SET_ALLOC_VAL cs
    /\ tag_at h' (ptr + cs + 4) = SET_ALLOC_VAL cs
    /\ tag_at h' (ptr + cs + 12) = rest
    /\ tag_at h' (ptr + old + 4) = rest
    /\ (rest <> 0 -> head_cell h' (bucket_index rest) = NEXTINT tail)
    /\ (forall a, ptr <= a < ptr + cs -> peek h' a = peek h a)
    /\ region_brk h' = region_brk h.
Proof.
  intros cs old rest tail head Hptr Hsize Hr Hzone Hload Hbig Hftr Htail.
  destruct (request_sizes size Hsize) as (Ecs & _ & Hle & H8 & Hmod).
  fold cs in Ecs, Hle, H8, Hmod.
  pose proof (index_ready_inv h Hr) as (H0 & H4 & Hsl & Hm & Hb & Hb4 & Hbs).
  pose proof Hload as Hhdr. apply load_inv in Hhdr as (_ & Ew & Hhdr).
  pose proof (valid_addr_inv _ _ Hhdr) as (Hh1 & Hh2 & Hh3).
  pose proof (valid_addr_inv _ _ Hftr) as (Hf1 & Hf2 & Hf3).
  assert (Hwr : - Int32.half_modulus <= w < Int32.half_modulus)
    by (rewrite Ew; apply tag_at_range).
  pose proof (GET_SIZE_range w Hwr) as Hor. fold old in Hor.
  pose proof (GET_SIZE_mod_2 w) as Ho2. fold old in Ho2.
  unfold Int32.half_modulus in *. unfold PREVINT in *.
  assert (Hcs2 : cs mod 2 = 0).
  { rewrite (Z.div_mod cs 8) by lia. rewrite Hmod.
    replace (8 * (cs / 8) + 0) with ((4 * (cs / 8)) * 2) by lia.
    apply Z.mod_mul. lia. }
  assert (Hcs4 : cs mod 4 = 0).
  { rewrite (Z.div_mod cs 8) by lia. rewrite Hmod.
    replace (8 * (cs / 8) + 0) with ((2 * (cs / 8)) * 4) by lia.
    apply Z.mod_mul. lia. }
  assert (Hr2 : rest mod 2 = 0).
  { unfold rest. pose proof (Z.div_mod old 2 ltac:(lia)).
    pose proof (Z.div_mod cs 2 ltac:(lia)).
    replace (old - cs - 16) with ((old / 2 - cs / 2 - 8) * 2) by lia.
    apply Z.mod_mul. lia. }
  assert (Hrest : 0 <= rest) by (unfold rest; lia).
  assert (Htag : Int32.signed (SET_ALLOC_VAL cs) = SET_ALLOC_VAL cs).
  { unfold SET_ALLOC_VAL. rewrite lor_1_even by exact Hcs2.
    apply signed_small. unfold Int32.half_modulus. lia. }
  assert (Efree : SET_FREE_VAL rest = rest).
  { rewrite SET_FREE_VAL_size by (unfold Int32.half_modulus, rest; lia).
    apply GET_SIZE_even. exact Hr2. }
  assert (Esr : Int32.signed rest = rest)
    by (apply signed_small; unfold Int32.half_modulus, rest; lia).
  set (hS := set_mem (insert (ptr + old + 4) (Int32.signed rest))
               (set_mem (insert (ptr + cs + 12) (Int32.signed rest))
                  (set_mem (insert (ptr + cs + 4) (Int32.signed (SET_ALLOC_VAL cs)))
                     (set_mem (insert (ptr - 4) (Int32.signed (SET_ALLOC_VAL cs))) h)))).
  assert (Hrun : mm_realloc fuel ptr size h
                 = (add_to_list_usr tail rest;; ret ptr) hS).
  { unfold mm_realloc, PREVINT.
    rewrite (bind_Ret _ _ _ _ _ Hload). cbv beta zeta.
    rewrite (bind_Ret _ _ _ _ _ Hload). cbv beta zeta.
    fold cs old. rewrite Ecs.
    destruct (Z.eqb_spec ptr NULL) as [E|_]; [contradiction|].
    destruct (Z.eqb_spec size 0) as [E|_]; [lia|].
    destruct (Z.eqb_spec old cs) as [E|_]; [lia|].
    rewrite (signed_small (cs + 16)) by (unfold Int32.half_modulus; lia).
    destruct (Z.geb_spec old (cs + 16)) as [_|Hlt]; [|lia].
    fold rest. rewrite Esr.
    rewrite (bind_Ret _ _ _ _ _ (store_Ret (ptr - 4) (SET_ALLOC_VAL cs) h Hhdr)).
    unfold SECONDINFOINT, DIVUSRPTR, NEXT2INT, PREVINT.
    replace (ptr - 4 - 4 + cs + 12) with (ptr + cs + 4) by lia.
    assert (Hv2 : valid_addr h (ptr + cs + 4) = true).
    { unfold valid_addr.
      apply andb_true_intro; split; [apply andb_true_intro; split|].
      - apply Z.leb_le. lia.
      - apply Z.leb_le. lia.
      - apply Z.eqb_eq. replace (ptr + cs + 4) with (ptr - 4 + (cs + 2 * 4)) by lia.
        rewrite Z.add_mod, Hh3 by lia. rewrite Z_mod_plus_full, Hcs4. reflexivity. }
    erewrite bind_Ret; [|apply store_Ret; exact Hv2].
    replace (ptr - 4 + 8 + cs + 16 - 4) with tail by (unfold tail; lia).
    assert (Hv3 : valid_addr h (tail - 4) = true).
    { unfold valid_addr, tail.
      apply andb_true_intro; split; [apply andb_true_intro; split|].
      - apply Z.leb_le. lia.
      - apply Z.leb_le. lia.
      - apply Z.eqb_eq. replace (ptr + cs + 16 - 4) with (ptr - 4 + (cs + 4 * 4)) by lia.
        rewrite Z.add_mod, Hh3 by lia. rewrite Z_mod_plus_full, Hcs4. reflexivity. }
    assert (Hset : forall hx, (forall a, valid_addr hx a = valid_addr h a) ->
              set_info_free (tail - 4) rest hx
              = Ret tt (set_mem (insert (ptr + old + 4) (Int32.signed rest))
                          (set_mem (insert (ptr + cs + 12) (Int32.signed rest)) hx))).
    { intros hx Hvx. rewrite set_info_free_Ret.
      - unfold SECONDINFOINT, PREVINT. rewrite Efree.
        replace (tail - 4 - 4 + rest + 12) with (ptr + old + 4) by (unfold tail, rest; lia).
        replace (tail - 4) with (ptr + cs + 12) by (unfold tail; lia). reflexivity.
      - rewrite Hvx. exact Hv3.
      - unfold SECONDINFOINT, PREVINT.
        replace (tail - 4 - 4 + rest + 12) with (ptr + old + 4) by (unfold tail, rest; lia).
        rewrite Hvx. exact Hftr. }
    erewrite bind_Ret; [|apply Hset; intros a; reflexivity].
    reflexivity. }
  assert (HtagS : tag_at hS (ptr - 4) = SET_ALLOC_VAL cs
                  /\ tag_at hS (ptr + cs + 4) = SET_ALLOC_VAL cs
                  /\ tag_at hS (ptr + cs + 12) = rest
                  /\ tag_at hS (ptr + old + 4) = rest).
  { unfold hS. repeat split.
    - rewrite !tag_at_store_ne by (unfold rest in *; lia).
      rewrite tag_at_store_eq. exact Htag.
    - rewrite !tag_at_store_ne by (unfold rest in *; lia).
      rewrite tag_at_store_eq. exact Htag.
    - rewrite tag_at_store_ne by (unfold rest in *; lia).
      rewrite tag_at_store_eq. exact Esr.
    - rewrite tag_at_store_eq. exact Esr. }
  destruct HtagS as (T1 & T2 & T3 & T4).
  assert (HpeekS : forall a, ptr <= a < ptr + cs -> peek hS a = peek h a).
  { intros a Ha. unfold hS, peek. cbn [mem set_mem].
    rewrite !lookup_insert_ne by (unfold rest in *; lia). reflexivity. }
  rewrite Hrun. clear Hrun.
  destruct (Z.eq_dec rest 0) as [Ez|Hnz].
  - (* nothing is inserted *)
    exists hS. rewrite Ez in *.
    split; [reflexivity|].
    repeat split; try assumption. intros Habs. contradiction.
  - destruct Htail as [|[Hcan Hout]]; [contradiction|].
    pose proof (can_link_inv h tail rest Hcan) as (Hi & Hcell & Hvp & Hvn & Habove & Hhead).
    cbv zeta in Hhead. fold head in Hhead.
    assert (HtS : forall a, a < ptr - 4 -> tag_at hS a = tag_at h a).
    { intros a Ha. unfold hS. rewrite !tag_at_store_ne by (unfold rest in *; lia).
      reflexivity. }
    assert (HheadS : head_cell hS (bucket_index rest) = head).
    { unfold head_cell. change (seg_list hS) with (seg_list h).
      rewrite HtS; [reflexivity|].
      unfold SIZE_OF_POINTER, sizeof_pointer, LISTLENGTH in *. lia. }
    assert (HcanS : can_link hS tail rest = true).
    { rewrite <- Hcan. unfold can_link. rewrite HheadS. reflexivity. }
    pose proof (add_to_list_usr_Ret hS tail rest Hnz HcanS) as Hadd.
    cbv zeta in Hadd. rewrite HheadS in Hadd.
    change (seg_list hS) with (seg_list h) in Hadd.
    rewrite (bind_Ret _ _ _ _ _ Hadd). clear Hadd.
    pose proof (valid_addr_inv _ _ Hvn) as (Hn1 & Hn2 & _).
    unfold NEXTINT, PREVINT in *.
    unfold SIZE_OF_POINTER, sizeof_pointer, LISTLENGTH in *.
    eexists. split; [reflexivity|].
    assert (Hkeep : forall a, ptr - 4 <= a <= ptr + old + 4 ->
                              a <> tail -> a <> tail + 4 ->
      tag_at
        (set_mem (insert (seg_list h + 4 * bucket_index rest) (Int32.signed (tail + 4)))
           (if head =? NULL
            then set_mem (insert tail (Int32.signed (seg_list h + 4 * bucket_index rest)))
                   (set_mem (insert (tail + 4) (Int32.signed head)) hS)
            else set_mem (insert (head - 4) (Int32.signed tail))
                   (set_mem (insert tail
                               (Int32.signed (seg_list h + 4 * bucket_index rest)))
                      (set_mem (insert (tail + 4) (Int32.signed head)) hS)))) a
      = tag_at hS a).
    { intros a Ha Ha1 Ha2.
      rewrite tag_at_store_ne by lia.
      destruct (Z.eqb_spec head NULL) as [E0|Hhnz].
      - rewrite !tag_at_store_ne by lia. reflexivity.
      - destruct Hout as [|Hout]; [contradiction|].
        rewrite !tag_at_store_ne by lia. reflexivity. }
    split; [rewrite Hkeep by (unfold tail, rest in *; lia); exact T1|].
    split; [rewrite Hkeep by (unfold tail, rest in *; lia); exact T2|].
    split; [rewrite Hkeep by (unfold tail, rest in *; lia); exact T3|].
    split; [rewrite Hkeep by (unfold tail, rest in *; lia); exact T4|].
    split; [|split].
    + intros _. unfold head_cell.
      match goal with
      | |- ptr_of_int (tag_at (set_mem _ ?x) (seg_list (set_mem _ ?x) + _)) = _ =>
          change (seg_list (set_mem (insert (seg_list h + 4 * bucket_index rest)
                                            (Int32.signed (tail + 4))) x))
            with (seg_list x);
          assert (Hsx : seg_list x = seg_list h)
            by (destruct (head =? NULL); reflexivity);
          rewrite Hsx
      end.
      change (SIZE_OF_POINTER * bucket_index rest) with (4 * bucket_index rest).
      rewrite tag_at_store_eq. apply ptr_of_int_signed.
      unfold Int32.modulus. lia.
    + intros a Ha. rewrite <- (HpeekS a Ha).
      unfold peek. cbn [mem set_mem].
      rewrite lookup_insert_ne by lia.
      destruct (Z.eqb_spec head NULL) as [E0|Hhnz]; cbn [mem set_mem].
      * rewrite !lookup_insert_ne by (unfold tail; lia). reflexivity.
      * destruct Hout as [|Hout]; [contradiction|].
        rewrite !lookup_insert_ne by (unfold tail; lia). reflexivity.
    + destruct (head =? NULL); reflexivity.
Qed.

Lemma X16_witness :
  exists h',
    mm_realloc fuel0 65632 32 heap_one_block = Ret 65632 h'
    /\ tag_at h' (PREVINT 65632) = SET_ALLOC_VAL (ALIGN 32)
    /\ tag_at h' (65632 + ALIGN 32 + 4) = SET_ALLOC_VAL (ALIGN 32)
    /\ tag_at h' (65632 + ALIGN 32 + 12) = GET_SIZE 129 - ALIGN 32 - 16
    /\ tag_at h' (65632 + GET_SIZE 129 + 4) = GET_SIZE 129 - ALIGN 32 - 16
    /\ (GET_SIZE 129 - ALIGN 32 - 16 <> 0 ->
        head_cell h' (bucket_index (GET_SIZE 129 - ALIGN 32 - 16))
        = NEXTINT (65632 + ALIGN 32 + 16))
    /\ (forall a, 65632 <= a < 65632 + ALIGN 32 -> peek h' a = peek heap_one_block a)
    /\ region_brk h' = region_brk heap_one_block.
Proof.
  apply (X16_mm_realloc_shrinks_in_place fuel0 heap_one_block 65632 32 129).
  - discriminate.
  - vm_compute. split; reflexivity.
  - vm_compute. reflexivity.
  - vm_compute. discriminate.
  - vm_compute. reflexivity.
  - vm_compute. discriminate.
  - vm_compute. reflexivity.
  - right. split; [vm_compute; reflexivity | left; vm_compute; reflexivity].
Defined.

(** ** The byte copy of mm_realloc *)

Lemma byte_offset a : 0 <= a mod 4 < 4.
Proof. apply Z.mod_pos_bound. lia. Qed.

Lemma word_of_byte_valid h a n x :
  bytes_inside h a n = true -> a <= x < a + n ->
  valid_addr h (x - x mod 4) = true.
Proof.
  unfold bytes_inside. intros H Hx.
  apply andb_prop in H as [H Hb4]. apply andb_prop in H as [H Hl4].
  apply andb_prop in H as [Hlo Hhi].
  apply Z.leb_le in Hlo. apply Z.leb_le in Hhi.
  apply Z.eqb_eq in Hl4. apply Z.eqb_eq in Hb4.
  pose proof (Z.div_mod x 4 ltac:(lia)) as Hx4.
  pose proof (Z.mod_pos_bound x 4 ltac:(lia)) as Hxm.
  pose proof (Z.div_mod (region_lo h) 4 ltac:(lia)) as Hl.
  pose proof (Z.div_mod (region_brk h) 4 ltac:(lia)) as Hb.
  unfold valid_addr.
  apply andb_true_intro; split; [apply andb_true_intro; split|].
  - apply Z.leb_le. lia.
  - apply Z.leb_le. lia.
  - apply Z.eqb_eq.
    replace (x - x mod 4) with ((x / 4) * 4) by lia.
    apply Z.mod_mul. lia.
Qed.

Lemma testbit_255 k : Z.testbit 255 k = (0 <=? k) && (k <? 8).
Proof.
  destruct (Z.leb_spec 0 k) as [Hk|Hk]; cbn [andb].
  - change 255 with (Z.ones 8).
    destruct (Z.ltb_spec k 8).
    + apply Z.ones_spec_low. lia.
    + apply Z.ones_spec_high. lia.
  - apply Z.testbit_neg_r. exact Hk.
Qed.

(** Replacing one byte of a word: the byte is read back, the three others
    are kept. *)
Lemma byte_of_replaced old b i j :
  0 <= b < 256 -> 0 <= i < 4 -> 0 <= j < 4 ->
  Z.land
    (Z.shiftr
       (Int32.unsigned
          (Int32.signed
             (Z.lor (Z.land old (Z.lnot (Z.shiftl 255 (8 * i))))
                    (Z.shiftl (Z.land b 255) (8 * i)))))
       (8 * j)) 255
  = if i =? j then b else Z.land (Z.shiftr old (8 * j)) 255.
Proof.
  intros Hb Hi Hj.
  rewrite unsigned_signed. unfold Int32.unsigned, Int32.modulus.
  assert (Hbhigh : forall k, 8 <= k -> Z.testbit b k = false).
  { intros k Hk. destruct (Z.eq_dec b 0) as [->|Hnz]; [apply Z.bits_0|].
    apply Z.bits_above_log2; [lia|].
    assert (Z.log2 b < 8) by (apply Z.log2_lt_pow2; lia). lia. }
  apply Z.bits_inj'. intros k Hk.
  rewrite Z.land_spec, testbit_255.
  rewrite Z.shiftr_spec by lia.
  destruct (Z.leb_spec 0 k) as [_|]; [|lia]. cbn [andb].
  destruct (Z.ltb_spec k 8) as [Hk8|Hk8].
  - rewrite andb_true_r.
    rewrite Z.mod_pow2_bits_low by lia.
    rewrite Z.lor_spec, Z.land_spec, Z.lnot_spec by lia.
    rewrite !Z.shiftl_spec by lia.
    rewrite Z.land_spec, !testbit_255.
    destruct (Z.eqb_spec i j) as [->|Hne].
    + replace (k + 8 * j - 8 * j) with k by lia.
      destruct (Z.leb_spec 0 k) as [_|]; [|lia].
      destruct (Z.ltb_spec k 8) as [_|]; [|lia].
      cbn [andb negb]. rewrite andb_false_r, andb_true_r. reflexivity.
    + assert ((0 <=? k + 8 * j - 8 * i) && (k + 8 * j - 8 * i <? 8) = false) as ->.
      { destruct (Z.leb_spec 0 (k + 8 * j - 8 * i));
          destruct (Z.ltb_spec (k + 8 * j - 8 * i) 8); cbn [andb]; try reflexivity.
        lia. }
      cbn [negb]. rewrite andb_true_r, andb_false_r, orb_false_r.
      rewrite Z.land_spec, testbit_255, Z.shiftr_spec by lia.
      destruct (Z.leb_spec 0 k) as [_|]; [|lia].
      destruct (Z.ltb_spec k 8) as [_|]; [|lia].
      cbn [andb]. rewrite andb_true_r. reflexivity.
  - rewrite andb_false_r.
    destruct (i =? j).
    + symmetry. apply Hbhigh. lia.
    + rewrite Z.land_spec, testbit_255.
      destruct (Z.ltb_spec k 8) as [|_]; [lia|].
      rewrite !andb_false_r. reflexivity.
Qed.

Lemma byte_at_range h a : 0 <= byte_at h a < 256.
Proof.
  unfold byte_at. change 255 with (Z.ones 8). rewrite Z.land_ones by lia.
  apply Z.mod_pos_bound. lia.
Qed.

Lemma load_byte_Ret h a :
  valid_addr h (a - a mod 4) = true -> load_byte a h = Ret (byte_at h a) h.
Proof. intros Hv. unfold load_byte. rewrite Hv. reflexivity. Qed.

(** Two byte addresses with the same word and the same offset are equal. *)
Lemma byte_addr_eq a x :
  a - a mod 4 = x - x mod 4 -> a mod 4 = x mod 4 -> a = x.
Proof. lia. Qed.

(** [store_byte] writes one byte and keeps every other byte. *)
Lemma store_byte_Ret h a b :
  valid_addr h (a - a mod 4) = true -> 0 <= b < 256 ->
  exists h',
    store_byte a b h = Ret tt h'
    /\ byte_at h' a = b
    /\ (forall x, x <> a -> byte_at h' x = byte_at h x)
    /\ (forall x n, bytes_inside h' x n = bytes_inside h x n).
Proof.
  intros Hv Hb. unfold store_byte. rewrite Hv. cbv zeta.
  eexists. split; [reflexivity|].
  pose proof (byte_offset a) as Ha.
  split; [|split].
  - unfold byte_at, peek. cbn [mem set_mem]. rewrite lookup_insert_eq.
    cbn [default]. unfold id.
    rewrite byte_of_replaced by lia. rewrite Z.eqb_refl. reflexivity.
  - intros x Hx. pose proof (byte_offset x) as Hxo.
    unfold byte_at at 1. unfold peek. cbn [mem set_mem].
    destruct (Z.eq_dec (a - a mod 4) (x - x mod 4)) as [Ew|Hw].
    + rewrite <- Ew, lookup_insert_eq. cbn [default]. unfold id.
      rewrite byte_of_replaced by lia.
      destruct (Z.eqb_spec (a mod 4) (x mod 4)) as [Eo|_].
      * exfalso. apply Hx. symmetry. apply byte_addr_eq; assumption.
      * unfold byte_at, peek. rewrite <- Ew. reflexivity.
    + rewrite lookup_insert_ne by exact Hw. reflexivity.
  - intros x n. reflexivity.
Qed.

Lemma copy_bytes_run k :
  forall fuel newptr oldptr i n h,
    0 <= i -> i + Z.of_nat k = n -> (k < fuel)%nat ->
    bytes_inside h newptr n = true ->
    bytes_inside h oldptr n = true ->
    newptr <= oldptr \/ oldptr + n <= newptr ->
    exists h',
      copy_bytes fuel newptr oldptr i n h = Ret tt h'
      /\ (forall j, i <= j < n -> byte_at h' (newptr + j) = byte_at h (oldptr + j))
      /\ (forall x, x < newptr + i \/ newptr + n <= x -> byte_at h' x = byte_at h x)
      /\ (forall x m, bytes_inside h' x m = bytes_inside h x m).
Proof.
  induction k as [|k IH]; intros fuel newptr oldptr i n h Hi Hk Hf Hnew Hold Hdir;
    (destruct fuel as [|f]; [lia|]); cbn [copy_bytes].
  - destruct (Z.ltb_spec i n); [lia|].
    exists h. split; [reflexivity|].
    split; [intros j Hj; lia|]. split; reflexivity.
  - destruct (Z.ltb_spec i n); [|lia].
    assert (Hvo : valid_addr h (oldptr + i - (oldptr + i) mod 4) = true)
      by (apply (word_of_byte_valid h oldptr n); [exact Hold | lia]).
    assert (Hvn : valid_addr h (newptr + i - (newptr + i) mod 4) = true)
      by (apply (word_of_byte_valid h newptr n); [exact Hnew | lia]).
    rewrite (bind_Ret _ _ _ _ _ (load_byte_Ret h (oldptr + i) Hvo)).
    destruct (store_byte_Ret h (newptr + i) (byte_at h (oldptr + i)) Hvn
                (byte_at_range h (oldptr + i)))
      as (h1 & Est & Hsame & Hother & Hin).
    rewrite (bind_Ret _ _ _ _ _ Est).
    destruct (IH f newptr oldptr (i + 1) n h1) as (h' & Erun & Hcopied & Hframe & Hin').
    + lia.
    + lia.
    + lia.
    + rewrite Hin. exact Hnew.
    + rewrite Hin. exact Hold.
    + exact Hdir.
    + exists h'. split; [exact Erun|]. split; [|split].
      * intros j Hj. destruct (Z.eq_dec j i) as [->|Hne].
        -- rewrite Hframe by lia. exact Hsame.
        -- rewrite Hcopied by lia. apply Hother. lia.
      * intros x Hx. rewrite Hframe by lia. apply Hother. lia.
      * intros x m. rewrite Hin'. apply Hin.
Qed.

(** X17. The byte copy of [mm_realloc] (and the [memcpy] of its fallback):
    when both ranges lie inside the heap and the destination does not
    start above the source, or the ranges do not overlap from above, the
    loop ends with the [n] bytes at the destination equal to the [n] bytes
    the source held before, and leaves every byte outside the destination
    range as it was. *)
Theorem X17_copy_bytes_moves_the_payload
        (fuel : nat) (h : heap) (newptr oldptr n : Z) :
  0 <= n < Z.of_nat fuel ->
  bytes_inside h newptr n = true ->
  bytes_inside h oldptr n = true ->
  newptr <= oldptr \/ oldptr + n <= newptr ->
  exists h',
    copy_bytes fuel newptr oldptr 0 n h = Ret tt h'
    /\ (forall j, 0 <= j < n -> byte_at h' (newptr + j) = byte_at h (oldptr + j))
    /\ (forall x, x < newptr \/ newptr + n <= x -> byte_at h' x = byte_at h x).
Proof.
  intros Hn Hnew Hold Hdir.
  destruct (copy_bytes_run (Z.to_nat n) fuel newptr oldptr 0 n h)
    as (h' & Erun & Hcopied & Hframe & _); try assumption; try lia.
  exists h'. split; [exact Erun|]. split; [exact Hcopied|].
  intros x Hx. apply Hframe. lia.
Qed.

Lemma X17_witness :
  exists h',
    copy_bytes fuel0 65632 65648 0 48 heap_three_blocks = Ret tt h'
    /\ (forall j, 0 <= j < 48 ->
                  byte_at h' (65632 + j) = byte_at heap_three_blocks (65648 + j))
    /\ (forall x, x < 65632 \/ 65632 + 48 <= x ->
                  byte_at h' x = byte_at heap_three_blocks x).
Proof.
  apply (X17_copy_bytes_moves_the_payload fuel0 heap_three_blocks 65632 65648 48).
  - unfold fuel0. lia.
  - vm_compute. reflexivity.
  - vm_compute. reflexivity.
  - left. lia.
Defined.

(** ** mm_free next to a free successor *)

(** The tag writes and the removal [mm_free] performs on a block whose
    successor is free and is the first entry of its bucket. *)
Lemma mm_free_merge_run fuel h ptr :
  let s := GET_SIZE (tag_at h (PREVINT ptr)) in
  let sh := ptr + s + 12 in
  let su := ptr + s + 16 in
  let t := GET_SIZE (tag_at h sh) in
  let total := s + t + 16 in
  let cell := seg_list h + SIZE_OF_POINTER * bucket_index t in
  let next := tag_at h (su + 4) in
  let n := ptr_of_int next in
  let hC := set_mem_max_addr (region_brk h - 1)
              (set_mem (insert (ptr + s + 4) (Int32.signed s))
                 (set_mem (insert (ptr - 4) (Int32.signed s)) h)) in
  let hD := set_mem (insert cell (Int32.signed next))
              (if n =? NULL then hC
               else set_mem (insert (n - 4) (Int32.signed cell)) hC) in
  let hE := set_mem (insert (ptr + total + 4) (Int32.signed total))
              (set_mem (insert (ptr - 4) (Int32.signed total)) hD) in
  index_ready h = true ->
  valid_addr h (PREVINT ptr) = true ->
  8 <= s ->
  valid_addr h (ptr + s + 4) = true ->
  mm_start_brk h + 8 <= ptr ->
  only_successor_free h ptr = true ->
  0 < t ->
  is_first_entry h su t = true ->
  valid_addr h (ptr + total + 4) = true ->
  n = NULL \/ n - 4 < ptr - 4 \/ ptr + total + 12 < n - 4 ->
  mm_free (S (S fuel)) ptr h = add_to_list_usr ptr total hE.
Proof.
  intros s sh su t total cell next n hC hD hE
         Hr Hhdr Hs Hftr Hzone Honly Htpos Hfirst Hend Hnout.
  pose proof (index_ready_inv h Hr) as (H0 & H4 & Hsl & Hm & Hb & Hb4 & Hbs).
  pose proof (valid_addr_inv _ _ Hhdr) as (Hh1 & Hh2 & Hh3).
  pose proof (valid_addr_inv _ _ Hftr) as (Hf1 & Hf2 & Hf3).
  pose proof (valid_addr_inv _ _ Hend) as (He1 & He2 & He3).
  pose proof (tag_at_range h (PREVINT ptr)) as Hw.
  pose proof (GET_SIZE_range _ Hw) as Hsr. fold s in Hsr.
  pose proof (GET_SIZE_range _ (tag_at_range h sh)) as Htr. fold t in Htr.
  assert (Ess : Int32.signed s = s) by (apply signed_small; exact Hsr).
  assert (Egs : GET_SIZE s = s) by apply GET_SIZE_idem.
  assert (Efree : SET_FREE_VAL (tag_at h (PREVINT ptr)) = s)
    by (apply SET_FREE_VAL_size; exact Hw).
  assert (Efree' : SET_FREE_VAL s = s).
  { rewrite SET_FREE_VAL_size by exact Hsr. exact Egs. }
  (* what the predicate says *)
  unfold only_successor_free in Honly. fold s in Honly.
  unfold PREVINT, PREV3INT, FORWARDINT in Honly.
  replace (ptr - 4 + s + 16) with sh in Honly by (unfold sh; lia).
  fold t in Honly.
  apply andb_prop in Honly as [Honly Hafter].
  apply andb_prop in Honly as [Honly Htnz].
  apply andb_prop in Honly as [Honly Hsfree].
  apply andb_prop in Honly as [Hback Hsin].
  apply Z.ltb_lt in Hsin. apply Z.eqb_eq in Hsfree.
  apply negb_true_iff in Htnz. apply Z.eqb_neq in Htnz.
  pose proof (is_first_entry_inv h su t Hfirst)
    as (Hi & Hhead & Hvsh & Hvsu & Hvsn & Hprev & Hn).
  cbv zeta in Hprev, Hn. fold cell in Hprev.
  unfold NEXTINT, PREVINT, NEXT2INT in Hhead, Hvsh, Hvsn, Hprev, Hn.
  fold next in Hn. fold n in Hn.
  pose proof (cell_valid h _ Hr Hi) as Hvc. fold cell in Hvc.
  assert (Hcellr : 0 <= cell < Int32.half_modulus /\ cell + 4 <= mm_start_brk h).
  { unfold cell, SIZE_OF_POINTER, sizeof_pointer, LISTLENGTH in *.
    unfold Int32.half_modulus in *. lia. }
  destruct Hcellr as (Hc1 & Hc2).
  assert (Etot : Int32.signed (s + (t + 16)) = total).
  { unfold total. rewrite signed_small; [lia|].
    unfold Int32.half_modulus in *. lia. }
  assert (Etot' : Int32.signed total = total).
  { apply signed_small. unfold total, Int32.half_modulus in *. lia. }
  assert (Eft : SET_FREE_VAL total = total).
  { rewrite SET_FREE_VAL_size by (unfold total, Int32.half_modulus in *; lia).
    apply GET_SIZE_even. unfold total.
    pose proof (GET_SIZE_mod_2 (tag_at h (PREVINT ptr))) as Hs2. fold s in Hs2.
    pose proof (GET_SIZE_mod_2 (tag_at h sh)) as Ht2. fold t in Ht2.
    pose proof (Z.div_mod s 2 ltac:(lia)). pose proof (Z.div_mod t 2 ltac:(lia)).
    replace (s + t + 16) with ((s / 2 + t / 2 + 8) * 2) by lia.
    apply Z.mod_mul. lia. }
  unfold PREVINT in *.
  (* the two tag writes of mm_free *)
  unfold mm_free, PREVINT, PREV2INT, SECONDINFOINT.
  rewrite (bind_Ret _ _ _ _ _ (load_Ret _ _ Hhdr)). fold s.
  rewrite (bind_Ret _ _ _ _ _ (load_Ret _ _ Hhdr)).
  rewrite (bind_Ret _ _ _ _ _ (store_Ret _ _ _ Hhdr)).
  rewrite Efree.
  set (hA := set_mem (insert (ptr - 4) (Int32.signed s)) h).
  assert (EA : tag_at hA (ptr - 4) = s).
  { unfold hA. rewrite tag_at_store_eq. exact Ess. }
  rewrite (bind_Ret _ _ _ _ _ (load_Ret (ptr - 4) hA Hhdr)).
  rewrite EA, Efree'.
  replace (ptr - 8 + s + 12) with (ptr + s + 4) by lia.
  rewrite (bind_Ret _ _ _ _ _ (store_Ret (ptr + s + 4) s hA Hftr)).
  set (hB := set_mem (insert (ptr + s + 4) (Int32.signed s)) hA).
  assert (EB : tag_at hB (ptr - 4) = s).
  { unfold hB. rewrite tag_at_store_ne by lia. exact EA. }
  assert (Hother : forall a, a <> ptr - 4 -> a <> ptr + s + 4 ->
                             tag_at hB a = tag_at h a).
  { intros a Ha1 Ha2. unfold hB, hA.
    rewrite !tag_at_store_ne by (apply not_eq_sym; assumption). reflexivity. }
  (* coalesce: the backward walk stops at once *)
  unfold coalesce, PREVINT, PREV3INT, NEXT2INT, NEXT3INT, FORWARDINT.
  rewrite (bind_Ret _ _ _ _ _ (load_Ret (ptr - 4) hB Hhdr)).
  rewrite EB, Egs.
  assert (Hbk : coalesce_backward (S (S fuel)) (ptr - 12) s hB = Ret (ptr - 12, s) hB).
  { apply coalesce_backward_stops.
    change (mm_start_brk hB) with (mm_start_brk h).
    apply orb_prop in Hback as [Hlt|Hal].
    - left. apply Z.ltb_lt. exact Hlt.
    - destruct (Z_lt_dec (ptr - 12) (mm_start_brk h)) as [Hlt|Hge]; [left; exact Hlt|].
      right. split.
      + unfold valid_addr. change (region_lo hB) with (region_lo h).
        change (region_brk hB) with (region_brk h).
        unfold SIZE_OF_POINTER, sizeof_pointer, LISTLENGTH in *.
        apply andb_true_intro; split; [apply andb_true_intro; split|].
        * apply Z.leb_le. lia.
        * apply Z.leb_le. lia.
        * apply Z.eqb_eq. replace (ptr - 12) with (ptr - 4 + (-2) * 4) by lia.
          rewrite Z_mod_plus_full. exact Hh3.
      + rewrite Hother by lia.
        apply negb_true_iff in Hal. apply Z.eqb_neq in Hal. exact Hal. }
  rewrite (bind_Ret _ _ _ _ _ Hbk). cbv beta iota zeta.
  unfold bind at 1. unfold mem_heap_hi, gets at 1.
  unfold bind at 1. unfold modify at 1.
  change (region_brk hB) with (region_brk h).
  fold hA hB in hC. fold hC.
  replace (ptr - 4 + s + 16) with sh by (unfold sh; lia).
  (* the forward walk takes the successor and stops *)
  assert (HtC : forall a, a <> ptr - 4 -> a <> ptr + s + 4 -> tag_at hC a = tag_at h a).
  { intros a Ha1 Ha2. change (tag_at hC a) with (tag_at hB a). apply Hother; assumption. }
  assert (Hrm : remove_entry (sh + 8) hC = Ret tt hD).
  { pose proof (remove_entry_head hC (sh + 8) cell) as Hre. cbv zeta in Hre.
    replace (sh + 8) with (su + 4) in * by (unfold sh, su; lia).
    replace (su + 4 - 4) with su in Hre by lia.
    rewrite (HtC (su + 4)) in Hre by (unfold su; lia).
    fold next in Hre. fold n in Hre.
    apply Hre.
    - exact Hvsn.
    - exact Hvsu.
    - rewrite HtC by (unfold su; lia). exact Hprev.
    - exact Hc1.
    - exact Hc2.
    - exact Hvc.
    - destruct Hn as [E|[Hv _]]; [left; exact E | right; exact Hv].
    - destruct Hn as [E|[_ Hd]]; [rewrite E; unfold NULL, su; lia | lia]. }
  assert (HvD : forall a, valid_addr hD a = valid_addr h a).
  { intros a. unfold hD. destruct (n =? NULL); reflexivity. }
  assert (Hfw : coalesce_forward (S (S fuel)) sh s hC
                = Ret (sh + t + 16, total) hD).
  { cbn [coalesce_forward].
    unfold bind at 1. unfold gets at 1.
    change (mem_max_addr hC) with (region_brk h - 1).
    destruct (Z.ltb_spec sh (region_brk h - 1)) as [_|]; [|lia].
    assert (Hvs : valid_addr hC sh = true).
    { replace sh with (su - 4) by (unfold sh, su; lia). exact Hvsh. }
    rewrite (bind_Ret _ _ _ _ _ (load_Ret sh hC Hvs)).
    rewrite (HtC sh) by (unfold sh; lia).
    rewrite Hsfree. change (negb (0 =? 0)) with false. cbv iota.
    rewrite (bind_Ret _ _ _ _ _ (load_Ret sh hC Hvs)).
    rewrite (HtC sh) by (unfold sh; lia). fold t. cbv zeta.
    rewrite Etot.
    destruct (Z.eqb_spec t 0) as [|_]; [contradiction|]. cbn [negb].
    unfold NEXT2INT. rewrite (bind_Ret _ _ _ _ _ Hrm).
    unfold FORWARDINT.
    apply coalesce_forward_stops.
    assert (Hmax : mem_max_addr hD = region_brk h - 1)
      by (unfold hD; destruct (n =? NULL); reflexivity).
    rewrite Hmax.
    apply orb_prop in Hafter as [Hle|Hal].
    - left. apply Z.leb_le in Hle. unfold FORWARDINT in Hle. lia.
    - unfold FORWARDINT in Hal.
      destruct (Z_le_dec (region_brk h - 1) (sh + t + 16)) as [Hle|Hgt];
        [left; exact Hle|].
      right. split.
      + rewrite HvD. unfold valid_addr.
        assert (Ha4 : (sh + t + 16) mod 4 = 0).
        { replace (sh + t + 16) with (ptr + total + 4 + 2 * 4)
            by (unfold sh, total; lia).
          rewrite Z_mod_plus_full. exact He3. }
        apply andb_true_intro; split; [apply andb_true_intro; split|].
        * apply Z.leb_le. unfold sh. lia.
        * apply Z.leb_le.
          pose proof (Z.div_mod (sh + t + 16) 4 ltac:(lia)).
          pose proof (Z.div_mod (region_brk h) 4 ltac:(lia)).
          lia.
        * apply Z.eqb_eq. exact Ha4.
      + assert (Ead : tag_at hD (sh + t + 16) = tag_at h (sh + t + 16)).
        { unfold hD.
          unfold cell, SIZE_OF_POINTER, sizeof_pointer, LISTLENGTH in *.
          rewrite tag_at_store_ne by (unfold sh; lia).
          destruct (Z.eqb_spec n NULL) as [|Hnz].
          - apply HtC; unfold sh; lia.
          - destruct Hnout as [|Hnout]; [contradiction|].
            rewrite tag_at_store_ne by (unfold sh, total in *; lia).
            apply HtC; unfold sh; lia. }
        rewrite Ead.
        apply negb_true_iff in Hal. apply Z.eqb_neq in Hal. exact Hal. }
  rewrite (bind_Ret _ _ _ _ _ Hfw). cbv beta iota zeta.
  replace (ptr - 12 + 8) with (ptr - 4) by lia.
  replace (ptr - 12 + 12) with ptr by lia.
  assert (Hset : set_info_free (ptr - 4) total hD = Ret tt hE).
  { rewrite set_info_free_Ret.
    - unfold SECONDINFOINT, PREVINT. rewrite Eft.
      replace (ptr - 4 - 4 + total + 12) with (ptr + total + 4) by lia. reflexivity.
    - rewrite HvD. exact Hhdr.
    - unfold SECONDINFOINT, PREVINT.
      replace (ptr - 4 - 4 + total + 12) with (ptr + total + 4) by lia.
      rewrite HvD. exact Hend. }
  rewrite (bind_Ret _ _ _ _ _ Hset). reflexivity.
Qed.

Lemma entry_clear_of_inv h e lo hi :
  entry_clear_of h e lo hi = true ->
  e = NULL
  \/ (valid_addr h (e - 4) = true /\ mm_start_brk h <= e - 4
      /\ (e - 4 < lo \/ hi < e - 4)).
Proof.
  unfold entry_clear_of, PREVINT. intros H.
  apply orb_prop in H as [H|H].
  - left. apply Z.eqb_eq. exact H.
  - right. apply andb_prop in H as [H Hout].
    apply andb_prop in H as [Hv Hz]. apply Z.leb_le in Hz.
    split; [exact Hv|]. split; [exact Hz|].
    apply orb_prop in Hout as [Hl|Hr]; [left; apply Z.ltb_lt | right; apply Z.ltb_lt];
      assumption.
Qed.

Lemma can_link_intro h ptr size :
  let index := bucket_index size in
  let head := head_cell h index in
  0 <= index < LISTLENGTH ->
  valid_addr h (seg_list h + SIZE_OF_POINTER * index) = true ->
  valid_addr h ptr = true ->
  valid_addr h (NEXTINT ptr) = true ->
  seg_list h + SIZE_OF_POINTER * LISTLENGTH <= ptr ->
  head = NULL
  \/ (valid_addr h (PREVINT head) = true
      /\ seg_list h + SIZE_OF_POINTER * LISTLENGTH <= PREVINT head) ->
  can_link h ptr size = true.
Proof.
  intros index head Hi Hc Hp Hn Ha Hh. unfold can_link.
  fold index. fold head.
  rewrite Hc, Hp, Hn.
  destruct (Z.leb_spec 0 index) as [_|]; [|lia].
  destruct (Z.ltb_spec index LISTLENGTH) as [_|]; [|lia].
  destruct (Z.leb_spec (seg_list h + SIZE_OF_POINTER * LISTLENGTH) ptr) as [_|]; [|lia].
  cbn [andb].
  destruct Hh as [E|[Hv Hz]].
  - apply orb_true_intro. left. apply Z.eqb_eq. exact E.
  - apply orb_true_intro. right. apply andb_true_intro. split; [exact Hv|].
    apply Z.leb_le. exact Hz.
Qed.

(** What [add_to_list_usr] changes: the head cell of the bucket, the two
    link words of the block and the prev slot of the old head. *)
Lemma add_to_list_usr_effect h ptr size :
  let index := bucket_index size in
  let cell := seg_list h + SIZE_OF_POINTER * index in
  let head := head_cell h index in
  size <> 0 ->
  can_link h ptr size = true ->
  0 <= ptr + 4 < Int32.modulus ->
  head <> ptr + 8 ->
  exists h',
    add_to_list_usr ptr size h = Ret tt h'
    /\ head_cell h' index = NEXTINT ptr
    /\ ptr_of_int (tag_at h' (NEXTINT ptr)) = head
    /\ region_brk h' = region_brk h
    /\ seg_list h' = seg_list h
    /\ (forall a, a <> cell -> a <> ptr -> a <> ptr + 4 ->
                  head = NULL \/ a <> head - 4 ->
                  tag_at h' a = tag_at h a).
Proof.
  intros index cell head Hsize Hcan Hp Hne.
  pose proof (add_to_list_usr_Ret h ptr size Hsize Hcan) as Hadd.
  cbv zeta in Hadd. fold index in Hadd. fold cell in Hadd. fold head in Hadd.
  pose proof (can_link_inv h ptr size Hcan) as (Hi & Hcell & Hvp & Hvn & Habove & Hhead).
  cbv zeta in Hhead. fold index in Hhead. fold head in Hhead. fold index in Hi.
  pose proof (head_cell_range h index) as Hhr. fold head in Hhr.
  unfold NEXTINT, PREVINT in *.
  assert (Hcz : cell < ptr /\ (head = NULL \/ cell < head - 4)).
  { unfold cell, SIZE_OF_POINTER, sizeof_pointer, LISTLENGTH in *.
    split; [lia|]. destruct Hhead as [E|[_ Hz]]; [left; exact E | right; lia]. }
  destruct Hcz as (Hcp & Hch).
  eexists. split; [exact Hadd|].
  split; [|split; [|split; [|split]]].
  - unfold head_cell.
    match goal with |- context [seg_list ?x] =>
      assert (Es : seg_list x = seg_list h)
        by (destruct (head =? NULL); reflexivity) end.
    rewrite Es. fold index. fold cell.
    rewrite tag_at_store_eq.
    apply ptr_of_int_signed. exact Hp.
  - rewrite tag_at_store_ne by lia.
    destruct (Z.eqb_spec head NULL) as [E0|Hnz].
    + rewrite tag_at_store_ne by lia. rewrite tag_at_store_eq.
      apply ptr_of_int_signed. exact Hhr.
    + rewrite tag_at_store_ne by lia.
      rewrite tag_at_store_ne by lia. rewrite tag_at_store_eq.
      apply ptr_of_int_signed. exact Hhr.
  - destruct (head =? NULL); reflexivity.
  - destruct (head =? NULL); reflexivity.
  - intros a Ha1 Ha2 Ha3 Ha4.
    rewrite tag_at_store_ne by (apply not_eq_sym; exact Ha1).
    destruct (Z.eqb_spec head NULL) as [E0|Hnz].
    + rewrite !tag_at_store_ne by (apply not_eq_sym; assumption). reflexivity.
    + destruct Ha4 as [|Ha4]; [contradiction|].
      rewrite !tag_at_store_ne by (apply not_eq_sym; assumption). reflexivity.
Qed.

(** X18. Freeing a block whose successor is free: when the block lies in
    the user zone, the word before it cannot be merged, the successor is a
    free block that is the first entry of the bucket of its payload, the
    word after the successor stops the forward walk, and the list entries
    the call relinks lie outside the two blocks, [mm_free] takes the
    successor out of its bucket and returns with one free block of payload
    s + t + 16: header and footer hold that size with the alloc bit clear,
    the block is the head of the bucket of that size, its next slot holds
    the entry that was the head there before (the entry after the
    successor, when the two buckets are the same), the bucket of the
    successor, when it is another one, starts at the entry after the
    successor, and the break stays where it was. *)
Theorem X18_mm_free_merges_with_a_free_successor
        (fuel : nat) (h : heap) (ptr : Z) :
  let s := GET_SIZE (tag_at h (PREVINT ptr)) in
  let su := ptr + s + 16 in
  let t := GET_SIZE (tag_at h (PREVINT su)) in
  let total := s + t + 16 in
  let n := ptr_of_int (tag_at h (NEXTINT su)) in
  let old_head := if bucket_index total =? bucket_index t then n
                  else head_cell h (bucket_index total) in
  (1 < fuel)%nat ->
  index_ready h = true ->
  valid_addr h (PREVINT ptr) = true ->
  8 <= s ->
  valid_addr h (ptr + s + 4) = true ->
  mm_start_brk h + 8 <= ptr ->
  only_successor_free h ptr = true ->
  0 < t ->
  is_first_entry h su t = true ->
  valid_addr h (ptr + total + 4) = true ->
  0 <= bucket_index total < LISTLENGTH ->
  entry_clear_of h n (PREVINT ptr) (ptr + total + 12) = true ->
  entry_clear_of h old_head (PREVINT ptr) (ptr + total + 12) = true ->
  exists h',
    mm_free fuel ptr h = Ret tt h'
    /\ tag_at h' (PREVINT ptr) = total
    /\ tag_at h' (ptr + total + 4) = total
    /\ is_free h' (PREVINT ptr) = true
    /\ head_cell h' (bucket_index total) = NEXTINT ptr
    /\ ptr_of_int (tag_at h' (NEXTINT ptr)) = old_head
    /\ (bucket_index total <> bucket_index t -> head_cell h' (bucket_index t) = n)
    /\ region_brk h' = region_brk h.
Proof.
  intros s su t total n old_head Hfuel Hr Hhdr Hs Hftr Hzone Honly Htpos Hfirst
         Hend Hidx Hnclear Hhclear.
  destruct fuel as [|[|f]]; [lia|lia|].
  unfold PREVINT, NEXTINT in *.
  assert (Et : t = GET_SIZE (tag_at h (ptr + s + 12))).
  { unfold t, su. f_equal. f_equal. lia. }
  clearbody t. subst t.
  set (t := GET_SIZE (tag_at h (ptr + s + 12))) in *.
  pose proof (entry_clear_of_inv _ _ _ _ Hnclear) as Hn.
  pose proof (entry_clear_of_inv _ _ _ _ Hhclear) as Hh.
  assert (Hnout : n = NULL \/ n - 4 < ptr - 4 \/ ptr + total + 12 < n - 4).
  { destruct Hn as [E|(_ & _ & Ho)]; [left; exact E | right; exact Ho]. }
  pose proof (mm_free_merge_run f h ptr Hr Hhdr Hs Hftr Hzone Honly Htpos Hfirst
                Hend Hnout) as Hrun.
  cbv zeta in Hrun. unfold PREVINT in Hrun.
  fold s in Hrun. fold t in Hrun. fold total in Hrun.
  replace (ptr + s + 16 + 4) with (su + 4) in Hrun by (unfold su; lia).
  fold n in Hrun.
  set (cellt := seg_list h + SIZE_OF_POINTER * bucket_index t) in *.
  set (next := tag_at h (su + 4)) in *.
  set (hC := set_mem_max_addr (region_brk h - 1)
               (set_mem (insert (ptr + s + 4) (Int32.signed s))
                  (set_mem (insert (ptr - 4) (Int32.signed s)) h))) in *.
  set (hD := set_mem (insert cellt (Int32.signed next))
               (if n =? NULL then hC
                else set_mem (insert (n - 4) (Int32.signed cellt)) hC)) in *.
  set (hE := set_mem (insert (ptr + total + 4) (Int32.signed total))
               (set_mem (insert (ptr - 4) (Int32.signed total)) hD)) in *.
  pose proof (index_ready_inv h Hr) as (H0 & H4 & Hsl & Hm & Hb & Hb4 & Hbs).
  pose proof (valid_addr_inv _ _ Hhdr) as (Hh1 & Hh2 & Hh3).
  pose proof (valid_addr_inv _ _ Hftr) as (Hf1 & Hf2 & Hf3).
  pose proof (valid_addr_inv _ _ Hend) as (He1 & He2 & He3).
  pose proof (is_first_entry_inv h su t Hfirst)
    as (Hit & _ & _ & _ & _ & _ & _).
  assert (Etot : Int32.signed total = total).
  { apply signed_small. unfold total, Int32.half_modulus in *. lia. }
  assert (Eev : GET_ALLOC total = 0 /\ True).
  { split; [|exact I]. unfold GET_ALLOC. rewrite land_1.
    pose proof (GET_SIZE_mod_2 (tag_at h (ptr - 4))) as Hs2. fold s in Hs2.
    pose proof (GET_SIZE_mod_2 (tag_at h (ptr + s + 12))) as Ht2. fold t in Ht2.
    pose proof (Z.div_mod s 2 ltac:(lia)). pose proof (Z.div_mod t 2 ltac:(lia)).
    unfold total. replace (s + t + 16) with ((s / 2 + t / 2 + 8) * 2) by lia.
    apply Z.mod_mul. lia. }
  destruct Eev as (Eev & _).
  assert (Htot : total = s + t + 16) by reflexivity.
  (* the fields and the words of the heap the insertion starts from *)
  assert (HfE : seg_list hE = seg_list h /\ region_brk hE = region_brk h
                /\ forall a, valid_addr hE a = valid_addr h a).
  { unfold hE, hD. destruct (n =? NULL); repeat split; reflexivity. }
  destruct HfE as (HslE & HbrkE & HvE).
  assert (HtE : forall a, a <> ptr - 4 -> a <> ptr + s + 4 -> a <> ptr + total + 4 ->
                          a <> cellt -> n = NULL \/ a <> n - 4 ->
                          tag_at hE a = tag_at h a).
  { intros a A1 A2 A3 A4 A5. unfold hE, hD.
    rewrite !tag_at_store_ne by (apply not_eq_sym; assumption).
    destruct (Z.eqb_spec n NULL) as [E0|Hnz].
    - unfold hC.
      change (tag_at (set_mem_max_addr (region_brk h - 1) ?x) a) with (tag_at x a).
      rewrite !tag_at_store_ne by (apply not_eq_sym; assumption). reflexivity.
    - destruct A5 as [|A5]; [contradiction|].
      rewrite tag_at_store_ne by (apply not_eq_sym; assumption).
      unfold hC.
      change (tag_at (set_mem_max_addr (region_brk h - 1) ?x) a) with (tag_at x a).
      rewrite !tag_at_store_ne by (apply not_eq_sym; assumption). reflexivity. }
  assert (HhdrE : tag_at hE (ptr - 4) = total).
  { unfold hE. rewrite tag_at_store_ne by (lia).
    rewrite tag_at_store_eq. exact Etot. }
  assert (HftrE : tag_at hE (ptr + total + 4) = total).
  { unfold hE. rewrite tag_at_store_eq. exact Etot. }
  assert (Hcells : forall j, 0 <= j < LISTLENGTH ->
                    seg_list h + SIZE_OF_POINTER * j + 4 <= mm_start_brk h
                    /\ region_lo h <= seg_list h + SIZE_OF_POINTER * j).
  { intros j Hj. unfold SIZE_OF_POINTER, sizeof_pointer, LISTLENGTH in *. lia. }
  pose proof (Hcells _ Hit) as (Hct1 & Hct2). fold cellt in Hct1, Hct2.
  pose proof (Hcells _ Hidx) as (Hci1 & Hci2).
  assert (HheadE : head_cell hE (bucket_index total) = old_head).
  { unfold head_cell. rewrite HslE. unfold old_head.
    destruct (Z.eqb_spec (bucket_index total) (bucket_index t)) as [Ei|Hni].
    - rewrite Ei. fold cellt. unfold hE.
      rewrite !tag_at_store_ne by (lia).
      unfold hD. rewrite tag_at_store_eq.
      unfold ptr_of_int. rewrite unsigned_signed. reflexivity.
    - rewrite HtE; [reflexivity|lia|lia|lia| |].
      + unfold cellt, SIZE_OF_POINTER, sizeof_pointer. lia.
      + destruct Hn as [E|(_ & Hz & _)]; [left; exact E | right; lia]. }
  assert (HcanE : can_link hE ptr total = true).
  { apply can_link_intro.
    - exact Hidx.
    - rewrite HvE, HslE. apply cell_valid; assumption.
    - rewrite HvE. unfold valid_addr.
      apply andb_true_intro; split; [apply andb_true_intro; split|].
      + apply Z.leb_le. lia.
      + apply Z.leb_le. lia.
      + apply Z.eqb_eq. replace ptr with (ptr - 4 + 1 * 4) by lia.
        rewrite Z_mod_plus_full. exact Hh3.
    - rewrite HvE. unfold valid_addr, NEXTINT.
      apply andb_true_intro; split; [apply andb_true_intro; split|].
      + apply Z.leb_le. lia.
      + apply Z.leb_le. lia.
      + apply Z.eqb_eq. replace (ptr + 4) with (ptr - 4 + 2 * 4) by lia.
        rewrite Z_mod_plus_full. exact Hh3.
    - rewrite HslE. lia.
    - rewrite HheadE, HslE. unfold PREVINT.
      destruct Hh as [E|(Hv & Hz & _)]; [left; exact E|].
      right. split; [rewrite HvE; exact Hv | lia]. }
  pose proof (add_to_list_usr_effect hE ptr total ltac:(lia) HcanE)
    as Heff.
  cbv zeta in Heff. rewrite HheadE, HslE in Heff.
  destruct Heff as (h' & Hadd & Hhead' & Hnext' & Hbrk' & Hsl' & Htags).
  { unfold Int32.modulus, Int32.half_modulus in *. lia. }
  { destruct Hh as [E|(_ & _ & Ho)]; [rewrite E; unfold NULL; lia|].
    lia. }
  unfold NEXTINT in *.
  assert (Hkeep : forall a, a = ptr - 4 \/ a = ptr + total + 4 ->
                            tag_at h' a = tag_at hE a).
  { intros a Ha. apply Htags.
    - destruct Ha; subst a; lia.
    - destruct Ha; subst a; lia.
    - destruct Ha; subst a; lia.
    - destruct Hh as [E|(_ & _ & Ho)]; [left; exact E|].
      right. destruct Ha; subst a; lia. }
  exists h'. split; [rewrite Hrun; exact Hadd|].
  split; [rewrite Hkeep by (left; reflexivity); exact HhdrE|].
  split; [rewrite Hkeep by (right; reflexivity); exact HftrE|].
  split.
  { unfold is_free. rewrite Hkeep by (left; reflexivity). rewrite HhdrE, Eev.
    reflexivity. }
  split; [exact Hhead'|].
  split; [exact Hnext'|].
  split; [|rewrite Hbrk'; exact HbrkE].
  intros Hni. unfold head_cell. rewrite Hsl'. fold cellt.
  assert (Hold : old_head = head_cell h (bucket_index total)).
  { unfold old_head. destruct (Z.eqb_spec (bucket_index total) (bucket_index t));
      [contradiction|reflexivity]. }
  rewrite Htags.
  - unfold hE. rewrite !tag_at_store_ne by (lia).
    unfold hD. rewrite tag_at_store_eq.
    unfold ptr_of_int. rewrite unsigned_signed. reflexivity.
  - unfold cellt, SIZE_OF_POINTER, sizeof_pointer. lia.
  - lia.
  - lia.
  - destruct Hh as [E|(_ & Hz & _)]; [left; exact E | right; lia].
Qed.

Lemma X18_witness :
  exists h',
    mm_free fuel0 65776 heap_last_freed = Ret tt h'
    /\ tag_at h' (PREVINT 65776) = 272
    /\ tag_at h' (65776 + 272 + 4) = 272
    /\ is_free h' (PREVINT 65776) = true
    /\ head_cell h' (bucket_index 272) = NEXTINT 65776
    /\ ptr_of_int (tag_at h' (NEXTINT 65776)) = NULL
    /\ (bucket_index 272 <> bucket_index 128 -> head_cell h' (bucket_index 128) = NULL)
    /\ region_brk h' = region_brk heap_last_freed.
Proof.
  apply (X18_mm_free_merges_with_a_free_successor fuel0 heap_last_freed 65776).
  - unfold fuel0. lia.
  - vm_compute. reflexivity.
  - vm_compute. reflexivity.
  - vm_compute. discriminate.
  - vm_compute. reflexivity.
  - vm_compute. discriminate.
  - vm_compute. reflexivity.
  - vm_compute. reflexivity.
  - vm_compute. reflexivity.
  - vm_compute. reflexivity.
  - vm_compute. split; [discriminate|reflexivity].
  - vm_compute. reflexivity.
  - vm_compute. reflexivity.
Defined.

(** ** What the calls leave alone *)

Create HintDb keeps.

Section Keeps.

Variable R : heap -> heap -> Prop.
Hypothesis R_refl : forall h, R h h.
Hypothesis R_trans : forall h1 h2 h3, R h1 h2 -> R h2 h3 -> R h1 h3.
Hypothesis R_mem : forall f h, R h (set_mem f h).
Hypothesis R_max : forall v h, R h (set_mem_max_addr v h).
Hypothesis R_brk : forall b h, region_brk h <= b -> R h (set_region_brk b h).
Hypothesis R_count : forall v h, R h (set_m_count v h).

Lemma keeps_ret {A} (a : A) : keeps R (ret a).
Proof. intros h a' h' H. apply ret_inv in H as [_ <-]. apply R_refl. Qed.

Lemma keeps_bind {A B} (m : M A) (k : A -> M B) :
  keeps R m -> (forall a, keeps R (k a)) -> keeps R (bind m k).
Proof.
  intros Hm Hk h b h' H. inv_bind H as a h1 E.
  exact (R_trans _ _ _ (Hm _ _ _ E) (Hk _ _ _ _ H)).
Qed.

Lemma keeps_fault {A} : keeps R (@fault A).
Proof. intros h a h' H. discriminate H. Qed.

Lemma keeps_out_of_fuel {A} : keeps R (@out_of_fuel A).
Proof. intros h a h' H. discriminate H. Qed.

Lemma keeps_exit {A} st : keeps R (@exit A st).
Proof. intros h a h' H. discriminate H. Qed.

Lemma keeps_before_exit {A B} (m : M A) st : keeps R (bind m (fun _ => @exit B st)).
Proof.
  intros h b h' H. unfold bind in H. destruct (m h); try discriminate H.
Qed.

Lemma keeps_gets {A} (f : heap -> A) : keeps R (gets f).
Proof. intros h a h' H. unfold gets in H. injection H as _ <-. apply R_refl. Qed.

Lemma keeps_load a : keeps R (load a).
Proof.
  intros h v h' H. unfold load in H.
  destruct (valid_addr h a); [|discriminate H]. injection H as _ <-. apply R_refl.
Qed.

Lemma keeps_store a v : keeps R (store a v).
Proof.
  intros h u h' H. unfold store in H.
  destruct (valid_addr h a); [|discriminate H]. injection H as _ <-. apply R_mem.
Qed.

Lemma keeps_load_byte a : keeps R (load_byte a).
Proof.
  intros h v h' H. unfold load_byte in H. cbv zeta in H.
  destruct (valid_addr h (a - a mod 4)); [|discriminate H].
  injection H as _ <-. apply R_refl.
Qed.

Lemma keeps_store_byte a b : keeps R (store_byte a b).
Proof.
  intros h u h' H. unfold store_byte in H. cbv zeta in H.
  destruct (valid_addr h (a - a mod 4)); [|discriminate H].
  injection H as _ <-. apply R_mem.
Qed.

Lemma keeps_set_max v : keeps R (modify (set_mem_max_addr v)).
Proof. intros h u h' H. unfold modify in H. injection H as _ <-. apply R_max. Qed.

Lemma keeps_set_count (f : heap -> Z) :
  keeps R (modify (fun h => set_m_count (f h) h)).
Proof. intros h u h' H. unfold modify in H. injection H as _ <-. apply R_count. Qed.

Lemma keeps_mem_sbrk incr : keeps R (mem_sbrk incr).
Proof.
  intros h v h' H. unfold mem_sbrk in H.
  destruct (Z.ltb_spec incr 0) as [|Hi]; cbn [orb] in H.
  - injection H as _ <-. apply R_refl.
  - destruct (region_max h <? region_brk h + incr).
    + injection H as _ <-. apply R_refl.
    + injection H as _ <-. apply R_brk. lia.
Qed.

#[local] Hint Resolve keeps_ret keeps_fault keeps_out_of_fuel keeps_exit
  keeps_before_exit keeps_gets keeps_load keeps_store keeps_load_byte
  keeps_store_byte keeps_set_max : keeps.

Ltac keeps_go :=
  repeat first
    [ solve [auto with keeps]
    | apply keeps_bind; [|intros]
    | match goal with
      | |- keeps _ (if ?c then _ else _) => destruct c
      | |- keeps _ (match ?r with _ => _ end) => destruct r
      end
    | progress cbv zeta ].

Lemma keeps_seg_list_get i : keeps R (seg_list_get i).
Proof. unfold seg_list_get. keeps_go. Qed.

Lemma keeps_seg_list_set i v : keeps R (seg_list_set i v).
Proof. unfold seg_list_set. keeps_go. Qed.

Lemma keeps_seg_list_addr i : keeps R (seg_list_addr i).
Proof. unfold seg_list_addr. keeps_go. Qed.

#[local] Hint Resolve keeps_seg_list_get keeps_seg_list_set keeps_seg_list_addr : keeps.

Lemma keeps_remove_entry p : keeps R (remove_entry p).
Proof. unfold remove_entry. keeps_go. Qed.

Lemma keeps_add_to_list_usr p size : keeps R (add_to_list_usr p size).
Proof. unfold add_to_list_usr. keeps_go. Qed.

Lemma keeps_set_info_free p size : keeps R (set_info_free p size).
Proof. unfold set_info_free. keeps_go. Qed.

#[local] Hint Resolve keeps_remove_entry keeps_add_to_list_usr keeps_set_info_free : keeps.

Lemma keeps_coalesce_backward fuel : forall p total, keeps R (coalesce_backward fuel p total).
Proof. induction fuel as [|f IH]; intros p total; cbn [coalesce_backward]; keeps_go. Qed.

Lemma keeps_coalesce_forward fuel : forall p total, keeps R (coalesce_forward fuel p total).
Proof. induction fuel as [|f IH]; intros p total; cbn [coalesce_forward]; keeps_go. Qed.

#[local] Hint Resolve keeps_coalesce_backward keeps_coalesce_forward : keeps.

Lemma keeps_coalesce fuel p : keeps R (coalesce fuel p).
Proof. unfold coalesce, mem_heap_hi. keeps_go. Qed.

#[local] Hint Resolve keeps_coalesce : keeps.

Lemma keeps_mm_free fuel p : keeps R (mm_free fuel p).
Proof. unfold mm_free. keeps_go. Qed.

#[local] Hint Resolve keeps_mm_free keeps_mem_sbrk keeps_set_count : keeps.

Lemma keeps_scan_bucket fuel : forall cs p, keeps R (scan_bucket fuel cs p).
Proof. induction fuel as [|f IH]; intros cs p; cbn [scan_bucket]; keeps_go. Qed.

#[local] Hint Resolve keeps_scan_bucket : keeps.

Lemma keeps_scan_lists fuel : forall cs i, keeps R (scan_lists fuel cs i).
Proof. induction fuel as [|f IH]; intros cs i; cbn [scan_lists]; keeps_go. Qed.

#[local] Hint Resolve keeps_scan_lists : keeps.

Lemma keeps_malloc_place fuel ns cs : keeps R (malloc_place fuel ns cs).
Proof. unfold malloc_place. keeps_go. Qed.

#[local] Hint Resolve keeps_malloc_place : keeps.

Lemma keeps_mm_malloc fuel : forall size, keeps R (mm_malloc fuel size).
Proof.
  induction fuel as [|f IH]; intros size; cbn [mm_malloc]; keeps_go.
  all: apply (keeps_set_count (fun _ => 1)).
Qed.

#[local] Hint Resolve keeps_mm_malloc : keeps.

Lemma keeps_check_last_usr p : keeps R (check_last_usr p).
Proof. unfold check_last_usr, mem_heap_hi. keeps_go. Qed.

Lemma keeps_realloc_backward fuel :
  forall p total ns, keeps R (realloc_backward fuel p total ns).
Proof. induction fuel as [|f IH]; intros p total ns; cbn [realloc_backward]; keeps_go. Qed.

Lemma keeps_realloc_forward fuel :
  forall p total ns, keeps R (realloc_forward fuel p total ns).
Proof. induction fuel as [|f IH]; intros p total ns; cbn [realloc_forward]; keeps_go. Qed.

Lemma keeps_realloc_remove_backward fuel :
  forall p size q, keeps R (realloc_remove_backward fuel p size q).
Proof.
  induction fuel as [|f IH]; intros p size q; cbn [realloc_remove_backward]; keeps_go.
Qed.

Lemma keeps_realloc_remove_forward fuel :
  forall p q, keeps R (realloc_remove_forward fuel p q).
Proof.
  induction fuel as [|f IH]; intros p q; cbn [realloc_remove_forward]; keeps_go.
Qed.

Lemma keeps_copy_bytes fuel : forall np op i n, keeps R (copy_bytes fuel np op i n).
Proof. induction fuel as [|f IH]; intros np op i n; cbn [copy_bytes]; keeps_go. Qed.

#[local] Hint Resolve keeps_check_last_usr keeps_realloc_backward
  keeps_realloc_forward keeps_realloc_remove_backward
  keeps_realloc_remove_forward keeps_copy_bytes : keeps.

Lemma keeps_mm_realloc fuel p size : keeps R (mm_realloc fuel p size).
Proof. unfold mm_realloc, mem_heap_hi. keeps_go. Qed.

Lemma keeps_list_traverse fuel : forall t c, keeps R (list_traverse fuel t c).
Proof. induction fuel as [|f IH]; intros t c; cbn [list_traverse]; keeps_go. Qed.

#[local] Hint Resolve keeps_list_traverse : keeps.

Lemma keeps_check_if_in_list_usr fuel p size :
  keeps R (check_if_in_list_usr fuel p size).
Proof. unfold check_if_in_list_usr. keeps_go. Qed.

End Keeps.

Lemma heap_frame_refl h : heap_frame h h.
Proof. unfold heap_frame. repeat split; lia. Qed.

Lemma heap_frame_trans h1 h2 h3 :
  heap_frame h1 h2 -> heap_frame h2 h3 -> heap_frame h1 h3.
Proof.
  unfold heap_frame.
  intros (A1 & A2 & A3 & A4 & A5 & A6 & A7) (B1 & B2 & B3 & B4 & B5 & B6 & B7).
  repeat split; try congruence. lia.
Qed.

Lemma free_frame_refl h : free_frame h h.
Proof. split; [apply heap_frame_refl | split; reflexivity]. Qed.

Lemma free_frame_trans h1 h2 h3 :
  free_frame h1 h2 -> free_frame h2 h3 -> free_frame h1 h3.
Proof.
  intros (A & A1 & A2) (B & B1 & B2).
  split; [exact (heap_frame_trans _ _ _ A B) | split; congruence].
Qed.



(** X20. [mm_malloc] never lowers the break and never touches the bounds
    of the region, the statics that locate the index and the user zone, or
    the output: this holds of every call that returns, whatever the size,
    the heap and the state of the primer. *)
Theorem X20_mm_malloc_never_lowers_the_break
        (fuel : nat) (size : Z) (h : heap) (p : Z) (h' : heap) :
  mm_malloc fuel size h = Ret p h' ->
  heap_frame h h'.
Proof.
  intros H.
  refine (keeps_mm_malloc heap_frame heap_frame_refl heap_frame_trans _ _ _ _
            fuel size h p h' H).
  - intros f h0. unfold heap_frame. cbn. repeat split; lia.
  - intros v h0. unfold heap_frame. cbn. repeat split; lia.
  - intros b h0 Hb. unfold heap_frame. cbn. repeat split; lia.
  - intros v h0. unfold heap_frame. cbn. repeat split; lia.
Qed.

Lemma X20_witness :
  heap_frame heap_one_free
    (heap_after (mm_malloc fuel0 4000 heap_one_free) heap_one_free).
Proof.
  apply (X20_mm_malloc_never_lowers_the_break fuel0 4000 heap_one_free 65776).
  vm_compute. reflexivity.
Defined.

(** X21. [mm_realloc] never lowers the break and never touches the bounds
    of the region or the statics that locate the index and the user zone,
    and a call that returns has printed nothing: this holds on every path,
    in place, by merging with neighbours, or by moving the block. *)
Theorem X21_mm_realloc_never_lowers_the_break
        (fuel : nat) (ptr size : Z) (h : heap) (p : Z) (h' : heap) :
  mm_realloc fuel ptr size h = Ret p h' ->
  heap_frame h h'.
Proof.
  intros H.
  refine (keeps_mm_realloc heap_frame heap_frame_refl heap_frame_trans _ _ _ _
            fuel ptr size h p h' H).
  - intros f h0. unfold heap_frame. cbn. repeat split; lia.
  - intros v h0. unfold heap_frame. cbn. repeat split; lia.
  - intros b h0 Hb. unfold heap_frame. cbn. repeat split; lia.
  - intros v h0. unfold heap_frame. cbn. repeat split; lia.
Qed.

Lemma X21_witness :
  heap_frame heap_three_blocks
    (heap_after (mm_realloc fuel0 65632 512 heap_three_blocks) heap_three_blocks).
Proof.
  apply (X21_mm_realloc_never_lowers_the_break fuel0 65632 512 heap_three_blocks 66064).
  vm_compute. reflexivity.
Defined.

(** ** Where the process can end *)

Lemma no_exit_ret {A} (a : A) : no_exit (ret a).
Proof. intros h. reflexivity. Qed.

Lemma no_exit_bind {A B} (m : M A) (k : A -> M B) :
  no_exit m -> (forall a, no_exit (k a)) -> no_exit (bind m k).
Proof.
  intros Hm Hk h. unfold bind. specialize (Hm h).
  destruct (m h) as [a h1|st h1| |]; [apply Hk|discriminate Hm|reflexivity|reflexivity].
Qed.

Lemma no_exit_fault {A} : no_exit (@fault A).
Proof. intros h. reflexivity. Qed.

Lemma no_exit_out_of_fuel {A} : no_exit (@out_of_fuel A).
Proof. intros h. reflexivity. Qed.

Lemma no_exit_gets {A} (f : heap -> A) : no_exit (gets f).
Proof. intros h. reflexivity. Qed.

Lemma no_exit_modify f : no_exit (modify f).
Proof. intros h. reflexivity. Qed.

Lemma no_exit_load a : no_exit (load a).
Proof. intros h. unfold load. destruct (valid_addr h a); reflexivity. Qed.

Lemma no_exit_store a v : no_exit (store a v).
Proof. intros h. unfold store. destruct (valid_addr h a); reflexivity. Qed.

Lemma no_exit_load_byte a : no_exit (load_byte a).
Proof.
  intros h. unfold load_byte. cbv zeta.
  destruct (valid_addr h (a - a mod 4)); reflexivity.
Qed.

Lemma no_exit_store_byte a b : no_exit (store_byte a b).
Proof.
  intros h. unfold store_byte. cbv zeta.
  destruct (valid_addr h (a - a mod 4)); reflexivity.
Qed.

Lemma no_exit_mem_sbrk incr : no_exit (mem_sbrk incr).
Proof.
  intros h. unfold mem_sbrk.
  destruct ((incr <? 0) || (region_max h <? region_brk h + incr)); reflexivity.
Qed.

Create HintDb no_exit.

#[local] Hint Resolve no_exit_ret no_exit_fault no_exit_out_of_fuel no_exit_gets
  no_exit_modify no_exit_load no_exit_store no_exit_load_byte no_exit_store_byte
  no_exit_mem_sbrk : no_exit.

Ltac no_exit_go :=
  repeat first
    [ solve [auto with no_exit]
    | apply no_exit_bind; [|intros]
    | match goal with
      | |- no_exit (if ?c then _ else _) => destruct c
      | |- no_exit (match ?r with _ => _ end) => destruct r
      end
    | progress cbv zeta ].

Lemma no_exit_seg_list_get i : no_exit (seg_list_get i).
Proof. unfold seg_list_get. no_exit_go. Qed.

Lemma no_exit_seg_list_set i v : no_exit (seg_list_set i v).
Proof. unfold seg_list_set. no_exit_go. Qed.

Lemma no_exit_seg_list_addr i : no_exit (seg_list_addr i).
Proof. unfold seg_list_addr. no_exit_go. Qed.

#[local] Hint Resolve no_exit_seg_list_get no_exit_seg_list_set
  no_exit_seg_list_addr : no_exit.

Lemma no_exit_remove_entry p : no_exit (remove_entry p).
Proof. unfold remove_entry. no_exit_go. Qed.

Lemma no_exit_add_to_list_usr p size : no_exit (add_to_list_usr p size).
Proof. unfold add_to_list_usr. no_exit_go. Qed.

Lemma no_exit_set_info_free p size : no_exit (set_info_free p size).
Proof. unfold set_info_free. no_exit_go. Qed.

#[local] Hint Resolve no_exit_remove_entry no_exit_add_to_list_usr
  no_exit_set_info_free : no_exit.

Lemma no_exit_coalesce_backward fuel :
  forall p total, no_exit (coalesce_backward fuel p total).
Proof. induction fuel as [|f IH]; intros p total; cbn [coalesce_backward]; no_exit_go. Qed.

Lemma no_exit_coalesce_forward fuel :
  forall p total, no_exit (coalesce_forward fuel p total).
Proof. induction fuel as [|f IH]; intros p total; cbn [coalesce_forward]; no_exit_go. Qed.

#[local] Hint Resolve no_exit_coalesce_backward no_exit_coalesce_forward : no_exit.

Lemma no_exit_mm_free fuel p : no_exit (mm_free fuel p).
Proof. unfold mm_free, coalesce, mem_heap_hi. no_exit_go. Qed.

#[local] Hint Resolve no_exit_mm_free : no_exit.

Lemma no_exit_scan_bucket fuel : forall cs p, no_exit (scan_bucket fuel cs p).
Proof. induction fuel as [|f IH]; intros cs p; cbn [scan_bucket]; no_exit_go. Qed.

#[local] Hint Resolve no_exit_scan_bucket : no_exit.

Lemma no_exit_scan_lists fuel : forall cs i, no_exit (scan_lists fuel cs i).
Proof. induction fuel as [|f IH]; intros cs i; cbn [scan_lists]; no_exit_go. Qed.

#[local] Hint Resolve no_exit_scan_lists : no_exit.

Lemma no_exit_malloc_place fuel ns cs : no_exit (malloc_place fuel ns cs).
Proof. unfold malloc_place. no_exit_go. Qed.

#[local] Hint Resolve no_exit_malloc_place : no_exit.

Lemma no_exit_mm_malloc fuel : forall size, no_exit (mm_malloc fuel size).
Proof. induction fuel as [|f IH]; intros size; cbn [mm_malloc]; no_exit_go. Qed.

#[local] Hint Resolve no_exit_mm_malloc : no_exit.

Lemma no_exit_check_last_usr p : no_exit (check_last_usr p).
Proof. unfold check_last_usr, mem_heap_hi. no_exit_go. Qed.

Lemma no_exit_realloc_backward fuel :
  forall p total ns, no_exit (realloc_backward fuel p total ns).
Proof. induction fuel as [|f IH]; intros p total ns; cbn [realloc_backward]; no_exit_go. Qed.

Lemma no_exit_realloc_forward fuel :
  forall p total ns, no_exit (realloc_forward fuel p total ns).
Proof. induction fuel as [|f IH]; intros p total ns; cbn [realloc_forward]; no_exit_go. Qed.

Lemma no_exit_realloc_remove_backward fuel :
  forall p size q, no_exit (realloc_remove_backward fuel p size q).
Proof.
  induction fuel as [|f IH]; intros p size q; cbn [realloc_remove_backward]; no_exit_go.
Qed.

Lemma no_exit_realloc_remove_forward fuel :
  forall p q, no_exit (realloc_remove_forward fuel p q).
Proof.
  induction fuel as [|f IH]; intros p q; cbn [realloc_remove_forward]; no_exit_go.
Qed.

Lemma no_exit_copy_bytes fuel : forall np op i n, no_exit (copy_bytes fuel np op i n).
Proof. induction fuel as [|f IH]; intros np op i n; cbn [copy_bytes]; no_exit_go. Qed.

#[local] Hint Resolve no_exit_check_last_usr no_exit_realloc_backward
  no_exit_realloc_forward no_exit_realloc_remove_backward
  no_exit_realloc_remove_forward no_exit_copy_bytes : no_exit.

Lemma bind_Exit_inv {A B} (m : M A) (k : A -> M B) h st h' :
  no_exit m ->
  bind m k h = Exit st h' ->
  exists a h1, m h = Ret a h1 /\ k a h1 = Exit st h'.
Proof.
  intros Hm H. unfold bind in H. specialize (Hm h).
  destruct (m h) as [a h1|st1 h1| |]; try discriminate.
  exists a, h1. split; [reflexivity | exact H].
Qed.

(** A call made of pieces that never end the process did not end it. *)
Ltac exit_absurd H :=
  exfalso;
  match type of H with
  | ?m ?h0 = Exit _ _ =>
      let Hne := fresh "Hne" in
      assert (Hne : no_exit m) by (unfold mem_heap_hi; no_exit_go);
      specialize (Hne h0); rewrite H in Hne; discriminate Hne
  end.

(** X22. Neither [mm_malloc] nor [mm_free] ends the process: whatever the
    arguments and the heap, no call reaches [exit]. *)
Theorem X22_mm_malloc_and_mm_free_never_exit
        (fuel : nat) (size ptr : Z) (h : heap) :
  is_exit (mm_malloc fuel size h) = false
  /\ is_exit (mm_free fuel ptr h) = false.
Proof.
  split; [apply no_exit_mm_malloc | apply no_exit_mm_free].
Qed.

(** X23. The one place where [mm_realloc] ends the process: if a call ends
    with [exit], then the status is 1, the pointer is not null, the size is
    not 0, the request for the missing bytes of the last block was answered
    by the failure value, and the heap the process ends in is the one that
    answer left, with the line "mem_sbrk failed" printed last. *)
Theorem X23_mm_realloc_exits_only_when_growth_fails
        (fuel : nat) (ptr size : Z) (h : heap) (st : Z) (h' : heap) :
  mm_realloc fuel ptr size h = Exit st h' ->
  st = 1
  /\ ptr <> NULL
  /\ size <> 0
  /\ check_last_usr ptr h = Ret 1 h
  /\ exists h1,
       mem_sbrk (Int32.signed (Int32.signed (ALIGN size)
                               - GET_SIZE (tag_at h (PREVINT ptr)))) h
       = Ret SBRK_FAILED h1
       /\ h' = print SbrkFailed h1.
Proof.
  intros H. unfold mm_realloc in H.
  apply bind_Exit_inv in H; [|apply no_exit_load].
  destruct H as (w0 & h1 & E0 & H).
  apply load_inv in E0 as (-> & -> & Hv). cbv zeta in H.
  apply bind_Exit_inv in H; [|apply no_exit_load].
  destruct H as (w1 & h1 & E1 & H).
  apply load_inv in E1 as (-> & -> & _).
  destruct (Z.eqb_spec ptr NULL) as [|Hptr]; [exit_absurd H|].
  destruct (Z.eqb_spec size 0) as [|Hsize]; [exit_absurd H|].
  destruct (GET_SIZE (tag_at h (PREVINT ptr)) =? Int32.signed (ALIGN size));
    [discriminate H|].
  destruct (GET_SIZE (tag_at h (PREVINT ptr))
            >=? Int32.signed (Int32.signed (ALIGN size) + 16));
    [exit_absurd H|].
  apply bind_Exit_inv in H.
  2:{ destruct (GET_SIZE (tag_at h (PREVINT ptr)) <? Int32.signed (ALIGN size));
      [apply no_exit_check_last_usr | apply no_exit_ret]. }
  destruct H as (last & h1 & El & H).
  destruct (GET_SIZE (tag_at h (PREVINT ptr)) <? Int32.signed (ALIGN size)) eqn:Elt.
  2:{ cbn [andb] in H. exit_absurd H. }
  cbn [andb] in H.
  assert (Hlast : h1 = h /\ (last = 1 \/ last = 0)).
  { unfold check_last_usr in El.
    inv_bind El as w h2 E2. apply load_inv in E2 as (-> & _ & _).
    inv_bind El as hi h3 E3. unfold mem_heap_hi, gets in E3. injection E3 as _ <-.
    destruct (_ >=? _); apply ret_inv in El as [<- <-]; auto. }
  destruct Hlast as (-> & Hl).
  destruct Hl as [-> | ->].
  2:{ change (negb (0 =? 0)) with false in H. cbv iota in H. exit_absurd H. }
  change (negb (1 =? 0)) with true in H. cbv iota in H.
  apply bind_Exit_inv in H; [|apply no_exit_mem_sbrk].
  destruct H as (tp & h2 & Es & H).
  destruct (Z.eqb_spec tp SBRK_FAILED) as [->|_]; [|exit_absurd H].
  unfold bind, printf, modify, exit in H. injection H as <- <-.
  split; [reflexivity|]. split; [exact Hptr|]. split; [exact Hsize|].
  split; [exact El|]. exists h2. split; [exact Es | reflexivity].
Qed.

Lemma X23_witness :
  1 = 1
  /\ 65632 <> NULL
  /\ 256 <> 0
  /\ check_last_usr 65632 heap_tight = Ret 1 heap_tight
  /\ exists h1,
       mem_sbrk (Int32.signed (Int32.signed (ALIGN 256)
                               - GET_SIZE (tag_at heap_tight (PREVINT 65632))))
                heap_tight
       = Ret SBRK_FAILED h1
       /\ print SbrkFailed heap_tight = print SbrkFailed h1.
Proof.
  apply (X23_mm_realloc_exits_only_when_growth_fails fuel0 65632 256 heap_tight 1
           (print SbrkFailed heap_tight)).
  vm_compute. reflexivity.
Defined.

(** ** The verdict of mm_check and the lines it prints *)

Lemma check_if_in_list_usr_same fuel p size h v h' :
  check_if_in_list_usr fuel p size h = Ret v h' -> h' = h.
Proof.
  intros H. symmetry.
  exact (keeps_check_if_in_list_usr eq (fun x => eq_refl)
           (fun x y z E1 E2 => eq_trans E1 E2) fuel p size h v h' H).
Qed.

Lemma judged_refl valid h : judged valid valid h h.
Proof. exists []. split; [rewrite app_nil_r; reflexivity | reflexivity]. Qed.

Lemma judged_trans v0 v1 v2 h0 h1 h2 :
  judged v0 v1 h0 h1 -> judged v1 v2 h1 h2 -> judged v0 v2 h0 h2.
Proof.
  intros (l1 & S1 & E1) (l2 & S2 & E2). exists (l1 ++ l2). split.
  - rewrite S2, S1. rewrite app_assoc. reflexivity.
  - rewrite E2, E1. unfold verdict. rewrite forallb_app.
    destruct (forallb is_tag_mismatch_line l1), (forallb is_tag_mismatch_line l2);
      reflexivity.
Qed.

(** A test of the checker that clears the flag and prints a line. *)
Lemma judged_flag (c : bool) d valid h v h' :
  is_tag_mismatch_line d = false ->
  (if c then (printf d;; ret 0) else ret valid) h = Ret v h' ->
  judged valid v h h'.
Proof.
  intros Hd H. destruct c.
  - unfold bind, printf, modify, ret in H. injection H as <- <-.
    exists [d]. split; [reflexivity|].
    unfold verdict. cbn [forallb]. rewrite Hd. reflexivity.
  - apply ret_inv in H as [<- <-]. apply judged_refl.
Qed.

Lemma judged_mismatch (c : bool) p valid h h' :
  (if c then printf (DifferentHeaderFooter p) else ret tt) h = Ret tt h' ->
  judged valid valid h h'.
Proof.
  intros H. destruct c.
  - unfold printf, modify in H. injection H as <-.
    exists [DifferentHeaderFooter p]. split; reflexivity.
  - apply ret_inv in H as [_ <-]. apply judged_refl.
Qed.

Lemma check_by_address_judged fuel :
  forall t high prev valid h v h',
    check_by_address fuel t high prev valid h = Ret v h' ->
    judged valid v h h'.
Proof.
  induction fuel as [|f IH]; intros t high prev valid h v h' H; [discriminate|].
  cbn [check_by_address] in H.
  destruct (_ <? _).
  2:{ apply ret_inv in H as [<- <-]. apply judged_refl. }
  inv_bind H as w h1 E1. apply load_inv in E1 as (-> & _ & _).
  inv_bind H as pv h2 E2.
  destruct pv as [prev' valid'].
  assert (J12 : judged valid valid' h h2).
  { destruct (negb (GET_ALLOC w =? 0)).
    - apply ret_inv in E2 as [E <-]. injection E as _ <-. apply judged_refl.
    - inv_bind E2 as v1 k1 F1. apply judged_flag in F1; [|reflexivity].
      inv_bind E2 as w' k2 F2. apply load_inv in F2 as (-> & _ & _).
      inv_bind E2 as fd k3 F3. apply check_if_in_list_usr_same in F3. subst k3.
      inv_bind E2 as v2 k4 F4. apply judged_flag in F4; [|reflexivity].
      apply ret_inv in E2 as [E <-]. injection E as _ <-.
      exact (judged_trans _ _ _ _ _ _ F1 F4). }
  inv_bind H as w2 h3 E3. apply load_inv in E3 as (-> & _ & _).
  inv_bind H as hd h4 E4. apply load_inv in E4 as (-> & _ & _).
  inv_bind H as ft h5 E5. apply load_inv in E5 as (-> & _ & _).
  inv_bind H as u h6 E6. destruct u.
  apply (judged_mismatch _ _ valid') in E6.
  apply IH in H.
  exact (judged_trans _ _ _ _ _ _ J12 (judged_trans _ _ _ _ _ _ E6 H)).
Qed.

Lemma check_bucket_judged fuel :
  forall t valid h v h',
    check_bucket fuel t valid h = Ret v h' -> judged valid v h h'.
Proof.
  induction fuel as [|f IH]; intros t valid h v h' H; [discriminate|].
  cbn [check_bucket] in H.
  destruct (negb (t =? NULL)).
  2:{ apply ret_inv in H as [<- <-]. apply judged_refl. }
  inv_bind H as w h1 E1. apply load_inv in E1 as (-> & _ & _).
  inv_bind H as v1 h2 E2. apply judged_flag in E2; [|reflexivity].
  inv_bind H as nx h3 E3. apply load_inv in E3 as (-> & _ & _).
  apply IH in H. exact (judged_trans _ _ _ _ _ _ E2 H).
Qed.

Lemma check_by_list_judged fuel :
  forall i valid h v h',
    check_by_list fuel i valid h = Ret v h' -> judged valid v h h'.
Proof.
  induction fuel as [|f IH]; intros i valid h v h' H; [discriminate|].
  cbn [check_by_list] in H.
  destruct (_ <? _).
  2:{ apply ret_inv in H as [<- <-]. apply judged_refl. }
  inv_bind H as hd h1 E1. apply seg_list_get_inv in E1 as (-> & _ & _).
  destruct (hd =? NULL); [exact (IH _ _ _ _ _ H)|].
  inv_bind H as hd' h2 E2. apply seg_list_get_inv in E2 as (-> & _ & _).
  inv_bind H as v1 h3 E3. apply check_bucket_judged in E3.
  apply IH in H. exact (judged_trans _ _ _ _ _ _ E3 H).
Qed.

(** X24. The verdict of [mm_check] and its output agree: a call that
    returns 1 has printed nothing but lines about a header that differs
    from its footer (which do not count against the heap), and a call that
    returns 0 has printed "invalid" as its last line; no other value is
    returned. *)
Theorem X24_mm_check_verdict_matches_its_output
        (fuel : nat) (h : heap) (v : Z) (h' : heap) :
  mm_check fuel h = Ret v h' ->
  exists l,
    stdout h' = stdout h ++ l
    /\ ((v = 1 /\ forallb is_tag_mismatch_line l = true)
        \/ (v = 0 /\ exists l0, l = l0 ++ [Invalid]
                                /\ forallb is_tag_mismatch_line l0 = false)).
Proof.
  intros H. unfold mm_check in H.
  inv_bind H as st h1 E1. unfold gets in E1. injection E1 as _ <-.
  inv_bind H as hi h2 E2. unfold mem_heap_hi, gets in E2. injection E2 as _ <-.
  inv_bind H as v1 h3 E3. apply check_by_address_judged in E3.
  inv_bind H as v2 h4 E4. apply check_by_list_judged in E4.
  destruct (judged_trans _ _ _ _ _ _ E3 E4) as (l & Hl & Hv).
  unfold verdict in Hv.
  destruct (forallb is_tag_mismatch_line l) eqn:Eall; subst v2.
  - change (negb (1 =? 0)) with true in H. cbv iota in H.
    apply ret_inv in H as [<- <-].
    exists l. split; [exact Hl|]. left. split; [reflexivity | exact Eall].
  - change (negb (0 =? 0)) with false in H. cbv iota in H.
    unfold bind, printf, modify, ret in H. injection H as <- <-.
    exists (l ++ [Invalid]). split.
    + cbn [stdout print]. rewrite Hl. rewrite app_assoc. reflexivity.
    + right. split; [reflexivity|]. exists l. split; [reflexivity | exact Eall].
Qed.

Lemma X24_witness :
  exists l,
    stdout (heap_after
              (mm_check fuel0 (heap_after (shrink_before_free_block region0) region0))
              region0)
    = stdout (heap_after (shrink_before_free_block region0) region0) ++ l
    /\ ((0 = 1 /\ forallb is_tag_mismatch_line l = true)
        \/ (0 = 0 /\ exists l0, l = l0 ++ [Invalid]
                                /\ forallb is_tag_mismatch_line l0 = false)).
Proof.
  apply (X24_mm_check_verdict_matches_its_output fuel0
           (heap_after (shrink_before_free_block region0) region0) 0).
  vm_compute. reflexivity.
Defined.

(** ** mm_malloc: splitting a larger block *)

Lemma valid_addr_intro h a :
  region_lo h <= a -> a + 4 <= region_brk h -> a mod 4 = 0 ->
  valid_addr h a = true.
Proof.
  intros H1 H2 H3. unfold valid_addr.
  apply andb_true_intro; split; [apply andb_true_intro; split|].
  - apply Z.leb_le. exact H1.
  - apply Z.leb_le. exact H2.
  - apply Z.eqb_eq. exact H3.
Qed.

Lemma bucket_index_mono s t :
  0 < s <= t -> t < Int32.half_modulus -> bucket_index s <= bucket_index t.
Proof.
  intros Hs Ht.
  rewrite (bucket_index_log2 s) by lia.
  rewrite (bucket_index_log2 t) by lia.
  pose proof (Z.log2_le_mono s t ltac:(lia)). lia.
Qed.

Lemma buckets_empty_between_inv h i j k :
  buckets_empty_between h i j = true -> i <= k < j -> head_cell h k = NULL.
Proof.
  unfold buckets_empty_between. intros Hall Hk.
  rewrite forallb_forall in Hall.
  specialize (Hall (Z.to_nat (k - i))).
  rewrite Z2Nat.id in Hall by lia.
  replace (i + (k - i)) with k in Hall by lia.
  apply Z.eqb_eq. apply Hall. apply in_seq. lia.
Qed.

(** The search passes over buckets whose head is null. *)
Lemma scan_lists_skip k :
  forall i m h c,
    (1 <= m)%nat -> 0 <= i -> i + Z.of_nat k <= LISTLENGTH ->
    index_ready h = true ->
    (forall j, i <= j < i + Z.of_nat k -> head_cell h j = NULL) ->
    scan_lists (k + m) c i h = scan_lists m c (i + Z.of_nat k) h.
Proof.
  induction k as [|k IH]; intros i m h c Hm Hi Hk Hr He.
  - cbn [Nat.add]. change (Z.of_nat 0) with 0. rewrite Z.add_0_r. reflexivity.
  - cbn [Nat.add scan_lists].
    destruct (Z.ltb_spec i LISTLENGTH); [|lia].
    assert (Hir : 0 <= i < LISTLENGTH) by lia.
    rewrite (bind_Ret _ _ _ _ _ (seg_list_get_Ret i h Hir (cell_valid h i Hr Hir))).
    rewrite (He i) by lia.
    assert (Eb : scan_bucket (k + m) c NULL h = Ret None h).
    { destruct (k + m)%nat eqn:E; [lia|]. reflexivity. }
    rewrite (bind_Ret _ _ _ _ _ Eb).
    replace (i + Z.of_nat (S k)) with (i + 1 + Z.of_nat k) by lia.
    apply IH; try assumption; try lia.
    intros j Hj. apply He. lia.
Qed.

Lemma free_frame_mem f h : free_frame h (set_mem f h).
Proof.
  split; [|split; reflexivity]. unfold heap_frame. cbn. repeat split; lia.
Qed.

Lemma free_frame_max v h : free_frame h (set_mem_max_addr v h).
Proof.
  split; [|split; reflexivity]. unfold heap_frame. cbn. repeat split; lia.
Qed.

Lemma add_to_list_usr_valid p size h h' :
  add_to_list_usr p size h = Ret tt h' ->
  region_brk h' = region_brk h /\ forall a, valid_addr h' a = valid_addr h a.
Proof.
  intros H.
  pose proof (keeps_add_to_list_usr free_frame free_frame_refl free_frame_trans
                free_frame_mem p size h tt h' H) as ((Hlo & _) & Hbrk & _).
  split; [exact Hbrk|]. intros a. unfold valid_addr. rewrite Hlo, Hbrk. reflexivity.
Qed.

(** The placement step on a heap where the first bucket with an entry, from
    the bucket of the request on, begins with a block that exceeds the
    request by 16 or more: the block is unlinked, its rest tagged free and
    handed to [add_to_list_usr], and then the allocated tags are written. *)
Lemma malloc_place_split_hit k fuel h ptr cs newsize hL :
  let old := GET_SIZE (tag_at h (PREVINT ptr)) in
  let rest := old - cs - 16 in
  let tail := ptr + cs + 16 in
  let cell := seg_list h + SIZE_OF_POINTER * bucket_index old in
  let n := ptr_of_int (tag_at h (NEXTINT ptr)) in
  let hB := set_mem (insert cell (Int32.signed (tag_at h (NEXTINT ptr))))
              (if n =? NULL then h
               else set_mem (insert (PREVINT n) (Int32.signed cell)) h) in
  let hS := set_mem (insert (ptr + old + 4) (Int32.signed rest))
              (set_mem (insert (ptr + cs + 12) (Int32.signed rest)) hB) in
  index_ready h = true ->
  8 <= cs -> cs mod 4 = 0 ->
  cs + 16 <= old ->
  0 <= bucket_index cs ->
  bucket_index cs + Z.of_nat k = bucket_index old ->
  (forall j, bucket_index cs <= j < bucket_index old -> head_cell h j = NULL) ->
  is_first_entry h ptr old = true ->
  valid_addr h (ptr + old + 4) = true ->
  mm_start_brk h + 8 <= ptr ->
  add_to_list_usr tail rest hS = Ret tt hL ->
  malloc_place (k + S (S fuel)) newsize cs h
  = Ret ptr
        (set_mem (insert (ptr + cs + 4) (Int32.signed (SET_ALLOC_VAL cs)))
           (set_mem (insert (PREVINT ptr) (Int32.signed (SET_ALLOC_VAL cs))) hL)).
Proof.
  intros old rest tail cell n hB hS Hr Hcs Hcs4 Hbig Hi0 Hk Hempty Hfirst Hftr Hzone Hadd.
  pose proof (index_ready_inv h Hr) as (H0 & H4 & Hsl & Hm & Hb & Hb4 & Hbs).
  pose proof (is_first_entry_inv h ptr old Hfirst)
    as (Hi & Hhead & Hvh & Hvp & Hvn & Hprev & Hn).
  cbv zeta in Hprev, Hn. fold cell in Hprev. fold n in Hn.
  pose proof (cell_valid h _ Hr Hi) as Hvc. fold cell in Hvc.
  pose proof (valid_addr_inv _ _ Hvn) as (Hn1 & Hn2 & Hn3).
  pose proof (valid_addr_inv _ _ Hvh) as (Hh1 & Hh2 & Hh3).
  pose proof (valid_addr_inv _ _ Hftr) as (Hf1 & Hf2 & Hf3).
  assert (Hcellr : 0 <= cell < Int32.half_modulus /\ cell + 4 <= mm_start_brk h).
  { unfold cell, SIZE_OF_POINTER, sizeof_pointer, LISTLENGTH in *.
    unfold Int32.half_modulus in *. lia. }
  destruct Hcellr as (Hc1 & Hc2).
  unfold NEXTINT, PREVINT, NEXT2INT in *.
  assert (Hold : old < Int32.half_modulus) by (unfold Int32.half_modulus in *; lia).
  assert (Esr : Int32.signed rest = rest).
  { apply signed_small. unfold rest, Int32.half_modulus in *. lia. }
  assert (Hr2 : rest mod 2 = 0).
  { unfold rest.
    pose proof (GET_SIZE_mod_2 (tag_at h (ptr - 4))) as Ho2. fold old in Ho2.
    pose proof (Z.div_mod old 2 ltac:(lia)).
    pose proof (Z.div_mod cs 4 ltac:(lia)).
    replace (old - cs - 16) with ((old / 2 - 2 * (cs / 4) - 8) * 2) by lia.
    apply Z.mod_mul. lia. }
  assert (Efree : SET_FREE_VAL rest = rest).
  { rewrite SET_FREE_VAL_size by (unfold Int32.half_modulus, rest in *; lia).
    apply GET_SIZE_even. exact Hr2. }
  unfold malloc_place. change (count_bits cs - 4) with (bucket_index cs).
  assert (Hrm : remove_entry (ptr + 4) h = Ret tt hB).
  { pose proof (remove_entry_head h (ptr + 4) cell) as Hre. cbv zeta in Hre.
    replace (ptr + 4 - 4) with ptr in Hre by lia. fold n in Hre.
    apply Hre; try assumption.
    - destruct Hn as [E|[Hv _]]; [left; exact E | right; exact Hv].
    - destruct Hn as [E|[_ Hd]]; [rewrite E; unfold NULL; lia | lia]. }
  assert (HvB : forall a, valid_addr hB a = valid_addr h a).
  { intros a. unfold hB. destruct (n =? NULL); reflexivity. }
  assert (Hset : set_info_free (tail - 4) rest hB = Ret tt hS).
  { rewrite set_info_free_Ret.
    - unfold SECONDINFOINT, PREVINT. rewrite Efree.
      replace (tail - 4 - 4 + rest + 12) with (ptr + old + 4) by (unfold tail, rest; lia).
      replace (tail - 4) with (ptr + cs + 12) by (unfold tail; lia). reflexivity.
    - rewrite HvB. apply valid_addr_intro; unfold tail; try lia.
      replace (ptr + cs + 16 - 4) with (ptr - 4 + (cs + 4 * 4)) by lia.
      rewrite Z.add_mod, Hh3 by lia. rewrite Z_mod_plus_full, Hcs4. reflexivity.
    - unfold SECONDINFOINT, PREVINT.
      replace (tail - 4 - 4 + rest + 12) with (ptr + old + 4) by (unfold tail, rest; lia).
      rewrite HvB. exact Hftr. }
  assert (Hscan : scan_lists (k + S (S fuel)) cs (bucket_index cs) h
                  = Ret (Some (ptr - 8)) hL).
  { rewrite scan_lists_skip; try assumption; try lia.
    2:{ intros j Hj. apply Hempty. lia. }
    rewrite Hk. cbn [scan_lists].
    destruct (Z.ltb_spec (bucket_index old) LISTLENGTH) as [_|]; [|lia].
    rewrite (bind_Ret _ _ _ _ _ (seg_list_get_Ret _ h Hi Hvc)).
    rewrite Hhead.
    assert (Hb2 : scan_bucket (S fuel) cs (ptr + 4) h = Ret (Some (ptr - 8)) hL).
    { cbn [scan_bucket].
      destruct (Z.eqb_spec (ptr + 4) NULL) as [E|_]; [unfold NULL in E; lia|].
      unfold PREV2INT, PREV3INT.
      replace (ptr + 4 - 8) with (ptr - 4) by lia.
      rewrite (bind_Ret _ _ _ _ _ (load_Ret (ptr - 4) h Hvh)).
      fold old. cbv zeta.
      rewrite (signed_small (old - cs)) by (unfold Int32.half_modulus in *; lia).
      destruct (Z.eqb_spec (old - cs) 0) as [|_]; [lia|].
      destruct (Z.geb_spec (old - cs) 16) as [_|]; [|lia].
      rewrite (bind_Ret _ _ _ _ _ Hrm).
      fold rest. rewrite Esr.
      unfold DIVUSRPTR, PREVINT.
      replace (ptr + 4 + cs + 16 - 4) with tail by (unfold tail; lia).
      rewrite (bind_Ret _ _ _ _ _ Hset).
      rewrite (bind_Ret _ _ _ _ _ Hadd).
      replace (ptr + 4 - 12) with (ptr - 8) by lia. reflexivity. }
    rewrite (bind_Ret _ _ _ _ _ Hb2). reflexivity. }
  rewrite (bind_Ret _ _ _ _ _ Hscan).
  rewrite (bind_Ret _ _ _ _ _ (eq_refl : ret (ptr - 8) hL = Ret (ptr - 8) hL)).
  destruct (Z.eqb_spec (ptr - 8) SBRK_FAILED) as [E|_].
  { unfold Int32.half_modulus in Hbs.
    change SBRK_FAILED with 4294967295 in E. lia. }
  destruct (add_to_list_usr_valid _ _ _ _ Hadd) as (_ & HvL).
  assert (HvS : forall a, valid_addr hS a = valid_addr h a).
  { intros a. unfold hS. apply HvB. }
  unfold NEXTINT, SECONDINFOINT.
  replace (ptr - 8 + 4) with (ptr - 4) by lia.
  replace (ptr - 8 + cs + 12) with (ptr + cs + 4) by lia.
  assert (Hv1 : valid_addr hL (ptr - 4) = true) by (rewrite HvL, HvS; exact Hvh).
  rewrite (bind_Ret _ _ _ _ _ (store_Ret (ptr - 4) (SET_ALLOC_VAL cs) hL Hv1)).
  erewrite bind_Ret.
  2:{ apply store_Ret.
      change (valid_addr hL (ptr + cs + 4) = true). rewrite HvL, HvS.
      apply valid_addr_intro; try lia.
      replace (ptr + cs + 4) with (ptr - 4 + (cs + 2 * 4)) by lia.
      rewrite Z.add_mod, Hh3 by lia. rewrite Z_mod_plus_full, Hcs4. reflexivity. }
  unfold ret. change SIZE_OF_SIZE_T with 8.
  replace (ptr - 8 + 8) with ptr by lia. reflexivity.
Qed.

Lemma malloc_place_split_effect k fuel h ptr cs newsize :
  let old := GET_SIZE (tag_at h (PREVINT ptr)) in
  let rest := old - cs - 16 in
  let tail := ptr + cs + 16 in
  let n := ptr_of_int (tag_at h (NEXTINT ptr)) in
  let old_head := if bucket_index rest =? bucket_index old then n
                  else head_cell h (bucket_index rest) in
  index_ready h = true ->
  8 <= cs -> cs mod 8 = 0 ->
  cs + 16 <= old ->
  bucket_index cs + Z.of_nat k = bucket_index old ->
  buckets_empty_between h (bucket_index cs) (bucket_index old) = true ->
  is_first_entry h ptr old = true ->
  valid_addr h (ptr + old + 4) = true ->
  mm_start_brk h + 8 <= ptr ->
  entry_clear_of h n (PREVINT ptr) (ptr + old + 4) = true ->
  rest = 0
  \/ (8 <= rest /\ entry_clear_of h old_head (PREVINT ptr) (ptr + old + 4) = true) ->
  exists h',
    malloc_place (k + S (S fuel)) newsize cs h = Ret ptr h'
    /\ tag_at h' (PREVINT ptr) = SET_ALLOC_VAL cs
    /\ tag_at h' (ptr + cs + 4) = SET_ALLOC_VAL cs
    /\ tag_at h' (ptr + cs + 12) = rest
    /\ tag_at h' (ptr + old + 4) = rest
    /\ (rest <> 0 ->
        head_cell h' (bucket_index rest) = NEXTINT tail
        /\ ptr_of_int (tag_at h' (NEXTINT tail)) = old_head)
    /\ region_brk h' = region_brk h.
Proof.
  intros old rest tail n old_head Hr Hcs Hcs8 Hbig Hk Hbetween Hfirst Hftr Hzone
         Hnclear Hrest.
  pose proof (index_ready_inv h Hr) as (H0 & H4 & Hsl & Hm & Hb & Hb4 & Hbs).
  pose proof (is_first_entry_inv h ptr old Hfirst)
    as (Hi & _ & Hvh & _ & _ & _ & _).
  pose proof (valid_addr_inv _ _ Hvh) as (Hh1 & Hh2 & Hh3).
  pose proof (valid_addr_inv _ _ Hftr) as (Hf1 & Hf2 & Hf3).
  pose proof (entry_clear_of_inv _ _ _ _ Hnclear) as Hn.
  unfold PREVINT, NEXTINT in *.
  assert (Hcs4 : cs mod 4 = 0).
  { pose proof (Z.div_mod cs 8 ltac:(lia)) as Hd. rewrite Hcs8 in Hd.
    replace cs with ((2 * (cs / 8)) * 4) by lia. apply Z.mod_mul. lia. }
  assert (Hcs2 : cs mod 2 = 0).
  { pose proof (Z.div_mod cs 8 ltac:(lia)) as Hd. rewrite Hcs8 in Hd.
    replace cs with ((4 * (cs / 8)) * 2) by lia. apply Z.mod_mul. lia. }
  assert (Hold : old < Int32.half_modulus) by (unfold Int32.half_modulus in *; lia).
  assert (Hi0 : 0 <= bucket_index cs).
  { apply bucket_index_nonneg. lia. }
  assert (Hrest0 : 0 <= rest) by (unfold rest; lia).
  assert (Htot : rest = old - cs - 16) by reflexivity.
  assert (Ett : tail = ptr + cs + 16) by reflexivity.
  assert (Esr : Int32.signed rest = rest).
  { apply signed_small. unfold Int32.half_modulus in *. lia. }
  assert (Htag : Int32.signed (SET_ALLOC_VAL cs) = SET_ALLOC_VAL cs).
  { unfold SET_ALLOC_VAL. rewrite lor_1_even by exact Hcs2.
    apply signed_small. unfold Int32.half_modulus in *. lia. }
  set (cell := seg_list h + SIZE_OF_POINTER * bucket_index old) in *.
  set (next := tag_at h (ptr + 4)) in *.
  set (hB := set_mem (insert cell (Int32.signed next))
               (if n =? NULL then h
                else set_mem (insert (n - 4) (Int32.signed cell)) h)).
  set (hS := set_mem (insert (ptr + old + 4) (Int32.signed rest))
               (set_mem (insert (ptr + cs + 12) (Int32.signed rest)) hB)).
  assert (Hplace : forall hL, add_to_list_usr tail rest hS = Ret tt hL ->
            malloc_place (k + S (S fuel)) newsize cs h
            = Ret ptr
                (set_mem (insert (ptr + cs + 4) (Int32.signed (SET_ALLOC_VAL cs)))
                   (set_mem (insert (ptr - 4) (Int32.signed (SET_ALLOC_VAL cs))) hL))).
  { intros hL Hadd.
    apply (malloc_place_split_hit k fuel h ptr cs newsize hL); try assumption.
    intros j Hj. exact (buckets_empty_between_inv h _ _ j Hbetween Hj). }
  assert (HfS : seg_list hS = seg_list h /\ region_brk hS = region_brk h
                /\ forall a, valid_addr hS a = valid_addr h a).
  { unfold hS, hB. destruct (n =? NULL); repeat split; reflexivity. }
  destruct HfS as (HslS & HbrkS & HvS).
  assert (HtS : forall a, a <> ptr + cs + 12 -> a <> ptr + old + 4 ->
                          a <> cell -> n = NULL \/ a <> n - 4 ->
                          tag_at hS a = tag_at h a).
  { intros a A1 A2 A3 A4. unfold hS, hB.
    rewrite !tag_at_store_ne by (apply not_eq_sym; assumption).
    destruct (Z.eqb_spec n NULL) as [E0|Hnz]; [reflexivity|].
    destruct A4 as [|A4]; [contradiction|].
    rewrite tag_at_store_ne by (apply not_eq_sym; assumption). reflexivity. }
  assert (HrS : tag_at hS (ptr + cs + 12) = rest /\ tag_at hS (ptr + old + 4) = rest).
  { unfold hS. split.
    - rewrite tag_at_store_ne by lia. rewrite tag_at_store_eq. exact Esr.
    - rewrite tag_at_store_eq. exact Esr. }
  destruct HrS as (HrS1 & HrS2).
  destruct (Z.eq_dec rest 0) as [Ez|Hnz].
  - (* nothing is inserted *)
    assert (Hadd : add_to_list_usr tail rest hS = Ret tt hS).
    { unfold add_to_list_usr. rewrite Ez. reflexivity. }
    eexists. split; [exact (Hplace hS Hadd)|].
    split; [rewrite tag_at_store_ne by lia; rewrite tag_at_store_eq; exact Htag|].
    split; [rewrite tag_at_store_eq; exact Htag|].
    split; [rewrite !tag_at_store_ne by lia; exact HrS1|].
    split; [rewrite !tag_at_store_ne by lia; exact HrS2|].
    split; [intros Habs; contradiction|].
    exact HbrkS.
  - destruct Hrest as [|(Hr8 & Hhclear)]; [contradiction|].
    pose proof (entry_clear_of_inv _ _ _ _ Hhclear) as Hh.
    assert (Hir : 0 <= bucket_index rest < LISTLENGTH).
    { split.
      - apply bucket_index_nonneg. lia.
      - pose proof (bucket_index_mono rest old ltac:(lia) Hold). lia. }
    assert (Hcells : forall j, 0 <= j < LISTLENGTH ->
                      seg_list h + SIZE_OF_POINTER * j + 4 <= mm_start_brk h).
    { intros j Hj. unfold SIZE_OF_POINTER, sizeof_pointer, LISTLENGTH in *. lia. }
    pose proof (Hcells _ Hi) as Hct. fold cell in Hct.
    pose proof (Hcells _ Hir) as Hcr.
    assert (HheadS : head_cell hS (bucket_index rest) = old_head).
    { unfold head_cell. rewrite HslS. unfold old_head.
      destruct (Z.eqb_spec (bucket_index rest) (bucket_index old)) as [Ei|Hni].
      - rewrite Ei. fold cell. unfold hS.
        rewrite !tag_at_store_ne by lia.
        unfold hB. rewrite tag_at_store_eq.
        unfold ptr_of_int. rewrite unsigned_signed. reflexivity.
      - rewrite HtS; [reflexivity|lia|lia| |].
        + unfold cell, SIZE_OF_POINTER, sizeof_pointer. lia.
        + destruct Hn as [E|(_ & Hz & _)]; [left; exact E | right; lia]. }
    assert (HcanS : can_link hS tail rest = true).
    { apply can_link_intro.
      - exact Hir.
      - rewrite HvS, HslS. apply cell_valid; assumption.
      - rewrite HvS. apply valid_addr_intro; try lia.
        replace tail with (ptr - 4 + (cs + 5 * 4)) by lia.
        rewrite Z.add_mod, Hh3 by lia. rewrite Z_mod_plus_full, Hcs4. reflexivity.
      - rewrite HvS. unfold NEXTINT. apply valid_addr_intro; try lia.
        replace (tail + 4) with (ptr - 4 + (cs + 6 * 4)) by lia.
        rewrite Z.add_mod, Hh3 by lia. rewrite Z_mod_plus_full, Hcs4. reflexivity.
      - rewrite HslS. lia.
      - rewrite HheadS, HslS. unfold PREVINT.
        destruct Hh as [E|(Hv & Hz & _)]; [left; exact E|].
        right. split; [rewrite HvS; exact Hv | lia]. }
    pose proof (add_to_list_usr_effect hS tail rest Hnz HcanS) as Heff.
    cbv zeta in Heff. rewrite HheadS, HslS in Heff.
    destruct Heff as (hL & Hadd & Hhead' & Hnext' & Hbrk' & Hsl' & Htags).
    { unfold Int32.modulus, Int32.half_modulus in *. lia. }
    { destruct Hh as [E|(_ & _ & Ho)]; [rewrite E; unfold NULL; lia | lia]. }
    unfold NEXTINT in *.
    assert (Hkeep : forall a, a = ptr + cs + 12 \/ a = ptr + old + 4 ->
                              tag_at hL a = tag_at hS a).
    { intros a Ha. apply Htags.
      - destruct Ha; subst a; lia.
      - destruct Ha; subst a; lia.
      - destruct Ha; subst a; lia.
      - destruct Hh as [E|(_ & _ & Ho)]; [left; exact E|].
        right. destruct Ha; subst a; lia. }
    eexists. split; [exact (Hplace hL Hadd)|].
    split; [rewrite tag_at_store_ne by lia; rewrite tag_at_store_eq; exact Htag|].
    split; [rewrite tag_at_store_eq; exact Htag|].
    split.
    { rewrite !tag_at_store_ne by lia. rewrite Hkeep by (left; reflexivity).
      exact HrS1. }
    split.
    { rewrite !tag_at_store_ne by lia. rewrite Hkeep by (right; reflexivity).
      exact HrS2. }
    split; [|cbn [region_brk set_mem]; rewrite Hbrk'; exact HbrkS].
    intros _. split.
    + unfold head_cell in Hhead' |- *. cbn [seg_list set_mem].
      rewrite Hsl' in Hhead' |- *.
      rewrite !tag_at_store_ne by lia. exact Hhead'.
    + rewrite !tag_at_store_ne by lia. exact Hnext'.
Qed.

(** X25. Splitting a larger block: when the primer does not fire, the
    buckets from the one of the rounded size up to the one of a free block
    are empty, and that block is the first entry of its bucket with a
    payload that exceeds the rounded size by 16 or more, [mm_malloc]
    returns that block without moving the break; header and footer of the
    part handed out hold the allocated tag of the rounded size, the rest is
    tagged as a free block of payload old - new - 16 and, unless that is 0,
    put at the head of the bucket of its size, in front of the entry that
    was the head there. *)
Theorem X25_mm_malloc_splits_a_larger_block
        (fuel : nat) (h : heap) (size ptr : Z) :
  let cs := ALIGN size in
  let old := GET_SIZE (tag_at h (PREVINT ptr)) in
  let rest := old - cs - 16 in
  let tail := ptr + cs + 16 in
  let n := ptr_of_int (tag_at h (NEXTINT ptr)) in
  let old_head := if bucket_index rest =? bucket_index old then n
                  else head_cell h (bucket_index rest) in
  (25 < fuel)%nat ->
  index_ready h = true ->
  primer_fires h size = false ->
  0 < size < Int32.half_modulus - 32 ->
  cs + 16 <= old ->
  buckets_empty_between h (bucket_index cs) (bucket_index old) = true ->
  is_first_entry h ptr old = true ->
  valid_addr h (ptr + old + 4) = true ->
  mm_start_brk h + 8 <= ptr ->
  entry_clear_of h n (PREVINT ptr) (ptr + old + 4) = true ->
  rest = 0
  \/ (8 <= rest /\ entry_clear_of h old_head (PREVINT ptr) (ptr + old + 4) = true) ->
  exists h',
    mm_malloc fuel size h = Ret ptr h'
    /\ tag_at h' (PREVINT ptr) = SET_ALLOC_VAL cs
    /\ tag_at h' (ptr + cs + 4) = SET_ALLOC_VAL cs
    /\ tag_at h' (ptr + cs + 12) = rest
    /\ tag_at h' (ptr + old + 4) = rest
    /\ (rest <> 0 ->
        head_cell h' (bucket_index rest) = NEXTINT tail
        /\ ptr_of_int (tag_at h' (NEXTINT tail)) = old_head)
    /\ region_brk h' = region_brk h.
Proof.
  intros cs old rest tail n old_head Hfuel Hr Hidle Hsize Hbig Hbetween Hfirst
         Hftr Hzone Hnclear Hrest.
  destruct fuel as [|f]; [lia|].
  destruct (mm_malloc_idle f size h Hidle) as (h1 & Hh1 & Erun).
  destruct (request_sizes size Hsize) as (Ecs & Ens & Hle & H8 & Hmod).
  fold cs in Ecs, Ens, Hle, H8, Hmod.
  rewrite Erun. fold cs. rewrite Ecs.
  pose proof (index_ready_inv h Hr) as (H0 & H4 & Hsl & Hm & Hb & Hb4 & Hbs).
  pose proof (valid_addr_inv _ _ Hftr) as (Hf1 & Hf2 & Hf3).
  pose proof (is_first_entry_inv h ptr old Hfirst) as (Hi & _).
  assert (Hold : old < Int32.half_modulus).
  { unfold SIZE_OF_POINTER, sizeof_pointer, LISTLENGTH, Int32.half_modulus in *. lia. }
  pose proof (bucket_index_mono cs old ltac:(lia) Hold) as Hmono.
  pose proof (bucket_index_nonneg cs ltac:(lia)) as Hi0.
  set (k := Z.to_nat (bucket_index old - bucket_index cs)).
  assert (Hk : bucket_index cs + Z.of_nat k = bucket_index old).
  { unfold k. rewrite Z2Nat.id by lia. lia. }
  assert (Hf : f = (k + S (S (f - k - 2)))%nat).
  { unfold LISTLENGTH in Hi. lia. }
  rewrite Hf.
  destruct Hh1 as [->|[v ->]].
  - exact (malloc_place_split_effect k _ h ptr cs _ Hr H8 Hmod Hbig Hk Hbetween
             Hfirst Hftr Hzone Hnclear Hrest).
  - exact (malloc_place_split_effect k _ (set_m_count v h) ptr cs _ Hr H8 Hmod Hbig
             Hk Hbetween Hfirst Hftr Hzone Hnclear Hrest).
Qed.

Lemma X25_witness :
  exists h',
    mm_malloc fuel0 72 heap_one_free = Ret 65632 h'
    /\ tag_at h' (PREVINT 65632) = SET_ALLOC_VAL (ALIGN 72)
    /\ tag_at h' (65632 + ALIGN 72 + 4) = SET_ALLOC_VAL (ALIGN 72)
    /\ tag_at h' (65632 + ALIGN 72 + 12)
       = GET_SIZE (tag_at heap_one_free (PREVINT 65632)) - ALIGN 72 - 16
    /\ tag_at h' (65632 + GET_SIZE (tag_at heap_one_free (PREVINT 65632)) + 4)
       = GET_SIZE (tag_at heap_one_free (PREVINT 65632)) - ALIGN 72 - 16
    /\ (GET_SIZE (tag_at heap_one_free (PREVINT 65632)) - ALIGN 72 - 16 <> 0 ->
        head_cell h'
          (bucket_index (GET_SIZE (tag_at heap_one_free (PREVINT 65632)) - ALIGN 72 - 16))
        = NEXTINT (65632 + ALIGN 72 + 16)
        /\ ptr_of_int (tag_at h' (NEXTINT (65632 + ALIGN 72 + 16)))
           = (if bucket_index
                   (GET_SIZE (tag_at heap_one_free (PREVINT 65632)) - ALIGN 72 - 16)
                 =? bucket_index (GET_SIZE (tag_at heap_one_free (PREVINT 65632)))
              then ptr_of_int (tag_at heap_one_free (NEXTINT 65632))
              else head_cell heap_one_free
                     (bucket_index
                        (GET_SIZE (tag_at heap_one_free (PREVINT 65632))
                         - ALIGN 72 - 16))))
    /\ region_brk h' = region_brk heap_one_free.
Proof.
  apply (X25_mm_malloc_splits_a_larger_block fuel0 heap_one_free 72 65632).
  - unfold fuel0. lia.
  - vm_compute. reflexivity.
  - vm_compute. reflexivity.
  - vm_compute. split; reflexivity.
  - vm_compute. discriminate.
  - vm_compute. reflexivity.
  - vm_compute. reflexivity.
  - vm_compute. reflexivity.
  - vm_compute. discriminate.
  - vm_compute. reflexivity.
  - right. split; [vm_compute; discriminate | vm_compute; reflexivity].
Defined.

(** ** mm_free next to a free predecessor *)

(** The tag writes and the removal [mm_free] performs on a block whose
    predecessor is free and is the first entry of its bucket. *)
Lemma mm_free_merge_back_run fuel h ptr :
  let s := GET_SIZE (tag_at h (PREVINT ptr)) in
  let t := GET_SIZE (tag_at h (PREV3INT ptr)) in
  let pu := ptr - t - 16 in
  let total := s + t + 16 in
  let cell := seg_list h + SIZE_OF_POINTER * bucket_index t in
  let next := tag_at h (pu + 4) in
  let n := ptr_of_int next in
  let hB := set_mem (insert (ptr + s + 4) (Int32.signed s))
              (set_mem (insert (ptr - 4) (Int32.signed s)) h) in
  let hD := set_mem (insert cell (Int32.signed next))
              (if n =? NULL then hB
               else set_mem (insert (n - 4) (Int32.signed cell)) hB) in
  let hE := set_mem (insert (ptr + s + 4) (Int32.signed total))
              (set_mem (insert (pu - 4) (Int32.signed total))
                 (set_mem_max_addr (region_brk h - 1) hD)) in
  index_ready h = true ->
  valid_addr h (PREVINT ptr) = true ->
  8 <= s ->
  valid_addr h (ptr + s + 4) = true ->
  only_predecessor_free h ptr = true ->
  0 < t ->
  mm_start_brk h + 8 <= pu ->
  is_first_entry h pu t = true ->
  n = NULL \/ n - 4 < ptr - t - 28 \/ ptr + s + 12 < n - 4 ->
  mm_free (S (S fuel)) ptr h = add_to_list_usr pu total hE.
Proof.
  intros s t pu total cell next n hB hD hE
         Hr Hhdr Hs Hftr Honly Htpos Hzone Hfirst Hnout.
  pose proof (index_ready_inv h Hr) as (H0 & H4 & Hsl & Hm & Hb & Hb4 & Hbs).
  pose proof (valid_addr_inv _ _ Hhdr) as (Hh1 & Hh2 & Hh3).
  pose proof (valid_addr_inv _ _ Hftr) as (Hf1 & Hf2 & Hf3).
  pose proof (tag_at_range h (PREVINT ptr)) as Hw.
  pose proof (GET_SIZE_range _ Hw) as Hsr. fold s in Hsr.
  pose proof (GET_SIZE_range _ (tag_at_range h (PREV3INT ptr))) as Htr. fold t in Htr.
  assert (Ess : Int32.signed s = s) by (apply signed_small; exact Hsr).
  assert (Egs : GET_SIZE s = s) by apply GET_SIZE_idem.
  assert (Efree : SET_FREE_VAL (tag_at h (PREVINT ptr)) = s)
    by (apply SET_FREE_VAL_size; exact Hw).
  assert (Efree' : SET_FREE_VAL s = s).
  { rewrite SET_FREE_VAL_size by exact Hsr. exact Egs. }
  assert (Epu : pu = ptr - t - 16) by reflexivity.
  assert (Etl : total = s + t + 16) by reflexivity.
  (* what the predicate says *)
  unfold only_predecessor_free in Honly. fold s in Honly. fold t in Honly.
  unfold PREVINT, PREV3INT, FORWARDINT, BACKWARDINT in Honly.
  apply andb_prop in Honly as [Honly Hafter].
  apply andb_prop in Honly as [Honly Hback].
  apply andb_prop in Honly as [Honly Htnz].
  apply andb_prop in Honly as [Hpin Hpfree].
  apply Z.leb_le in Hpin. apply Z.eqb_eq in Hpfree.
  pose proof (is_first_entry_inv h pu t Hfirst)
    as (Hi & Hhead & Hvph & Hvpu & Hvpn & Hprev & Hn).
  cbv zeta in Hprev, Hn. fold cell in Hprev.
  unfold NEXTINT, PREVINT, NEXT2INT, PREV3INT in *.
  fold next in Hn. fold n in Hn.
  pose proof (valid_addr_inv _ _ Hvph) as (Hp1 & Hp2 & Hp3).
  pose proof (cell_valid h _ Hr Hi) as Hvc. fold cell in Hvc.
  assert (Hcellr : 0 <= cell < Int32.half_modulus /\ cell + 4 <= mm_start_brk h).
  { unfold cell, SIZE_OF_POINTER, sizeof_pointer, LISTLENGTH in *.
    unfold Int32.half_modulus in *. lia. }
  destruct Hcellr as (Hc1 & Hc2).
  assert (Etot : Int32.signed (s + (t + 16)) = total).
  { rewrite signed_small; [lia|]. unfold Int32.half_modulus in *. lia. }
  assert (Etot' : Int32.signed total = total).
  { apply signed_small. unfold Int32.half_modulus in *. lia. }
  assert (Eft : SET_FREE_VAL total = total).
  { rewrite SET_FREE_VAL_size by (unfold Int32.half_modulus in *; lia).
    apply GET_SIZE_even.
    pose proof (GET_SIZE_mod_2 (tag_at h (ptr - 4))) as Hs2. fold s in Hs2.
    pose proof (GET_SIZE_mod_2 (tag_at h (ptr - 12))) as Ht2. fold t in Ht2.
    pose proof (Z.div_mod s 2 ltac:(lia)). pose proof (Z.div_mod t 2 ltac:(lia)).
    replace total with ((s / 2 + t / 2 + 8) * 2) by lia.
    apply Z.mod_mul. lia. }
  (* the two tag writes of mm_free *)
  unfold mm_free, PREVINT, PREV2INT, SECONDINFOINT.
  rewrite (bind_Ret _ _ _ _ _ (load_Ret _ _ Hhdr)). fold s.
  rewrite (bind_Ret _ _ _ _ _ (load_Ret _ _ Hhdr)).
  rewrite (bind_Ret _ _ _ _ _ (store_Ret _ _ _ Hhdr)).
  rewrite Efree.
  set (hA := set_mem (insert (ptr - 4) (Int32.signed s)) h).
  assert (EA : tag_at hA (ptr - 4) = s).
  { unfold hA. rewrite tag_at_store_eq. exact Ess. }
  rewrite (bind_Ret _ _ _ _ _ (load_Ret (ptr - 4) hA Hhdr)).
  rewrite EA, Efree'.
  replace (ptr - 8 + s + 12) with (ptr + s + 4) by lia.
  rewrite (bind_Ret _ _ _ _ _ (store_Ret (ptr + s + 4) s hA Hftr)).
  fold hA in hB. fold hB.
  assert (EB : tag_at hB (ptr - 4) = s).
  { unfold hB. rewrite tag_at_store_ne by lia. exact EA. }
  assert (Hother : forall a, a <> ptr - 4 -> a <> ptr + s + 4 ->
                             tag_at hB a = tag_at h a).
  { intros a Ha1 Ha2. unfold hB, hA.
    rewrite !tag_at_store_ne by (apply not_eq_sym; assumption). reflexivity. }
  (* coalesce: the backward walk takes the predecessor and stops *)
  unfold coalesce, PREVINT, PREV3INT, NEXT2INT, NEXT3INT, FORWARDINT.
  rewrite (bind_Ret _ _ _ _ _ (load_Ret (ptr - 4) hB Hhdr)).
  rewrite EB, Egs.
  assert (Hrm : remove_entry (pu + 4) hB = Ret tt hD).
  { pose proof (remove_entry_head hB (pu + 4) cell) as Hre. cbv zeta in Hre.
    replace (pu + 4 - 4) with pu in Hre by lia.
    rewrite (Hother (pu + 4)) in Hre by lia.
    fold next in Hre. fold n in Hre.
    apply Hre.
    - exact Hvpn.
    - exact Hvpu.
    - rewrite Hother by lia. exact Hprev.
    - exact Hc1.
    - exact Hc2.
    - exact Hvc.
    - destruct Hn as [E|[Hv _]]; [left; exact E | right; exact Hv].
    - destruct Hn as [E|[_ Hd]]; [rewrite E; unfold NULL; lia | lia]. }
  assert (HfD : region_brk hD = region_brk h /\ mm_start_brk hD = mm_start_brk h
                /\ forall a, valid_addr hD a = valid_addr h a).
  { unfold hD. destruct (n =? NULL); repeat split; reflexivity. }
  destruct HfD as (HbrkD & HstD & HvD).
  assert (HtD : forall a, a <> ptr - 4 -> a <> ptr + s + 4 -> a <> cell ->
                          n = NULL \/ a <> n - 4 -> tag_at hD a = tag_at h a).
  { intros a A1 A2 A3 A4. unfold hD.
    rewrite tag_at_store_ne by (apply not_eq_sym; assumption).
    destruct (Z.eqb_spec n NULL) as [E0|Hnz]; [apply Hother; assumption|].
    destruct A4 as [|A4]; [contradiction|].
    rewrite tag_at_store_ne by (apply not_eq_sym; assumption).
    apply Hother; assumption. }
  assert (Hbk : coalesce_backward (S (S fuel)) (ptr - 12) s hB
                = Ret (pu - 12, total) hD).
  { cbn [coalesce_backward].
    unfold bind at 1. unfold gets at 1.
    change (mm_start_brk hB) with (mm_start_brk h).
    destruct (Z.geb_spec (ptr - 12) (mm_start_brk h)) as [_|]; [|lia].
    assert (Hvf : valid_addr hB (ptr - 12) = true).
    { change (valid_addr h (ptr - 12) = true). apply valid_addr_intro; try lia.
      replace (ptr - 12) with (ptr - 4 + (-2) * 4) by lia.
      rewrite Z_mod_plus_full. exact Hh3. }
    rewrite (bind_Ret _ _ _ _ _ (load_Ret (ptr - 12) hB Hvf)).
    rewrite (Hother (ptr - 12)) by lia.
    rewrite Hpfree. change (negb (0 =? 0)) with false. cbv iota.
    rewrite (bind_Ret _ _ _ _ _ (load_Ret (ptr - 12) hB Hvf)).
    rewrite (Hother (ptr - 12)) by lia. fold t. cbv zeta.
    rewrite Etot.
    destruct (Z.eqb_spec t 0) as [|_]; [lia|]. cbn [negb].
    unfold BACKWARDINT, NEXT4INT.
    replace (ptr - 12 - t - 16 + 16) with (pu + 4) by lia.
    rewrite (bind_Ret _ _ _ _ _ Hrm).
    replace (ptr - 12 - t - 16) with (pu - 12) by lia.
    apply coalesce_backward_stops. rewrite HstD.
    apply orb_prop in Hback as [Hlt|Hal].
    - left. apply Z.ltb_lt in Hlt. lia.
    - destruct (Z_lt_dec (pu - 12) (mm_start_brk h)) as [Hlt|Hge]; [left; exact Hlt|].
      right. split.
      + rewrite HvD.
        apply valid_addr_intro;
          [unfold SIZE_OF_POINTER, sizeof_pointer, LISTLENGTH in *; lia | lia |].
        replace (pu - 12) with (pu - 4 + (-2) * 4) by lia.
        rewrite Z_mod_plus_full. exact Hp3.
      + rewrite HtD.
        * apply negb_true_iff in Hal. apply Z.eqb_neq in Hal.
          replace (pu - 12) with (ptr - 12 - t - 16) by lia. exact Hal.
        * lia.
        * lia.
        * lia.
        * destruct Hnout as [E|Ho]; [left; exact E | right; lia]. }
  rewrite (bind_Ret _ _ _ _ _ Hbk). cbv beta iota zeta.
  unfold bind at 1. unfold mem_heap_hi, gets at 1.
  unfold bind at 1. unfold modify at 1.
  rewrite HbrkD.
  set (hD' := set_mem_max_addr (region_brk h - 1) hD).
  assert (Hfw : coalesce_forward (S (S fuel)) (ptr - 4 + s + 16) total hD'
                = Ret (ptr - 4 + s + 16, total) hD').
  { apply coalesce_forward_stops.
    change (mem_max_addr hD') with (region_brk h - 1).
    apply orb_prop in Hafter as [Hle|Hal].
    - left. apply Z.leb_le. exact Hle.
    - destruct (Z_le_dec (region_brk h - 1) (ptr - 4 + s + 16)) as [Hle|Hgt];
        [left; exact Hle|].
      right. split.
      + change (valid_addr hD (ptr - 4 + s + 16) = true). rewrite HvD.
        assert (Ha4 : (ptr - 4 + s + 16) mod 4 = 0).
        { replace (ptr - 4 + s + 16) with (ptr + s + 4 + 2 * 4) by lia.
          rewrite Z_mod_plus_full. exact Hf3. }
        apply valid_addr_intro; try lia.
        pose proof (Z.div_mod (ptr - 4 + s + 16) 4 ltac:(lia)).
        pose proof (Z.div_mod (region_brk h) 4 ltac:(lia)).
        lia.
      + change (GET_ALLOC (tag_at hD (ptr - 4 + s + 16)) <> 0).
        rewrite HtD.
        * apply negb_true_iff in Hal. apply Z.eqb_neq in Hal. exact Hal.
        * lia.
        * lia.
        * lia.
        * destruct Hnout as [E|Ho]; [left; exact E | right; lia]. }
  rewrite (bind_Ret _ _ _ _ _ Hfw). cbv beta iota zeta.
  replace (pu - 12 + 8) with (pu - 4) by lia.
  replace (pu - 12 + 12) with pu by lia.
  assert (Hset : set_info_free (pu - 4) total hD' = Ret tt hE).
  { rewrite set_info_free_Ret.
    - unfold SECONDINFOINT, PREVINT. rewrite Eft.
      replace (pu - 4 - 4 + total + 12) with (ptr + s + 4) by lia. reflexivity.
    - change (valid_addr hD (pu - 4) = true). rewrite HvD. exact Hvph.
    - unfold SECONDINFOINT, PREVINT.
      replace (pu - 4 - 4 + total + 12) with (ptr + s + 4) by lia.
      change (valid_addr hD (ptr + s + 4) = true). rewrite HvD. exact Hftr. }
  rewrite (bind_Ret _ _ _ _ _ Hset). reflexivity.
Qed.

(** X26. Freeing a block whose predecessor is free: when the word before
    the block is the footer of a free block that lies in the user zone and
    is the first entry of the bucket of its payload, the words around the
    two blocks stop both walks, and the list entries the call relinks lie
    outside the two blocks, [mm_free] takes the predecessor out of its
    bucket and returns with one free block of payload s + t + 16 that
    starts where the predecessor started: header and footer hold that size
    with the alloc bit clear, the block is the head of the bucket of that
    size, its next slot holds the entry that was the head there before (the
    entry after the predecessor, when the two buckets are the same), and
    the break stays where it was. *)
Theorem X26_mm_free_merges_with_a_free_predecessor
        (fuel : nat) (h : heap) (ptr : Z) :
  let s := GET_SIZE (tag_at h (PREVINT ptr)) in
  let t := GET_SIZE (tag_at h (PREV3INT ptr)) in
  let pu := ptr - t - 16 in
  let total := s + t + 16 in
  let n := ptr_of_int (tag_at h (NEXTINT pu)) in
  let old_head := if bucket_index total =? bucket_index t then n
                  else head_cell h (bucket_index total) in
  (1 < fuel)%nat ->
  index_ready h = true ->
  valid_addr h (PREVINT ptr) = true ->
  8 <= s ->
  valid_addr h (ptr + s + 4) = true ->
  only_predecessor_free h ptr = true ->
  0 < t ->
  mm_start_brk h + 8 <= pu ->
  is_first_entry h pu t = true ->
  0 <= bucket_index total < LISTLENGTH ->
  entry_clear_of h n (pu - 12) (ptr + s + 12) = true ->
  entry_clear_of h old_head (pu - 12) (ptr + s + 12) = true ->
  exists h',
    mm_free fuel ptr h = Ret tt h'
    /\ tag_at h' (PREVINT pu) = total
    /\ tag_at h' (ptr + s + 4) = total
    /\ is_free h' (PREVINT pu) = true
    /\ head_cell h' (bucket_index total) = NEXTINT pu
    /\ ptr_of_int (tag_at h' (NEXTINT pu)) = old_head
    /\ (bucket_index total <> bucket_index t -> head_cell h' (bucket_index t) = n)
    /\ region_brk h' = region_brk h.
Proof.
  intros s t pu total n old_head Hfuel Hr Hhdr Hs Hftr Honly Htpos Hzone Hfirst
         Hidx Hnclear Hhclear.
  destruct fuel as [|[|f]]; [lia|lia|].
  pose proof (entry_clear_of_inv _ _ _ _ Hnclear) as Hn.
  pose proof (entry_clear_of_inv _ _ _ _ Hhclear) as Hh.
  assert (Epu : pu = ptr - t - 16) by reflexivity.
  assert (Htot : total = s + t + 16) by reflexivity.
  assert (Hnout : n = NULL \/ n - 4 < ptr - t - 28 \/ ptr + s + 12 < n - 4).
  { destruct Hn as [E|(_ & _ & Ho)]; [left; exact E | right; lia]. }
  pose proof (mm_free_merge_back_run f h ptr Hr Hhdr Hs Hftr Honly Htpos Hzone Hfirst
                Hnout) as Hrun.
  cbv zeta in Hrun. unfold PREVINT, PREV3INT, NEXTINT in *.
  fold s in Hrun. fold t in Hrun. fold pu in Hrun. fold total in Hrun.
  fold n in Hrun.
  set (cellt := seg_list h + SIZE_OF_POINTER * bucket_index t) in *.
  set (next := tag_at h (pu + 4)) in *.
  set (hB := set_mem (insert (ptr + s + 4) (Int32.signed s))
               (set_mem (insert (ptr - 4) (Int32.signed s)) h)) in *.
  set (hD := set_mem (insert cellt (Int32.signed next))
               (if n =? NULL then hB
                else set_mem (insert (n - 4) (Int32.signed cellt)) hB)) in *.
  set (hE := set_mem (insert (ptr + s + 4) (Int32.signed total))
               (set_mem (insert (pu - 4) (Int32.signed total))
                  (set_mem_max_addr (region_brk h - 1) hD))) in *.
  pose proof (index_ready_inv h Hr) as (H0 & H4 & Hsl & Hm & Hb & Hb4 & Hbs).
  pose proof (valid_addr_inv _ _ Hhdr) as (Hh1 & Hh2 & Hh3).
  pose proof (valid_addr_inv _ _ Hftr) as (Hf1 & Hf2 & Hf3).
  pose proof (is_first_entry_inv h pu t Hfirst)
    as (Hit & _ & Hvph & Hvpu & Hvpn & _ & _).
  unfold PREVINT, NEXTINT in Hvph, Hvpn.
  assert (Htr : 0 <= mm_start_brk h).
  { unfold SIZE_OF_POINTER, sizeof_pointer, LISTLENGTH in *. lia. }
  assert (Etot : Int32.signed total = total).
  { apply signed_small. unfold Int32.half_modulus in *. lia. }
  assert (Eev : GET_ALLOC total = 0).
  { unfold GET_ALLOC. rewrite land_1.
    pose proof (GET_SIZE_mod_2 (tag_at h (ptr - 4))) as Hs2. fold s in Hs2.
    pose proof (GET_SIZE_mod_2 (tag_at h (ptr - 12))) as Ht2. fold t in Ht2.
    pose proof (Z.div_mod s 2 ltac:(lia)). pose proof (Z.div_mod t 2 ltac:(lia)).
    replace total with ((s / 2 + t / 2 + 8) * 2) by lia.
    apply Z.mod_mul. lia. }
  (* the fields and the words of the heap the insertion starts from *)
  assert (HfE : seg_list hE = seg_list h /\ region_brk hE = region_brk h
                /\ forall a, valid_addr hE a = valid_addr h a).
  { unfold hE, hD. destruct (n =? NULL); repeat split; reflexivity. }
  destruct HfE as (HslE & HbrkE & HvE).
  assert (HtE : forall a, a <> pu - 4 -> a <> ptr + s + 4 -> a <> ptr - 4 ->
                          a <> cellt -> n = NULL \/ a <> n - 4 ->
                          tag_at hE a = tag_at h a).
  { intros a A1 A2 A3 A4 A5. unfold hE.
    rewrite !tag_at_store_ne by (apply not_eq_sym; assumption).
    change (tag_at (set_mem_max_addr (region_brk h - 1) hD) a) with (tag_at hD a).
    unfold hD.
    rewrite tag_at_store_ne by (apply not_eq_sym; assumption).
    destruct (Z.eqb_spec n NULL) as [E0|Hnz].
    - unfold hB.
      rewrite !tag_at_store_ne by (apply not_eq_sym; assumption). reflexivity.
    - destruct A5 as [|A5]; [contradiction|].
      rewrite tag_at_store_ne by (apply not_eq_sym; assumption).
      unfold hB.
      rewrite !tag_at_store_ne by (apply not_eq_sym; assumption). reflexivity. }
  assert (HhdrE : tag_at hE (pu - 4) = total).
  { unfold hE. rewrite tag_at_store_ne by lia.
    rewrite tag_at_store_eq. exact Etot. }
  assert (HftrE : tag_at hE (ptr + s + 4) = total).
  { unfold hE. rewrite tag_at_store_eq. exact Etot. }
  assert (Hcells : forall j, 0 <= j < LISTLENGTH ->
                    seg_list h + SIZE_OF_POINTER * j + 4 <= mm_start_brk h
                    /\ region_lo h <= seg_list h + SIZE_OF_POINTER * j).
  { intros j Hj. unfold SIZE_OF_POINTER, sizeof_pointer, LISTLENGTH in *. lia. }
  pose proof (Hcells _ Hit) as (Hct1 & Hct2). fold cellt in Hct1, Hct2.
  pose proof (Hcells _ Hidx) as (Hci1 & Hci2).
  assert (HheadE : head_cell hE (bucket_index total) = old_head).
  { unfold head_cell. rewrite HslE. unfold old_head.
    destruct (Z.eqb_spec (bucket_index total) (bucket_index t)) as [Ei|Hni].
    - rewrite Ei. fold cellt. unfold hE.
      rewrite !tag_at_store_ne by lia.
      change (tag_at (set_mem_max_addr (region_brk h - 1) hD) cellt)
        with (tag_at hD cellt).
      unfold hD. rewrite tag_at_store_eq.
      unfold ptr_of_int. rewrite unsigned_signed. reflexivity.
    - rewrite HtE; [reflexivity|lia|lia|lia| |].
      + unfold cellt, SIZE_OF_POINTER, sizeof_pointer. lia.
      + destruct Hn as [E|(_ & Hz & _)]; [left; exact E | right; lia]. }
  assert (HcanE : can_link hE pu total = true).
  { apply can_link_intro.
    - exact Hidx.
    - rewrite HvE, HslE. apply cell_valid; assumption.
    - rewrite HvE. exact Hvpu.
    - rewrite HvE. exact Hvpn.
    - rewrite HslE. lia.
    - rewrite HheadE, HslE. unfold PREVINT.
      destruct Hh as [E|(Hv & Hz & _)]; [left; exact E|].
      right. split; [rewrite HvE; exact Hv | lia]. }
  pose proof (add_to_list_usr_effect hE pu total ltac:(lia) HcanE) as Heff.
  cbv zeta in Heff. rewrite HheadE, HslE in Heff.
  destruct Heff as (h' & Hadd & Hhead' & Hnext' & Hbrk' & Hsl' & Htags).
  { pose proof (valid_addr_inv _ _ Hvpn) as (? & ? & _).
    unfold Int32.modulus, Int32.half_modulus in *. lia. }
  { destruct Hh as [E|(_ & _ & Ho)]; [rewrite E; unfold NULL; lia | lia]. }
  unfold NEXTINT in *.
  assert (Hkeep : forall a, a = pu - 4 \/ a = ptr + s + 4 ->
                            tag_at h' a = tag_at hE a).
  { intros a Ha. apply Htags.
    - destruct Ha; subst a; lia.
    - destruct Ha; subst a; lia.
    - destruct Ha; subst a; lia.
    - destruct Hh as [E|(_ & _ & Ho)]; [left; exact E|].
      right. destruct Ha; subst a; lia. }
  exists h'. split; [rewrite Hrun; exact Hadd|].
  split; [rewrite Hkeep by (left; reflexivity); exact HhdrE|].
  split; [rewrite Hkeep by (right; reflexivity); exact HftrE|].
  split.
  { unfold is_free. rewrite Hkeep by (left; reflexivity). rewrite HhdrE, Eev.
    reflexivity. }
  split; [exact Hhead'|].
  split; [exact Hnext'|].
  split; [|rewrite Hbrk'; exact HbrkE].
  intros Hni. unfold head_cell. rewrite Hsl'. fold cellt.
  assert (Hold : old_head = head_cell h (bucket_index total)).
  { unfold old_head. destruct (Z.eqb_spec (bucket_index total) (bucket_index t));
      [contradiction|reflexivity]. }
  rewrite Htags.
  - unfold hE. rewrite !tag_at_store_ne by lia.
    change (tag_at (set_mem_max_addr (region_brk h - 1) hD) cellt)
      with (tag_at hD cellt).
    unfold hD. rewrite tag_at_store_eq.
    unfold ptr_of_int. rewrite unsigned_signed. reflexivity.
  - unfold cellt, SIZE_OF_POINTER, sizeof_pointer. lia.
  - lia.
  - lia.
  - destruct Hh as [E|(_ & Hz & _)]; [left; exact E | right; lia].
Qed.

Lemma X26_witness :
  exists h',
    mm_free fuel0 65776 heap_first_freed = Ret tt h'
    /\ tag_at h' (PREVINT (65776 - 128 - 16)) = 272
    /\ tag_at h' (65776 + 128 + 4) = 272
    /\ is_free h' (PREVINT (65776 - 128 - 16)) = true
    /\ head_cell h' (bucket_index 272) = NEXTINT (65776 - 128 - 16)
    /\ ptr_of_int (tag_at h' (NEXTINT (65776 - 128 - 16))) = NULL
    /\ (bucket_index 272 <> bucket_index 128 -> head_cell h' (bucket_index 128) = NULL)
    /\ region_brk h' = region_brk heap_first_freed.
Proof.
  apply (X26_mm_free_merges_with_a_free_predecessor fuel0 heap_first_freed 65776).
  - unfold fuel0. lia.
  - vm_compute. reflexivity.
  - vm_compute. reflexivity.
  - vm_compute. discriminate.
  - vm_compute. reflexivity.
  - vm_compute. reflexivity.
  - vm_compute. reflexivity.
  - vm_compute. discriminate.
  - vm_compute. reflexivity.
  - vm_compute. split; [discriminate|reflexivity].
  - vm_compute. reflexivity.
  - vm_compute. reflexivity.
Defined.

(** ** mm_realloc: moving the block *)

Lemma realloc_backward_stops fuel h start_ptr total newsize :
  start_ptr < mm_start_brk h
  \/ (valid_addr h start_ptr = true /\ GET_ALLOC (tag_at h start_ptr) <> 0) ->
  realloc_backward (S fuel) start_ptr total newsize h
  = Ret (start_ptr, total, false) h.
Proof.
  intros Hstop. cbn [realloc_backward].
  unfold bind at 1. unfold gets at 1.
  destruct (Z.geb_spec start_ptr (mm_start_brk h)) as [Hge|Hlt].
  - destruct Hstop as [Hlt|[Hv Hal]]; [lia|].
    rewrite (bind_Ret _ _ _ _ _ (load_Ret _ _ Hv)).
    destruct (Z.eqb_spec (GET_ALLOC (tag_at h start_ptr)) 0); [contradiction|].
    reflexivity.
  - reflexivity.
Qed.

Lemma realloc_forward_stops fuel h last_ptr total newsize :
  mem_max_addr h <= last_ptr
  \/ (valid_addr h last_ptr = true /\ GET_ALLOC (tag_at h last_ptr) <> 0) ->
  realloc_forward (S fuel) last_ptr total newsize h
  = Ret (last_ptr, total, false) h.
Proof.
  intros Hstop. cbn [realloc_forward].
  unfold bind at 1. unfold gets at 1.
  destruct (Z.ltb_spec last_ptr (mem_max_addr h)) as [Hlt|Hge].
  - destruct Hstop as [Hge|[Hv Hal]]; [lia|].
    rewrite (bind_Ret _ _ _ _ _ (load_Ret _ _ Hv)).
    destruct (Z.eqb_spec (GET_ALLOC (tag_at h last_ptr)) 0); [contradiction|].
    reflexivity.
  - reflexivity.
Qed.

(** X27. Moving a block: for a block that cannot be resized in place (its
    payload is neither the rounded size nor 16 or more above it, it is not
    the last block when it has to grow, and neither neighbour is free),
    [mm_realloc] is [mm_malloc] of the new size followed, unless that
    returned NULL, by the copy of the smaller of the two payload sizes and
    [mm_free] of the old block; when [mm_malloc] returns NULL so does
    [mm_realloc], in the heap [mm_malloc] left. *)
Theorem X27_mm_realloc_moves_the_block
        (fuel : nat) (h : heap) (ptr size : Z) :
  let cs := ALIGN size in
  let s := GET_SIZE (tag_at h (PREVINT ptr)) in
  (0 < fuel)%nat ->
  ptr <> NULL ->
  0 < size < Int32.half_modulus - 32 ->
  index_ready h = true ->
  valid_addr h (PREVINT ptr) = true ->
  valid_addr h (PREV3INT ptr) = true ->
  valid_addr h (ptr + s + 4) = true ->
  0 <= s ->
  s <> cs ->
  s < cs + 16 ->
  (s < cs -> ptr + s + 12 < region_brk h - 1) ->
  no_free_neighbour h ptr = true ->
  mm_realloc fuel ptr size h
  = (newptr <- mm_malloc fuel size;;
     if newptr =? NULL then ret NULL
     else
       (copy_bytes fuel newptr ptr 0 (Z.min cs s);;
        mm_free fuel ptr);;
       ret newptr)
      (set_mem_max_addr (region_brk h - 1) h).
Proof.
  intros cs s Hfuel Hptr Hsize Hr Hhdr Hpf Hftr Hs0 Hne Hlt16 Hlast Halone.
  destruct fuel as [|f]; [lia|].
  destruct (request_sizes size Hsize) as (Ecs & _ & Hle & H8 & Hmod).
  fold cs in Ecs, Hle, H8, Hmod.
  pose proof (index_ready_inv h Hr) as (H0 & H4 & Hsl & Hm & Hb & Hb4 & Hbs).
  pose proof (valid_addr_inv _ _ Hhdr) as (Hh1 & Hh2 & Hh3).
  pose proof (valid_addr_inv _ _ Hftr) as (Hf1 & Hf2 & Hf3).
  unfold no_free_neighbour in Halone. fold s in Halone.
  unfold PREVINT, PREV3INT, FORWARDINT in *.
  apply andb_prop in Halone as [Hback Hafter].
  assert (Hsr : s < Int32.half_modulus) by (unfold Int32.half_modulus in *; lia).
  assert (Eus : Int32.unsigned s = s).
  { apply unsigned_small. unfold Int32.modulus, Int32.half_modulus in *. lia. }
  assert (Euc : Int32.unsigned cs = cs).
  { apply unsigned_small. unfold Int32.modulus, Int32.half_modulus in *. lia. }
  assert (Ecopy : (if Int32.unsigned cs <? Int32.unsigned s
                   then Int32.unsigned cs else Int32.unsigned s) = Z.min cs s).
  { rewrite Eus, Euc. destruct (Z.ltb_spec cs s); lia. }
  unfold mm_realloc, PREVINT, PREV3INT, FORWARDINT.
  rewrite (bind_Ret _ _ _ _ _ (load_Ret _ _ Hhdr)). cbv beta zeta.
  rewrite (bind_Ret _ _ _ _ _ (load_Ret _ _ Hhdr)). cbv beta zeta.
  fold s. fold cs. rewrite Ecs. rewrite Ecopy.
  destruct (Z.eqb_spec ptr NULL) as [E|_]; [contradiction|].
  destruct (Z.eqb_spec size 0) as [E|_]; [lia|].
  destruct (Z.eqb_spec s cs) as [E|_]; [contradiction|].
  rewrite (signed_small (cs + 16)) by (unfold Int32.half_modulus in *; lia).
  destruct (Z.geb_spec s (cs + 16)) as [|_]; [lia|].
  (* the block is not grown at the end of the heap *)
  assert (Elast : (if s <? cs then check_last_usr ptr else ret 0) h
                  = Ret (if s <? cs then 0 else 0) h).
  { destruct (Z.ltb_spec s cs) as [Hlt|_]; [|reflexivity].
    unfold check_last_usr, PREVINT, FORWARDINT.
    rewrite (bind_Ret _ _ _ _ _ (load_Ret _ _ Hhdr)). fold s.
    unfold bind at 1. unfold mem_heap_hi, gets at 1.
    destruct (Z.geb_spec (ptr - 4 + s + 16) (region_brk h - 1)) as [Hge|_];
      [specialize (Hlast Hlt); lia | reflexivity]. }
  rewrite (bind_Ret _ _ _ _ _ Elast).
  replace ((s <? cs) && negb ((if s <? cs then 0 else 0) =? 0)) with false
    by (destruct (s <? cs); reflexivity).
  cbv iota.
  (* both walks stop at once *)
  assert (Hbk : realloc_backward (S f) (ptr - 12) s cs h = Ret (ptr - 12, s, false) h).
  { apply realloc_backward_stops.
    apply orb_prop in Hback as [Hl|Hal].
    - left. apply Z.ltb_lt. exact Hl.
    - right. split; [exact Hpf|].
      apply negb_true_iff in Hal. apply Z.eqb_neq in Hal. exact Hal. }
  rewrite (bind_Ret _ _ _ _ _ Hbk). cbv beta iota zeta. cbn [negb].
  set (hM := set_mem_max_addr (region_brk h - 1) h).
  assert (Hfw : (hi <- mem_heap_hi;;
                 modify (set_mem_max_addr hi);;
                 realloc_forward (S f) (ptr - 4 + s + 16) s cs) h
                = Ret (ptr - 4 + s + 16, s, false) hM).
  { unfold bind at 1. unfold mem_heap_hi, gets at 1.
    unfold bind at 1. unfold modify at 1. fold hM.
    apply realloc_forward_stops.
    change (mem_max_addr hM) with (region_brk h - 1).
    apply orb_prop in Hafter as [Htop|Hal].
    - left. apply Z.leb_le. exact Htop.
    - destruct (Z_le_dec (region_brk h - 1) (ptr - 4 + s + 16)) as [Htop|Hgt];
        [left; exact Htop|].
      right. split.
      + change (valid_addr h (ptr - 4 + s + 16) = true).
        assert (Ha4 : (ptr - 4 + s + 16) mod 4 = 0).
        { replace (ptr - 4 + s + 16) with (ptr + s + 4 + 2 * 4) by lia.
          rewrite Z_mod_plus_full. exact Hf3. }
        apply valid_addr_intro; try lia.
        pose proof (Z.div_mod (ptr - 4 + s + 16) 4 ltac:(lia)).
        pose proof (Z.div_mod (region_brk h) 4 ltac:(lia)).
        lia.
      + change (GET_ALLOC (tag_at h (ptr - 4 + s + 16)) <> 0).
        apply negb_true_iff in Hal. apply Z.eqb_neq in Hal. exact Hal. }
  rewrite (bind_Ret _ _ _ _ _ Hfw). cbv beta iota zeta. cbn [negb].
  assert (Hpf' : valid_addr hM (ptr - 12) = true) by exact Hpf.
  rewrite (bind_Ret _ _ _ _ _ (load_Ret _ _ Hpf')).
  reflexivity.
Qed.

Lemma X27_witness :
  mm_realloc fuel0 65632 512 heap_three_blocks
  = (newptr <- mm_malloc fuel0 512;;
     if newptr =? NULL then ret NULL
     else
       (copy_bytes fuel0 newptr 65632 0
          (Z.min (ALIGN 512) (GET_SIZE (tag_at heap_three_blocks (PREVINT 65632))));;
        mm_free fuel0 65632);;
       ret newptr)
      (set_mem_max_addr (region_brk heap_three_blocks - 1) heap_three_blocks).
Proof.
  apply (X27_mm_realloc_moves_the_block fuel0 heap_three_blocks 65632 512).
  - unfold fuel0. lia.
  - discriminate.
  - vm_compute. split; reflexivity.
  - vm_compute. reflexivity.
  - vm_compute. reflexivity.
  - vm_compute. reflexivity.
  - vm_compute. reflexivity.
  - vm_compute. discriminate.
  - vm_compute. discriminate.
  - vm_compute. reflexivity.
  - intros _. vm_compute. reflexivity.
  - vm_compute. reflexivity.
Defined.

(** ** The counter of the primer *)

Lemma malloc_place_m_count fuel ns cs h p h' :
  malloc_place fuel ns cs h = Ret p h' -> m_count h' = m_count h.
Proof.
  intros H.
  refine (keeps_malloc_place (fun a b => m_count b = m_count a) _ _ _ _
            fuel ns cs h p h' H).
  - intros x. reflexivity.
  - intros x y z E1 E2. congruence.
  - intros g x. reflexivity.
  - intros b x _. reflexivity.
Qed.

(** X28. The counter of small requests: whenever [mm_malloc] returns, the
    counter [m_count] is untouched by a request whose block size exceeds
    80, set to 1 by a request for which the primer fired, and one more
    than before otherwise; neither the search, the split nor the calls made
    by the primer leave another value in it. *)
Theorem X28_mm_malloc_counts_small_requests
        (fuel : nat) (size : Z) (h : heap) (p : Z) (h' : heap) :
  mm_malloc fuel size h = Ret p h' ->
  m_count h'
  = if Int32.signed (ALIGN (Int32.unsigned (size + SIZE_OF_INFOS))) <=? 80
    then (if primer_fires h size then 1 else Int32.signed (m_count h + 1))
    else m_count h.
Proof.
  intros H. destruct fuel as [|f]; [discriminate H|].
  cbn [mm_malloc] in H. cbv zeta in H.
  inv_bind H as u h1 E.
  apply malloc_place_m_count in H. rewrite H. clear H.
  unfold primer_fires.
  set (ns := Int32.signed (ALIGN (Int32.unsigned (size + SIZE_OF_INFOS)))) in *.
  assert (Hprel : forall big,
    (c <- gets m_count;;
     if (c =? 0) || (c =? big)
     then (q <- mm_malloc f (Int32.unsigned (ALIGN size * big + 16 * (big - 1)));;
           mm_free f q;; modify (set_m_count 1))
     else modify (fun h => set_m_count (Int32.signed (m_count h + 1)) h)) h
    = Ret u h1 ->
    m_count h1 = if (m_count h =? 0) || (m_count h =? big) then 1
                 else Int32.signed (m_count h + 1)).
  { intros big Hp. unfold bind at 1 in Hp. unfold gets at 1 in Hp.
    destruct ((m_count h =? 0) || (m_count h =? big)).
    - inv_bind Hp as q h2 E2. inv_bind Hp as v h3 E3.
      unfold modify in Hp. injection Hp as _ <-. reflexivity.
    - unfold modify in Hp. injection Hp as _ <-. reflexivity. }
  destruct (Z.leb_spec ns 32) as [H32|H32].
  - destruct (Z.leb_spec ns 80) as [_|]; [|lia].
    exact (Hprel 4 E).
  - destruct (Z.leb_spec ns 80) as [_|_].
    + exact (Hprel 6 E).
    + apply ret_inv in E as [_ <-]. reflexivity.
Qed.

Lemma X28_witness :
  m_count (heap_after (mm_malloc fuel0 16 heap_init) heap_init)
  = if Int32.signed (ALIGN (Int32.unsigned (16 + SIZE_OF_INFOS))) <=? 80
    then (if primer_fires heap_init 16 then 1
          else Int32.signed (m_count heap_init + 1))
    else m_count heap_init.
Proof.
  apply (X28_mm_malloc_counts_small_requests fuel0 16 heap_init 65632).
  vm_compute. reflexivity.
Defined.
